(** * Museum-Interaction-Project: the transcription job pipeline

    A shallow embedding of the Python sources

      - [image_transcriber.py]                         (module [Transcriber])
      - [backend/app/services/transcriber.py]          (module [Service])
      - [backend/app/api/routes.py], [api/models.py]   (module [Routes])
      - [backend/app/services/content_generator.py]    (module [ContentGen])

    followed by the properties of the job pipeline established on it.

    Conventions.  Python exceptions are values of [exn]; a computation that
    may raise returns a [result].  Code that reads or writes the file system,
    calls Pillow or calls the inference service runs in the monad [M] over a
    [World].  Library functions whose code is not part of the repository
    (Pillow, base64, json, the Anthropic client) are fields of the classes
    [Libs] and [Anthropic]; Python's float arithmetic is the class
    [FloatModel], of which [binary64] is the instance that rounds as IEEE 754
    does.  A character is one 8-bit [ascii]: text is restricted to code
    points below 256. *)

From Stdlib Require Import ZArith QArith Qround Qpower Lia Lqa Ascii.
From stdpp Require Import base gmap strings list sorting pretty.

Set Warnings "-register-all,-clear-no-such-hyp".

Open Scope string_scope.
Open Scope Z_scope.
Open Scope list_scope.

(* ================================================================= *)
(** ** Exceptions and results *)

Inductive exn : Type :=
| Exception (cls : string) (msg : string)
| HTTPException (status_code : Z) (detail : string).

(** [str(e)] as the handlers of the sources use it. *)
Definition exn_str (e : exn) : string :=
  match e with
  | Exception _ msg => msg
  | HTTPException _ detail => detail
  end.

Inductive result (A : Type) : Type :=
| Ok (a : A)
| Raise (e : exn).
Arguments Ok {A} a.
Arguments Raise {A} e.

Definition TypeError (msg : string) : exn := Exception "TypeError" msg.
Definition AttributeError (msg : string) : exn := Exception "AttributeError" msg.
Definition ZeroDivisionError : exn := Exception "ZeroDivisionError" "division by zero".

(* ================================================================= *)
(** ** Python strings *)

Module PyStr.

Definition nl : string := String (ascii_of_nat 10) "".

(** [sub in s] *)
Definition contains (sub s : string) : bool :=
  match String.index 0 sub s with Some _ => true | None => false end.

(** [s.find(sub, start)] for [0 <= start]. *)
Definition find (sub s : string) (start : Z) : Z :=
  match String.index (Z.to_nat start) sub s with
  | Some i => Z.of_nat i
  | None => -1
  end.

(** [s[a:b]]: negative bounds count from the end, both are clamped. *)
Definition clamp (len i : Z) : Z :=
  if i <? 0 then Z.max 0 (len + i) else Z.min len i.

Definition slice (s : string) (a b : Z) : string :=
  let len := Z.of_nat (String.length s) in
  let a' := clamp len a in
  let b' := clamp len b in
  String.substring (Z.to_nat a') (Z.to_nat (b' - a')) s.

(** [s[:n]] and [s[n:]] *)
Definition take (n : nat) (s : string) : string := String.substring 0 n s.
Definition drop (n : nat) (s : string) : string :=
  String.substring n (String.length s - n) s.

(** [str.isspace] on one character below 256. *)
Definition isspace (c : ascii) : bool :=
  let n := nat_of_ascii c in
  ((9 <=? n) && (n <=? 13) || (28 <=? n) && (n <=? 32)
   || (n =? 133) || (n =? 160))%nat.

Fixpoint lstrip (s : string) : string :=
  match s with
  | String c s' => if isspace c then lstrip s' else s
  | EmptyString => EmptyString
  end.

Fixpoint rstrip (s : string) : string :=
  match s with
  | String c s' =>
      match rstrip s' with
      | EmptyString => if isspace c then EmptyString else String c EmptyString
      | r => String c r
      end
  | EmptyString => EmptyString
  end.

(** [s.strip()] *)
Definition strip (s : string) : string := rstrip (lstrip s).

(** [str.lower] on one character below 256. *)
Definition lower_char (c : ascii) : ascii :=
  let n := nat_of_ascii c in
  if ((65 <=? n) && (n <=? 90)
      || (192 <=? n) && (n <=? 222) && negb (n =? 215))%nat
  then ascii_of_nat (n + 32) else c.

Fixpoint lower (s : string) : string :=
  match s with
  | String c s' => String (lower_char c) (lower s')
  | EmptyString => EmptyString
  end.

(** [sep.join(parts)] *)
Fixpoint join (sep : string) (parts : list string) : string :=
  match parts with
  | [] => ""
  | [p] => p
  | p :: rest => p +:+ sep +:+ join sep rest
  end.

(** [s * n] *)
Fixpoint repeat (s : string) (n : nat) : string :=
  match n with
  | O => EmptyString
  | S n' => s +:+ repeat s n'
  end.

(** Split at the last occurrence of [c]. *)
Fixpoint rsplit (c : ascii) (s : string) : option (string * string) :=
  match s with
  | EmptyString => None
  | String a s' =>
      match rsplit c s' with
      | Some (l, r) => Some (String a l, r)
      | None => if Ascii.eqb a c then Some (EmptyString, s') else None
      end
  end.

(** [repr(s)] on text below 256: in single quotes, unless the text holds one
    and no double quote; the quote in use, the backslash and every character
    that is not printable are escaped. *)
Definition has (n : nat) (s : string) : bool :=
  existsb (λ c, (nat_of_ascii c =? n)%nat) (String.list_ascii_of_string s).

Definition hex_digit (n : nat) : ascii :=
  if (n <? 10)%nat then ascii_of_nat (48 + n) else ascii_of_nat (87 + n).

Fixpoint repr_escape (q : nat) (s : string) : string :=
  match s with
  | EmptyString => EmptyString
  | String c r =>
      let n := nat_of_ascii c in
      (if (n =? q)%nat then String (ascii_of_nat 92) (String c EmptyString)
       else if (n =? 92)%nat then "\\"
       else if (n =? 10)%nat then "\n"
       else if (n =? 13)%nat then "\r"
       else if (n =? 9)%nat then "\t"
       else if ((n <? 32) || (127 <=? n) && (n <=? 160) || (n =? 173))%nat then
         "\x" +:+ String (hex_digit (n / 16)) (String (hex_digit (n mod 16)) EmptyString)
       else String c EmptyString) +:+ repr_escape q r
  end.

Definition repr (s : string) : string :=
  let q := if has 39 s && negb (has 34 s) then 34%nat else 39%nat in
  String (ascii_of_nat q) (repr_escape q s) +:+ String (ascii_of_nat q) EmptyString.

End PyStr.

(** [str(e)] of a [KeyError] is the [repr] of the key; that of an [OSError]
    ends in the [repr] of the path. *)
Definition KeyError (k : string) : exn := Exception "KeyError" (PyStr.repr k).
Definition FileNotFoundError (p : string) : exn :=
  Exception "FileNotFoundError" ("[Errno 2] No such file or directory: " +:+ PyStr.repr p).
Definition NotADirectoryError (p : string) : exn :=
  Exception "NotADirectoryError" ("[Errno 20] Not a directory: " +:+ PyStr.repr p).

(* ================================================================= *)
(** ** pathlib *)

Module PyPath.

(** A path is its string; components are separated by ["/"]. *)
Definition joinpath (d n : string) : string := d +:+ "/" +:+ n.

Definition name (p : string) : string :=
  match PyStr.rsplit "/" p with Some (_, n) => n | None => p end.

Definition parent (p : string) : string :=
  match PyStr.rsplit "/" p with Some (d, _) => d | None => "." end.

(** [PurePath.suffix]: with [i = name.rfind('.')], the text from [i] on when
    [0 < i < len(name) - 1], otherwise empty. *)
Definition suffix (p : string) : string :=
  match PyStr.rsplit "." (name p) with
  | Some (stem, ext) =>
      match stem, ext with
      | EmptyString, _ => ""
      | _, EmptyString => ""
      | _, _ => "." +:+ ext
      end
  | None => ""
  end.

(** [PurePath.with_suffix] *)
Definition with_suffix (p sfx : string) : string :=
  let old := suffix p in
  PyStr.take (String.length p - String.length old) p +:+ sfx.

End PyPath.

(* ================================================================= *)
(** ** Python values *)

Inductive PyVal : Type :=
| VNone
| VBool (b : bool)
| VInt (z : Z)
| VFloat (repr : string)
| VStr (s : string)
| VList (l : list PyVal)
| VDict (kv : list (string * PyVal)).

(** A dict with string keys, in insertion order. *)
Definition PyDict : Type := list (string * PyVal).

Fixpoint dict_lookup (k : string) (d : PyDict) : option PyVal :=
  match d with
  | [] => None
  | (k', v) :: d' => if String.eqb k k' then Some v else dict_lookup k d'
  end.

(** [d[k]] *)
Definition subscript (d : PyDict) (k : string) : result PyVal :=
  match dict_lookup k d with
  | Some v => Ok v
  | None => Raise (KeyError k)
  end.

(** [d.get(k, default)] *)
Definition dict_get (d : PyDict) (k : string) (default : PyVal) : PyVal :=
  match dict_lookup k d with
  | Some v => v
  | None => default
  end.

(** Truth value of an object. *)
Definition truthy (v : PyVal) : bool :=
  match v with
  | VNone => false
  | VBool b => b
  | VInt z => negb (z =? 0)
  | VFloat r => negb (String.eqb r "0.0" || String.eqb r "-0.0")
  | VStr s => negb (String.eqb s "")
  | VList l => match l with [] => false | _ => true end
  | VDict kv => match kv with [] => false | _ => true end
  end.

(** [str(v)], as an f-string formats a value.  A float is identified by its
    [repr]; the [repr] of containers is left to the library. *)
Definition py_str (repr : PyVal → string) (v : PyVal) : string :=
  match v with
  | VNone => "None"
  | VBool true => "True"
  | VBool false => "False"
  | VInt z => pretty z
  | VFloat r => r
  | VStr s => s
  | _ => repr v
  end.

(* ================================================================= *)
(** ** The world outside the program *)

(** A decoded Pillow image. *)
Record Image : Type := mkImage {
  mode : string;
  width : Z;
  height : Z;
  raster : string
}.

(** A request to the inference service: an image with the fixed
    transcription instruction, or a text prompt. *)
Inductive Request : Type :=
| Vision (media_type : string) (data : string)
| Prompt (text : string).

(** Calls that leave the program, in the order they are made. *)
Inductive Event : Type :=
| EvOpen (path : string)
| EvTranspose (img : Image)
| EvConvert (img : Image) (to : string)
| EvSave (img : Image) (quality : Z)
| EvResize (img : Image) (w h : Z)
| EvRequest (req : Request)
| EvWrite (path : string).

Record World : Type := mkWorld {
  files : gmap string string;   (* regular files: path ↦ content *)
  dirs : gset string;           (* directories *)
  clock : string;               (* [datetime.now()] as "%Y-%m-%d %H:%M" *)
  served : nat;                 (* requests the service has answered *)
  log : list Event
}.

(** Library code outside the repository. *)
Class Libs : Type := {
  (* Pillow *)
  pil_decode : string → result Image;          (* [Image.open] on a file's bytes *)
  pil_exif_transpose : Image → result Image;   (* [ImageOps.exif_transpose] *)
  pil_convert : Image → string → Image;        (* [img.convert(mode)] *)
  pil_save_jpeg : Image → Z → result string;   (* [img.save(buf, 'JPEG', quality, optimize)] *)
  pil_resample : Image → Z → Z → result string; (* pixels of [img.resize((w, h), LANCZOS)] *)
  (* base64, json, repr *)
  b64encode : string → string;
  json_loads : string → result PyVal;
  json_dumps : PyVal → string;                 (* [indent=2, ensure_ascii=False] *)
  py_repr : PyVal → string
}.

(** [json.loads] skips the whitespace around a document: a text it reads is
    read to the same value once it is stripped. *)
Class JsonWhitespace {libs : Libs} : Prop :=
  json_loads_strip : ∀ (s : string) (v : PyVal),
    json_loads s = Ok v → json_loads (PyStr.strip s) = Ok v.

(** The inference service: the text of the first content block of the reply
    to the [n]-th request, or the exception the client raises. *)
Class Anthropic : Type := {
  messages_create : nat → Request → result string
}.

(** Python floats.  A float is the rational it denotes; [rnd] rounds an exact
    result to binary64 (to nearest).  The laws are those of IEEE 754 rounding
    that the pipeline relies on. *)
Class FloatModel : Type := {
  rnd : Q → Q;
  rnd_mono : ∀ x y : Q, (x <= y)%Q → (rnd x <= rnd y)%Q;
  rnd_dyadic : ∀ (m : Z) (k : nat),
    Z.abs m <= 2 ^ 53 → (k <= 64)%nat →
    (rnd (m # Pos.pow 2 (Pos.of_nat k)) == m # Pos.pow 2 (Pos.of_nat k))%Q;
  rnd_integer : ∀ m : Z, Z.abs m <= 2 ^ 53 → (rnd (inject_Z m) == inject_Z m)%Q;
  rnd_error : ∀ x : Q,
    (1 # Pos.pow 2 64 <= x)%Q → (x <= inject_Z (2 ^ 64))%Q →
    (rnd x <= x * (1 + (1 # Pos.pow 2 53)))%Q
}.

(* ================================================================= *)
(** ** The effect monad *)

(** Computations over a state [S] that may raise. *)
Definition St (S A : Type) : Type := S → result A * S.

Definition ret {S A} (a : A) : St S A := λ s, (Ok a, s).
Definition raise {S A} (e : exn) : St S A := λ s, (Raise e, s).
Definition bind {S A B} (m : St S A) (k : A → St S B) : St S B :=
  λ s, match m s with
       | (Ok a, s') => k a s'
       | (Raise e, s') => (Raise e, s')
       end.
(** [try: m  except Exception as e: h e] *)
Definition try_except {S A} (m : St S A) (h : exn → St S A) : St S A :=
  λ s, match m s with
       | (Ok a, s') => (Ok a, s')
       | (Raise e, s') => h e s'
       end.
Definition lift {S A} (r : result A) : St S A := λ s, (r, s).

Notation "'let*' x ':=' m 'in' k" := (bind m (λ x, k))
  (at level 10, x pattern, m at level 100, k at level 200).
Notation "m ';;' k" := (bind m (λ _, k))
  (at level 100, k at level 200, right associativity).

(** Code that only touches the file system, Pillow and the service. *)
Definition M (A : Type) : Type := St World A.

Definition emit (ev : Event) : M unit :=
  λ w, (Ok tt, mkWorld (files w) (dirs w) (clock w) (served w) (log w ++ [ev])).

(** [open(p, 'rb').read()] *)
Definition read_file (p : string) : M string :=
  λ w, match files w !! p with
       | Some c => (Ok c, w)
       | None => (Raise (FileNotFoundError p), w)
       end.

(** [open(p, 'w').write(c)]: creates or truncates, then writes. *)
Definition write_file (p c : string) : M unit :=
  λ w, (Ok tt, mkWorld (<[p := c]> (files w)) (dirs w) (clock w) (served w)
                       (log w ++ [EvWrite p])).

(** [p.mkdir(parents=True, exist_ok=True)]; the ancestors are taken to exist
    where the source omits [parents]. *)
Definition mkdir (p : string) : M unit :=
  λ w, (Ok tt, mkWorld (files w) ({[p]} ∪ dirs w) (clock w) (served w) (log w)).

(** The files and directories directly under [d]. *)
Definition entries (w : World) (d : string) : gset string :=
  filter (λ p, PyPath.parent p = d) (dom (files w) ∪ dirs w).

(** [sorted(d.iterdir())]: listing a regular file is refused as such, and a
    path that names nothing is not found. *)
Definition sorted_iterdir (d : string) : M (list string) :=
  λ w, if decide (d ∈ dirs w) then
         (Ok (merge_sort String.le (elements (entries w d))), w)
       else if decide (d ∈ dom (files w)) then (Raise (NotADirectoryError d), w)
       else (Raise (FileNotFoundError d), w).

(** [datetime.now().strftime("%Y-%m-%d %H:%M")] *)
Definition now : M string := λ w, (Ok (clock w), w).

(** One call of [client.messages.create(...)], reading [content[0].text]. *)
Definition ask {service : Anthropic} (req : Request) : M string :=
  λ w, (messages_create (served w) req,
        mkWorld (files w) (dirs w) (clock w) (S (served w)) (log w ++ [EvRequest req])).

(* ================================================================= *)
(** ** Python numbers *)

Module PyNum.

(** [a % b] on ints: the sign follows the divisor, as [Z.modulo]. *)
Definition int_mod (a b : Z) : result Z :=
  if b =? 0 then Raise (Exception "ZeroDivisionError" "integer modulo by zero")
  else Ok (a mod b).

(** [int(x)] on a float: truncation toward zero. *)
Definition int_of_float (x : Q) : Z := Z.quot (Qnum x) (Zpos (Qden x)).

Definition float_lt (x y : Q) : bool := if Qlt_le_dec x y then true else false.

(** [min(x, y)]: the first argument unless the second is smaller. *)
Definition float_min (x y : Q) : Q := if float_lt y x then y else x.

Section Float.
Context {floats : FloatModel}.

(** [a / b] on ints: the correctly rounded quotient. *)
Definition true_div (a b : Z) : result Q :=
  if b =? 0 then Raise ZeroDivisionError
  else Ok (rnd (inject_Z a / inject_Z b)).

(** [x * y] on floats, and [n * y] with [n] an int converted first. *)
Definition float_mul (x y : Q) : Q := rnd (x * y).
Definition float_of_int (n : Z) : Q := rnd (inject_Z n).

End Float.
End PyNum.

(* ================================================================= *)
(** ** image_transcriber.py *)

Module Transcriber.
Section WithLibs.
Context {libs : Libs} {service : Anthropic} {floats : FloatModel}.

Record ImageTranscriber : Type := mkTranscriber {
  api_key : string;
  output_dir : string
}.

(** [ImageTranscriber.__init__]; [env_key] is [ANTHROPIC_API_KEY] in the
    environment. *)
Definition init (key env_key : option string) (out : string) : M ImageTranscriber :=
  let chosen :=
    match key with
    | Some k => if String.eqb k "" then env_key else Some k
    | None => env_key
    end in
  match chosen with
  | Some k =>
      if String.eqb k "" then
        raise (Exception "ValueError"
                 "API key required. Set ANTHROPIC_API_KEY env var or pass api_key parameter")
      else mkdir out ;; ret (mkTranscriber k out)
  | None =>
      raise (Exception "ValueError"
               "API key required. Set ANTHROPIC_API_KEY env var or pass api_key parameter")
  end.

(** [Image.open(path)] *)
Definition image_open (path : string) : M Image :=
  emit (EvOpen path) ;;
  let* bytes := read_file path in
  lift (pil_decode bytes).

(** [try: img = ImageOps.exif_transpose(img)  except Exception: pass] *)
Definition exif_fix (img : Image) : M Image :=
  emit (EvTranspose img) ;;
  ret (match pil_exif_transpose img with Ok img' => img' | Raise _ => img end).

Definition save_jpeg (img : Image) (quality : Z) : M string :=
  emit (EvSave img quality) ;;
  lift (pil_save_jpeg img quality).

Definition resize (img : Image) (new_size : Z * Z) : M Image :=
  emit (EvResize img new_size.1 new_size.2) ;;
  let* pixels := lift (pil_resample img new_size.1 new_size.2) in
  ret (mkImage (mode img) new_size.1 new_size.2 pixels).

(** [output.tell() > max_size_mb * 1024 * 1024] *)
Definition over_budget (output : string) (max_size_mb : Q) : bool :=
  PyNum.float_lt
    (PyNum.float_mul (PyNum.float_mul max_size_mb (inject_Z 1024)) (inject_Z 1024))
    (inject_Z (Z.of_nat (String.length output))).

Definition max_dimension : Z := 2400.

(** [(int(img.width * ratio), int(img.height * ratio))] *)
Definition scaled_size (img : Image) (ratio : Q) : Z * Z :=
  (PyNum.int_of_float (PyNum.float_mul (PyNum.float_of_int (width img)) ratio),
   PyNum.int_of_float (PyNum.float_mul (PyNum.float_of_int (height img)) ratio)).

Definition compress_image (image_path : string) (max_size_mb : Q) (quality : Z)
  : M string :=
  let* img := image_open image_path in
  let* img := exif_fix img in
  let* img :=
    (if bool_decide (mode img ∈ ["RGBA"; "LA"; "P"])
     then emit (EvConvert img "RGB") ;; ret (pil_convert img "RGB")
     else ret img) in
  let* output := save_jpeg img quality in
  if over_budget output max_size_mb then
    let* rw := lift (PyNum.true_div max_dimension (width img)) in
    let* rh := lift (PyNum.true_div max_dimension (height img)) in
    let ratio := PyNum.float_min rw rh in
    let* img :=
      (if PyNum.float_lt ratio 1
       then
         let new_size := scaled_size img ratio in
         resize img new_size
       else ret img) in
    let* output := save_jpeg img quality in
    ret output
  else ret output.

Definition compressed_extensions : list string := [".jpg"; ".jpeg"; ".png"; ".webp"].

(** Returns [(base64_string, media_type)]. *)
Definition encode_image (image_path : string) : M (string * string) :=
  let file_ext := PyStr.lower (PyPath.suffix image_path) in
  if bool_decide (file_ext ∈ compressed_extensions) then
    let* image_bytes := compress_image image_path 5 85 in
    ret (b64encode image_bytes, "image/jpeg")
  else
    let* image_bytes := read_file image_path in
    ret (b64encode image_bytes, "image/" +:+ PyStr.drop 1 file_ext).

Definition item_ok (filename text : string) : PyDict :=
  [("filename", VStr filename); ("text", VStr text);
   ("success", VBool true); ("error", VNone)].

Definition item_failed (filename error : string) : PyDict :=
  [("filename", VStr filename); ("text", VStr "");
   ("success", VBool false); ("error", VStr error)].

(** The [try] block of [transcribe_image]. *)
Definition transcribe_body (image_path : string) : M PyDict :=
  let* (base64_image, media_type) := encode_image image_path in
  let* text_content := ask (Vision media_type base64_image) in
  ret (item_ok (PyPath.name image_path) text_content).

Definition transcribe_image (image_path : string) : M PyDict :=
  try_except
    (transcribe_body image_path)
    (λ e, ret (item_failed (PyPath.name image_path) (exn_str e))).

Definition _save_intermediate_results (self : ImageTranscriber)
    (results : list PyDict) (count : Z) : M unit :=
  let backup_path :=
    PyPath.joinpath (output_dir self) ("backup_results_" +:+ pretty count +:+ ".json") in
  write_file backup_path (json_dumps (VList (VDict <$> results))).

(** The body of [for i, image_path in enumerate(image_paths, 1)], from
    index [i] with the results gathered so far. *)
Fixpoint transcribe_loop (self : ImageTranscriber) (batch_size : Z) (i : Z)
    (image_paths : list string) (results : list PyDict) : M (list PyDict) :=
  match image_paths with
  | [] => ret results
  | image_path :: rest =>
      let* result := transcribe_image image_path in
      let results := results ++ [result] in
      let* r := lift (PyNum.int_mod i batch_size) in
      (if r =? 0 then _save_intermediate_results self results i else ret tt) ;;
      transcribe_loop self batch_size (i + 1) rest results
  end.

Definition transcribe_batch (self : ImageTranscriber) (image_paths : list string)
    (batch_size : Z) : M (list PyDict) :=
  transcribe_loop self batch_size 1 image_paths [].

(** [sum(1 for r in results if r['success'])] *)
Fixpoint count_success (results : list PyDict) : result Z :=
  match results with
  | [] => Ok 0
  | r :: rest =>
      match subscript r "success" with
      | Raise e => Raise e
      | Ok s =>
          match count_success rest with
          | Raise e => Raise e
          | Ok n => Ok (if truthy s then 1 + n else n)
          end
      end
  end.

Definition type_name (v : PyVal) : string :=
  match v with
  | VNone => "NoneType" | VBool _ => "bool" | VInt _ => "int" | VFloat _ => "float"
  | VStr _ => "str" | VList _ => "list" | VDict _ => "dict"
  end.

(** ["\n".join(output)]: every element has to be a [str]. *)
Fixpoint all_str (i : nat) (output : list PyVal) : result (list string) :=
  match output with
  | [] => Ok []
  | VStr s :: rest =>
      match all_str (S i) rest with
      | Ok l => Ok (s :: l)
      | Raise e => Raise e
      end
  | v :: _ =>
      Raise (TypeError ("sequence item " +:+ pretty i +:+ ": expected str instance, "
                        +:+ type_name v +:+ " found"))
  end.

Definition join_lines (output : list PyVal) : result string :=
  match all_str 0 output with
  | Ok l => Ok (PyStr.join PyStr.nl l)
  | Raise e => Raise e
  end.

(** The body of [for i, result in enumerate(results, 1)]. *)
Fixpoint compile_loop (i : Z) (results : list PyDict) (output : list PyVal)
  : result (list PyVal) :=
  match results with
  | [] => Ok output
  | result :: rest =>
      match subscript result "success" with
      | Raise e => Raise e
      | Ok s =>
          if truthy s then
            match subscript result "filename" with
            | Raise e => Raise e
            | Ok fn =>
                let output := output ++
                  [VStr ("## Image " +:+ pretty i +:+ ": " +:+ py_str py_repr fn)] in
                let output := output ++ [VStr ""] in
                match subscript result "text" with
                | Raise e => Raise e
                | Ok t =>
                    let output := output ++ [t] in
                    let output := output ++ [VStr ""] in
                    let output := output ++ [VStr "---"] in
                    let output := output ++ [VStr ""] in
                    compile_loop (i + 1) rest output
                end
            end
          else
            match subscript result "filename" with
            | Raise e => Raise e
            | Ok fn =>
                let output := output ++
                  [VStr ("## Image " +:+ pretty i +:+ ": " +:+ py_str py_repr fn
                         +:+ " [FAILED]")] in
                match subscript result "error" with
                | Raise e => Raise e
                | Ok err =>
                    let output := output ++ [VStr ("Error: " +:+ py_str py_repr err)] in
                    let output := output ++ [VStr ""] in
                    let output := output ++ [VStr "---"] in
                    let output := output ++ [VStr ""] in
                    compile_loop (i + 1) rest output
                end
            end
      end
  end.

Definition compile_results (results : list PyDict) (title : string) : M string :=
  let* timestamp := now in
  let* successes := lift (count_success results) in
  let output :=
    [VStr ("# " +:+ title);
     VStr ("Transcribed on: " +:+ timestamp);
     VStr ("Total images processed: " +:+ pretty (Z.of_nat (length results)));
     VStr ("Successful transcriptions: " +:+ pretty successes);
     VStr "";
     VStr "---";
     VStr ""] in
  let* output := lift (compile_loop 1 results output) in
  lift (join_lines output).

Definition save_output (self : ImageTranscriber) (content base_filename : string)
  : M (string * string) :=
  let txt_path := PyPath.joinpath (output_dir self) (base_filename +:+ ".txt") in
  write_file txt_path content ;;
  let md_path := PyPath.joinpath (output_dir self) (base_filename +:+ ".md") in
  write_file md_path content ;;
  ret (txt_path, md_path).

Definition image_extensions : list string :=
  [".jpg"; ".jpeg"; ".png"; ".gif"; ".webp"; ".bmp"].

Definition is_image (exts : list string) (p : string) : bool :=
  bool_decide (PyStr.lower (PyPath.suffix p) ∈ exts).



End WithLibs.
End Transcriber.

(* ================================================================= *)
(** ** backend/app/core/config.py *)

Module Config.

(** What a deployment fixes: the API key and the project root. *)
Record Settings : Type := mkSettings {
  ANTHROPIC_API_KEY : string;
  BASE_DIR : string
}.

Definition UPLOAD_DIR (settings : Settings) : string :=
  PyPath.joinpath (PyPath.joinpath (BASE_DIR settings) "backend") "uploads".
Definition OUTPUT_DIR (settings : Settings) : string :=
  PyPath.joinpath (PyPath.joinpath (BASE_DIR settings) "backend") "outputs".

Definition MAX_UPLOAD_SIZE : Z := 100 * 1024 * 1024.
Definition ALLOWED_EXTENSIONS : list string :=
  [".jpg"; ".jpeg"; ".png"; ".gif"; ".webp"; ".bmp"].

(** [Settings.__init__]: both directories are made before the key is
    checked. *)
Definition init (self : Settings) : M unit :=
  mkdir (UPLOAD_DIR self) ;;
  mkdir (OUTPUT_DIR self) ;;
  if String.eqb (ANTHROPIC_API_KEY self) ""
  then raise (Exception "ValueError" "ANTHROPIC_API_KEY environment variable is required")
  else ret tt.

End Config.

(* ================================================================= *)
(** ** backend/app/api/models.py *)

Module Models.

Inductive JobStatus : Type := PENDING | PROCESSING | COMPLETED | FAILED.

#[global] Instance JobStatus_eq_dec : EqDecision JobStatus.
Proof. solve_decision. Defined.

Inductive ContentType : Type := FLASHCARDS | INFOGRAPHICS | VIDEO_SCRIPT | PODCAST.

#[global] Instance ContentType_eq_dec : EqDecision ContentType.
Proof. solve_decision. Defined.

(** Individual transcription result, and the dict it validates. *)
Record TranscriptionResult : Type := mkResult {
  filename : string;
  text : string;
  success : bool;
  error : option string
}.

Definition to_dict (r : TranscriptionResult) : PyDict :=
  [("filename", VStr (filename r)); ("text", VStr (text r));
   ("success", VBool (success r));
   ("error", match error r with Some e => VStr e | None => VNone end)].

(** The constructor call of [TranscriptionResult] with a dict as keyword
    arguments: pydantic's validation of the dict against the model.  A dict that carries the four fields with their declared types
    validates to the record of these fields. *)
Class Pydantic : Type := {
  validate_result : PyDict → result TranscriptionResult;
  validate_to_dict : ∀ r : TranscriptionResult, validate_result (to_dict r) = Ok r
}.

End Models.

(* ================================================================= *)
(** ** backend/app/services/transcriber.py *)

Module Service.
Section WithLibs.
Context {libs : Libs} {service : Anthropic} {floats : FloatModel}.
Variable settings : Config.Settings.

Record TranscriptionService : Type := mkService {
  job_id : string;
  output_dir : string;
  transcriber : Transcriber.ImageTranscriber
}.

(** [TranscriptionService.__init__] with the default [output_dir].  The key
    in the settings is the one of the environment. *)
Definition init (job_id : string) : M TranscriptionService :=
  let output_dir := PyPath.joinpath (Config.OUTPUT_DIR settings) job_id in
  let* t := Transcriber.init (Some (Config.ANTHROPIC_API_KEY settings))
                             (Some (Config.ANTHROPIC_API_KEY settings)) output_dir in
  ret (mkService job_id output_dir t).

(** Returns [(results, compiled_text)]. *)
Definition process_images (self : TranscriptionService) (image_dir : string)
    (output_filename : string) : M (list PyDict * string) :=
  let image_extensions := Config.ALLOWED_EXTENSIONS in
  let* entries := sorted_iterdir image_dir in
  let image_paths := filter (λ p, Transcriber.is_image image_extensions p) entries in
  match image_paths with
  | [] => ret ([], "")
  | _ =>
      let* results := Transcriber.transcribe_batch (transcriber self) image_paths 10 in
      let* compiled_text :=
        Transcriber.compile_results results ("Transcription - " +:+ job_id self) in
      Transcriber.save_output (transcriber self) compiled_text output_filename ;;
      ret (results, compiled_text)
  end.

End WithLibs.
End Service.

(* ================================================================= *)
(** ** backend/app/services/content_generator.py *)

Module ContentGen.
Import Models.

Definition dq : string := String (ascii_of_nat 34) EmptyString.

Definition fence : string := "```".
Definition fence_json : string := "```json".

(** The text handed to [json.loads]: the inside of the first fenced block,
    stripped, when the response holds a fence; the response otherwise. *)
Definition extract_json (response_text : string) : string :=
  if PyStr.contains fence_json response_text then
    let json_start := PyStr.find fence_json response_text 0 + 7 in
    let json_end := PyStr.find fence response_text json_start in
    PyStr.strip (PyStr.slice response_text json_start json_end)
  else if PyStr.contains fence response_text then
    let json_start := PyStr.find fence response_text 0 + 3 in
    let json_end := PyStr.find fence response_text json_start in
    PyStr.strip (PyStr.slice response_text json_start json_end)
  else response_text.

(** What [for ... in enumerate(v, 1)] iterates over. *)
Definition py_iter (v : PyVal) : result (list PyVal) :=
  match v with
  | VList l => Ok l
  | VDict kv => Ok ((λ p : string * PyVal, VStr p.1) <$> kv)
  | VStr s => Ok ((λ c, VStr (String c EmptyString)) <$> String.list_ascii_of_string s)
  | _ => Raise (TypeError ("'" +:+ Transcriber.type_name v +:+ "' object is not iterable"))
  end.

(** [v.get(k, default)] on an arbitrary object. *)
Definition py_get (v : PyVal) (k : string) (default : PyVal) : result PyVal :=
  match v with
  | VDict kv => Ok (dict_get kv k default)
  | _ => Raise (AttributeError ("'" +:+ Transcriber.type_name v
                                +:+ "' object has no attribute 'get'"))
  end.

(** [transcription_text[:8000]] bounds what a prompt embeds. *)
Definition prompt_limit : nat := Z.to_nat 8000.

Definition flashcards_prompt (transcription_text : string) : string :=
  "Based on the following museum exhibit transcription, create educational flashcards.

Each flashcard should have:
- A clear question on one side
- A concise, accurate answer on the other side
- Focus on key facts, dates, people, concepts, and important details

Format the output as JSON with this structure:
{
  " +:+ dq +:+ "flashcards" +:+ dq +:+ ": [
    {
      " +:+ dq +:+ "question" +:+ dq +:+ ": " +:+ dq +:+ "Question text here" +:+ dq +:+ ",
      " +:+ dq +:+ "answer" +:+ dq +:+ ": " +:+ dq +:+ "Answer text here" +:+ dq +:+ ",
      " +:+ dq +:+ "category" +:+ dq +:+ ": " +:+ dq
    +:+ "Category (e.g., History, Art, Science)" +:+ dq +:+ "
    }
  ]
}

Create 10-20 flashcards covering the most important information.

Transcription:
" +:+ PyStr.take prompt_limit transcription_text +:+ "  # Limit to avoid token limits
".

Definition infographic_prompt (transcription_text : string) : string :=
  "Based on the following museum exhibit transcription, create a structured infographic summary.

Format the content as a clear, visually-oriented summary with:
- Main title and subtitle
- Key statistics or numbers (if any)
- Important dates or timeline
- Key concepts or themes (3-5 bullet points)
- Notable facts or highlights
- Visual suggestions (what images/icons would work well)

Format as markdown with clear sections and bullet points.

Transcription:
" +:+ PyStr.take prompt_limit transcription_text +:+ "
".

Definition video_script_prompt (transcription_text : string) : string :=
  "Based on the following museum exhibit transcription, create a video script suitable for text-to-speech or narration.

The script should:
- Be engaging and educational
- Be 2-3 minutes when read aloud (approximately 300-450 words)
- Have a clear introduction, main content, and conclusion
- Use conversational language suitable for general audiences
- Include natural pauses and emphasis markers [PAUSE] where appropriate
- Be formatted with clear scene descriptions and narration

Format:
[SCENE 1: Introduction]
NARRATOR: [Text here]

[SCENE 2: Main Content]
NARRATOR: [Text here]

[SCENE 3: Conclusion]
NARRATOR: [Text here]

Transcription:
" +:+ PyStr.take prompt_limit transcription_text +:+ "
".

Definition podcast_prompt (transcription_text : string) : string :=
  "Based on the following museum exhibit transcription, format it as a podcast script.

The podcast script should:
- Have a clear introduction hook
- Be conversational and engaging
- Include natural transitions between topics
- Be suitable for audio narration (2-5 minutes)
- Include suggested music/sound effect cues in brackets
- Have clear speaker cues if multiple voices are used

Format:
[INTRO MUSIC]

HOST: [Introduction]

[TRANSITION MUSIC]

HOST: [Main content]

[OUTRO MUSIC]

Transcription:
" +:+ PyStr.take prompt_limit transcription_text +:+ "
".

Section WithLibs.
Context {libs : Libs} {service : Anthropic}.

(** [json_text = ...; flashcards_data = json.loads(json_text)] *)
Definition parse_response (response_text : string) : result PyVal :=
  let json_text := extract_json response_text in
  json_loads json_text.

(** The loop that writes the readable cards: the text written so far, and
    the exception that stopped it, if any. *)
Fixpoint write_cards (i : Z) (cards : list PyVal) (written : string)
  : string * option exn :=
  match cards with
  | [] => (written, None)
  | card :: rest =>
      match py_get card "category" (VStr "General") with
      | Raise e => (written, Some e)
      | Ok category =>
          let written := written +:+ "Card " +:+ pretty i +:+ " - "
                         +:+ py_str py_repr category +:+ PyStr.nl in
          match py_get card "question" (VStr "") with
          | Raise e => (written, Some e)
          | Ok question =>
              let written := written +:+ "Q: " +:+ py_str py_repr question +:+ PyStr.nl in
              match py_get card "answer" (VStr "") with
              | Raise e => (written, Some e)
              | Ok answer =>
                  let written := written +:+ "A: " +:+ py_str py_repr answer
                                 +:+ PyStr.nl +:+ PyStr.nl in
                  write_cards (i + 1) rest written
              end
          end
      end
  end.

(** The [with open(txt_path, 'w')] block: what ends up in the file, and the
    exception raised inside the block, if any. *)
Definition readable_cards (flashcards_data : PyVal) : string * option exn :=
  let written := "FLASHCARDS" +:+ PyStr.nl in
  let written := written +:+ PyStr.repeat "=" 50 +:+ PyStr.nl +:+ PyStr.nl in
  match py_get flashcards_data "flashcards" (VList []) with
  | Raise e => (written, Some e)
  | Ok cards =>
      match py_iter cards with
      | Raise e => (written, Some e)
      | Ok cards => write_cards 1 cards written
      end
  end.

(** Returns the path of the generated flashcards file. *)
Definition generate_flashcards (transcription_text : string) (output_path : string)
  : M string :=
  let prompt := flashcards_prompt transcription_text in
  let* response_text := ask (Prompt prompt) in
  try_except
    (let* flashcards_data := lift (parse_response response_text) in
     mkdir (PyPath.parent output_path) ;;
     write_file output_path (json_dumps flashcards_data) ;;
     let txt_path := PyPath.with_suffix output_path ".txt" in
     let (written, failure) := readable_cards flashcards_data in
     write_file txt_path written ;;
     match failure with
     | Some e => raise e
     | None => ret output_path
     end)
    (λ e,
     write_file (PyPath.with_suffix output_path ".txt") response_text ;;
     raise (Exception "Exception" ("Failed to parse flashcards JSON: " +:+ exn_str e))).

(** The three narrative generators share their body. *)
Definition generate_text (prompt : string) (output_path : string) : M string :=
  let* content := ask (Prompt prompt) in
  mkdir (PyPath.parent output_path) ;;
  write_file output_path content ;;
  ret output_path.

Definition generate_infographic_text (transcription_text output_path : string) : M string :=
  generate_text (infographic_prompt transcription_text) output_path.

Definition generate_video_script (transcription_text output_path : string) : M string :=
  generate_text (video_script_prompt transcription_text) output_path.

Definition generate_podcast_format (transcription_text output_path : string) : M string :=
  generate_text (podcast_prompt transcription_text) output_path.

(** One iteration of the loop of [generate_content]: the key and the path
    stored in [generated_files]. *)
Definition generate_one (transcription_text output_dir : string)
    (content_type : ContentType) : M (string * string) :=
  match content_type with
  | FLASHCARDS =>
      let file_path := PyPath.joinpath output_dir "flashcards.json" in
      let* p := generate_flashcards transcription_text file_path in
      ret ("flashcards", p)
  | INFOGRAPHICS =>
      let file_path := PyPath.joinpath output_dir "infographic.md" in
      let* p := generate_infographic_text transcription_text file_path in
      ret ("infographics", p)
  | VIDEO_SCRIPT =>
      let file_path := PyPath.joinpath output_dir "video_script.txt" in
      let* p := generate_video_script transcription_text file_path in
      ret ("video_script", p)
  | PODCAST =>
      let file_path := PyPath.joinpath output_dir "podcast_script.txt" in
      let* p := generate_podcast_format transcription_text file_path in
      ret ("podcast", p)
  end.

Fixpoint generate_loop (transcription_text output_dir : string)
    (content_types : list ContentType) (generated_files : gmap string string)
  : M (gmap string string) :=
  match content_types with
  | [] => ret generated_files
  | content_type :: rest =>
      let* (key, p) := generate_one transcription_text output_dir content_type in
      generate_loop transcription_text output_dir rest (<[key := p]> generated_files)
  end.

(** Returns the dict from content type to file path. *)
Definition generate_content (transcription_text : string)
    (content_types : list ContentType) (output_dir : string) : M (gmap string string) :=
  mkdir output_dir ;;
  generate_loop transcription_text output_dir content_types ∅.

End WithLibs.
End ContentGen.

(* ================================================================= *)
(** ** backend/app/api/routes.py *)

Module Routes.
Import Models.

(** One entry of the [jobs] dict. *)
Record Job : Type := mkJob {
  status : JobStatus;
  total_images : Z;
  processed_images : Z;
  results : option (list PyDict);
  compiled_text : option string;
  message : string
}.

Record UploadFile : Type := mkUpload {
  filename : string;
  content : string
}.

(** The process: the [jobs] dict, the world, the queued background tasks
    [(job_id, image_dir)], and the successive values of [jobs], one after
    each assignment into it (what a status poll can observe). *)
Record Server : Type := mkServer {
  jobs : gmap string Job;
  world : World;
  tasks : list (string * string);
  history : list (gmap string Job)
}.

Definition R (A : Type) : Type := St Server A.

(** Run world-only code inside the server. *)
Definition zoom {A} (m : M A) : R A :=
  λ s, let '(r, w) := m (world s) in
       (r, mkServer (jobs s) w (tasks s) (history s)).

(** [jobs[job_id][field] = value], as a record update [f]. *)
Definition assign (job_id : string) (f : Job → Job) : R unit :=
  λ s, match jobs s !! job_id with
       | Some j =>
           let js := <[job_id := f j]> (jobs s) in
           (Ok tt, mkServer js (world s) (tasks s) (history s ++ [js]))
       | None => (Raise (KeyError job_id), s)
       end.

(** [jobs[job_id] = job] *)
Definition register (job_id : string) (job : Job) : R unit :=
  λ s, let js := <[job_id := job]> (jobs s) in
       (Ok tt, mkServer js (world s) (tasks s) (history s ++ [js])).

(** [background_tasks.add_task(process_transcription_job, job_id, job_dir)] *)
Definition add_task (job_id job_dir : string) : R unit :=
  λ s, (Ok tt, mkServer (jobs s) (world s) (tasks s ++ [(job_id, job_dir)]) (history s)).

Definition set_status (v : JobStatus) (j : Job) : Job :=
  mkJob v (total_images j) (processed_images j) (results j) (compiled_text j) (message j).
Definition set_processed_images (v : Z) (j : Job) : Job :=
  mkJob (status j) (total_images j) v (results j) (compiled_text j) (message j).
Definition set_results (v : list PyDict) (j : Job) : Job :=
  mkJob (status j) (total_images j) (processed_images j) (Some v) (compiled_text j) (message j).
Definition set_compiled_text (v : string) (j : Job) : Job :=
  mkJob (status j) (total_images j) (processed_images j) (results j) (Some v) (message j).
Definition set_message (v : string) (j : Job) : Job :=
  mkJob (status j) (total_images j) (processed_images j) (results j) (compiled_text j) v.

Section WithLibs.
Context {libs : Libs} {service : Anthropic} {floats : FloatModel}.
Variable settings : Config.Settings.

(** Background task to process transcription. *)
Definition process_transcription_job (job_id image_dir : string) : R unit :=
  try_except
    (assign job_id (set_status PROCESSING) ;;
     assign job_id (set_message "Processing images...") ;;
     let* service := zoom (Service.init settings job_id) in
     let* (results, compiled_text) :=
       zoom (Service.process_images service image_dir "transcription") in
     assign job_id (set_status COMPLETED) ;;
     assign job_id (set_results results) ;;
     assign job_id (set_compiled_text compiled_text) ;;
     assign job_id (set_processed_images (Z.of_nat (length results))) ;;
     assign job_id (set_message "Transcription completed successfully"))
    (λ e,
     assign job_id (set_status FAILED) ;;
     assign job_id (set_message ("Error: " +:+ exn_str e))).

(** The first loop of [upload_images]: every file name must carry an allowed
    extension.  The [repr] of the set in the detail is abbreviated. *)
Fixpoint validate_types (files : list UploadFile) : R unit :=
  match files with
  | [] => ret tt
  | file :: rest =>
      let file_ext := PyStr.lower (PyPath.suffix (filename file)) in
      if bool_decide (file_ext ∈ Config.ALLOWED_EXTENSIONS) then validate_types rest
      else raise (HTTPException 400
                    ("Invalid file type: " +:+ file_ext +:+ ". Allowed: {...}"))
  end.

(** The second loop: [open(file_path, "wb")] truncates before the size is
    checked. *)
Fixpoint save_files (job_dir : string) (files : list UploadFile)
    (saved_files : list string) : R (list string) :=
  match files with
  | [] => ret saved_files
  | file :: rest =>
      let file_path := PyPath.joinpath job_dir (filename file) in
      if Config.MAX_UPLOAD_SIZE <? Z.of_nat (String.length (content file)) then
        zoom (write_file file_path "") ;;
        raise (HTTPException 400
                 ("File " +:+ filename file +:+ " exceeds maximum size of 100.0MB"))
      else
        zoom (write_file file_path (content file)) ;;
        save_files job_dir rest (saved_files ++ [filename file])
  end.

(** [POST /upload].  [uuid] is the value of [uuid.uuid4()]; the response is
    [(job_id, message, files_uploaded)]. *)
Definition upload_images (uuid : string) (files : list UploadFile)
    (background_tasks : bool) : R (string * string * Z) :=
  match files with
  | [] => raise (HTTPException 400 "No files provided")
  | _ =>
      validate_types files ;;
      let job_id := uuid in
      let job_dir := PyPath.joinpath (Config.UPLOAD_DIR settings) job_id in
      zoom (mkdir job_dir) ;;
      let* saved_files := save_files job_dir files [] in
      register job_id
        (mkJob PENDING (Z.of_nat (length files)) 0 None None
               "Files uploaded, ready to process") ;;
      (if background_tasks then add_task job_id job_dir else ret tt) ;;
      ret (job_id, "Files uploaded successfully", Z.of_nat (length files))
  end.

(** [POST /transcribe/{job_id}]; the response is [(message, job_id)]. *)
Definition start_transcription (job_id : string) : R (string * string) :=
  λ s,
  match jobs s !! job_id with
  | None => (Raise (HTTPException 404 "Job not found"), s)
  | Some job =>
      if decide (status job ≠ PENDING) then
        (Raise (HTTPException 400 "Job already processed or processing"), s)
      else
        let job_dir := PyPath.joinpath (Config.UPLOAD_DIR settings) job_id in
        if decide (job_dir ∈ dirs (world s)) then
          (add_task job_id job_dir ;; ret ("Transcription started", job_id)) s
        else (Raise (HTTPException 404 "Upload directory not found"), s)
  end.

(** [POST /generate-content]; the response is [(job_id, content_types,
    files, message)]. *)
Definition generate_content (job_id : string) (content_types : list ContentType)
  : R (string * list ContentType * gmap string string * string) :=
  λ s,
  match jobs s !! job_id with
  | None => (Raise (HTTPException 404 "Job not found"), s)
  | Some job =>
      if decide (status job ≠ COMPLETED) then
        (Raise (HTTPException 400 "Transcription must be completed first"), s)
      else
        match compiled_text job with
        | None | Some EmptyString =>
            (Raise (HTTPException 400 "No transcription text available"), s)
        | Some text =>
            let output_dir :=
              PyPath.joinpath (PyPath.joinpath (Config.OUTPUT_DIR settings) job_id)
                              "generated_content" in
            try_except
              (let* generated_files :=
                 zoom (ContentGen.generate_content text content_types output_dir) in
               ret (job_id, content_types, generated_files,
                    "Content generated successfully"))
              (λ e, raise (HTTPException 500
                             ("Content generation failed: " +:+ exn_str e)))
              s
        end
  end.

(** [GET /job/{job_id}/status]; the response is [(job_id, status, progress,
    total_images, processed_images, message)]. *)
Definition get_job_status (job_id : string)
  : R (string * JobStatus * Q * Z * Z * option string) :=
  λ s,
  match jobs s !! job_id with
  | None => (Raise (HTTPException 404 "Job not found"), s)
  | Some job =>
      (let* progress :=
         (if 0 <? total_images job then
            let* done := lift (PyNum.true_div (processed_images job) (total_images job)) in
            ret (PyNum.float_mul done (PyNum.float_of_int 100))
          else ret 0%Q) in
       ret (job_id, status job, progress, total_images job, processed_images job,
            Some (message job))) s
  end.

(** The list comprehension over [job["results"]] that validates every dict. *)
Fixpoint validate_results {models : Pydantic} (results : list PyDict)
  : result (list TranscriptionResult) :=
  match results with
  | [] => Ok []
  | result :: rest =>
      match validate_result result with
      | Raise e => Raise e
      | Ok r =>
          match validate_results rest with
          | Raise e => Raise e
          | Ok l => Ok (r :: l)
          end
      end
  end.

(** [GET /job/{job_id}/results]; the response is [(job_id, status, results,
    compiled_text)]. *)
Definition get_job_results {models : Pydantic} (job_id : string)
  : R (string * JobStatus * list TranscriptionResult * option string) :=
  λ s,
  match jobs s !! job_id with
  | None => (Raise (HTTPException 404 "Job not found"), s)
  | Some job =>
      if decide (status job ≠ COMPLETED) then
        (Raise (HTTPException 400 "Job not completed yet"), s)
      else
        match results job with
        | None => (Raise (TypeError "'NoneType' object is not iterable"), s)
        | Some dicts =>
            match validate_results dicts with
            | Raise e => (Raise e, s)
            | Ok l => (Ok (job_id, status job, l, compiled_text job), s)
            end
        end
  end.

(** [file_path.exists()] *)
Definition path_exists (p : string) (w : World) : bool :=
  bool_decide (is_Some (files w !! p) ∨ p ∈ dirs w).

(** The [if]/[elif] chain of [download_file]. *)
Definition download_path (job_id file_type : string) : option string :=
  let out := PyPath.joinpath (Config.OUTPUT_DIR settings) job_id in
  if String.eqb file_type "transcription" then
    Some (PyPath.joinpath out "transcription.txt")
  else if String.eqb file_type "flashcards" then
    Some (PyPath.joinpath (PyPath.joinpath out "generated_content") "flashcards.json")
  else if String.eqb file_type "infographics" then
    Some (PyPath.joinpath (PyPath.joinpath out "generated_content") "infographic.md")
  else if String.eqb file_type "video_script" then
    Some (PyPath.joinpath (PyPath.joinpath out "generated_content") "video_script.txt")
  else if String.eqb file_type "podcast" then
    Some (PyPath.joinpath (PyPath.joinpath out "generated_content") "podcast_script.txt")
  else None.

(** [GET /download/{job_id}/{file_type}]; the response is the [FileResponse]
    as [(path, filename, media_type)]. *)
Definition download_file (job_id file_type : string) : R (string * string * string) :=
  λ s,
  match jobs s !! job_id with
  | None => (Raise (HTTPException 404 "Job not found"), s)
  | Some _ =>
      match download_path job_id file_type with
      | None => (Raise (HTTPException 400 "Invalid file type"), s)
      | Some file_path =>
          if path_exists file_path (world s) then
            (Ok (file_path, PyPath.name file_path, "application/octet-stream"), s)
          else (Raise (HTTPException 404 "File not found"), s)
      end
  end.

(** The scheduler runs the oldest queued background task, if any. *)
Definition run_next_task : R unit :=
  λ s, match tasks s with
       | [] => (Ok tt, s)
       | (job_id, image_dir) :: rest =>
           process_transcription_job job_id image_dir
             (mkServer (jobs s) (world s) rest (history s))
       end.

End WithLibs.
End Routes.
(* ================================================================= *)
(** ** Reference models of the libraries *)

(** [json.loads] and [json.dump(..., indent=2, ensure_ascii=False)], after
    CPython's [json] package.  A float stands for the numeral that denotes
    it (zero is normalised, the shortest-digits form of [repr] is not
    computed), and an escape above [ÿ] has no character in the 8-bit
    text model and reads as [?]. *)
Module Json.

Definition chr (n : nat) : ascii := ascii_of_nat n.
Definition ch (n : nat) (c : ascii) : bool := (nat_of_ascii c =? n)%nat.

Definition is_ws (c : ascii) : bool := ch 32 c || ch 9 c || ch 10 c || ch 13 c.
Definition is_digit (c : ascii) : bool :=
  ((48 <=? nat_of_ascii c) && (nat_of_ascii c <=? 57))%nat.

Fixpoint skip_ws (s : string) : string :=
  match s with
  | String c r => if is_ws c then skip_ws r else s
  | EmptyString => EmptyString
  end.

Fixpoint take_digits (s : string) : string * string :=
  match s with
  | String c r =>
      if is_digit c then let (ds, rest) := take_digits r in (String c ds, rest)
      else (EmptyString, s)
  | EmptyString => (EmptyString, EmptyString)
  end.

Fixpoint digits_value (ds : string) (acc : Z) : Z :=
  match ds with
  | String c r => digits_value r (10 * acc + Z.of_nat (nat_of_ascii c - 48))
  | EmptyString => acc
  end.

Fixpoint all_zero (ds : string) : bool :=
  match ds with
  | String c r => (ch 48 c || ch 46 c) && all_zero r
  | EmptyString => true
  end.

(** A failure: CPython's message and how much input was left at the
    offending character. *)
Inductive failure : Type := Fail (msg : string) (remaining : nat).

Inductive parsed (A : Type) : Type :=
| Done (a : A) (rest : string)
| Bad (f : failure).
Arguments Done {A} a rest.
Arguments Bad {A} f.

(** [NUMBER_RE]: an optional minus, [0] or digits not starting with [0],
    then optionally a point with digits, then optionally an exponent. *)
Definition scan_number (s : string) : option (PyVal * string) :=
  let (sign, s1) :=
    match s with
    | String c r => if ch 45 c then ("-", r) else (EmptyString, s)
    | EmptyString => (EmptyString, s)
    end in
  let int_part :=
    match s1 with
    | String c r =>
        if ch 48 c then Some ("0", r)
        else if is_digit c then Some (take_digits s1)
        else None
    | EmptyString => None
    end in
  match int_part with
  | None => None
  | Some (ds, rest) =>
      let (frac, rest) :=
        match rest with
        | String c r =>
            if ch 46 c then
              match take_digits r with
              | (EmptyString, _) => (EmptyString, rest)
              | (fs, r') => ("." +:+ fs, r')
              end
            else (EmptyString, rest)
        | EmptyString => (EmptyString, rest)
        end in
      let (exp, rest) :=
        match rest with
        | String c r =>
            if ch 101 c || ch 69 c then
              let (esign, r1) :=
                match r with
                | String d r2 =>
                    if ch 45 d || ch 43 d then (String d EmptyString, r2)
                    else (EmptyString, r)
                | EmptyString => (EmptyString, r)
                end in
              match take_digits r1 with
              | (EmptyString, _) => (EmptyString, rest)
              | (es, r') => (String c esign +:+ es, r')
              end
            else (EmptyString, rest)
        | EmptyString => (EmptyString, rest)
        end in
      match frac, exp with
      | EmptyString, EmptyString =>
          let v := digits_value ds 0 in
          Some (VInt (if String.eqb sign "-" then - v else v), rest)
      | _, _ =>
          if all_zero (ds +:+ frac) then Some (VFloat (sign +:+ "0.0"), rest)
          else Some (VFloat (sign +:+ ds +:+ frac +:+ exp), rest)
      end
  end.

Definition hex_value (c : ascii) : option nat :=
  let n := nat_of_ascii c in
  if is_digit c then Some (n - 48)%nat
  else if ((97 <=? n) && (n <=? 102))%nat then Some (n - 87)%nat
  else if ((65 <=? n) && (n <=? 70))%nat then Some (n - 55)%nat
  else None.

(** The inside of a string literal, after the opening quote; [start] is the
    input left at the opening quote. *)
Fixpoint scan_string (start : nat) (s : string) (acc : string) : parsed string :=
  match s with
  | EmptyString => Bad (Fail "Unterminated string starting at" start)
  | String c r =>
      if ch 34 c then Done acc r
      else if ch 92 c then
        match r with
        | EmptyString => Bad (Fail "Unterminated string starting at" start)
        | String e r' =>
            let simple (x : nat) := scan_string start r' (acc +:+ String (chr x) EmptyString) in
            if ch 34 e then simple 34%nat
            else if ch 92 e then simple 92%nat
            else if ch 47 e then simple 47%nat
            else if ch 98 e then simple 8%nat
            else if ch 102 e then simple 12%nat
            else if ch 110 e then simple 10%nat
            else if ch 114 e then simple 13%nat
            else if ch 116 e then simple 9%nat
            else if ch 117 e then
              match r' with
              | String h1 (String h2 (String h3 (String h4 r''))) =>
                  match hex_value h1, hex_value h2, hex_value h3, hex_value h4 with
                  | Some a, Some b, Some c', Some d =>
                      let cp := (((a * 16 + b) * 16 + c') * 16 + d)%nat in
                      scan_string start r''
                        (acc +:+ String (if (cp <? 256)%nat then chr cp else chr 63) EmptyString)
                  | _, _, _, _ =>
                      Bad (Fail "Invalid \uXXXX escape" (String.length r))
                  end
              | _ => Bad (Fail "Invalid \uXXXX escape" (String.length r))
              end
            else Bad (Fail "Invalid \escape" (String.length s))
        end
      else if (nat_of_ascii c <? 32)%nat then
        Bad (Fail "Invalid control character at" (String.length s))
      else scan_string start r (acc +:+ String c EmptyString)
  end.

(** [d[k] = v] while a dict is built. *)
Fixpoint dict_set (k : string) (v : PyVal) (d : PyDict) : PyDict :=
  match d with
  | [] => [(k, v)]
  | (k', v') :: d' => if String.eqb k k' then (k, v) :: d' else (k', v') :: dict_set k v d'
  end.

Definition starts (pre s : string) : option string :=
  if String.prefix pre s then Some (PyStr.drop (String.length pre) s) else None.

(** [scan_once], with the loops over the members of an object and the
    elements of an array; every call consumes input, so the length of the
    document is enough [fuel]. *)
Fixpoint scan_once (fuel : nat) (s : string) : parsed PyVal :=
  match fuel with
  | O => Bad (Fail "Expecting value" (String.length s))
  | S fuel =>
      match s with
      | EmptyString => Bad (Fail "Expecting value" 0)
      | String c r =>
          if ch 34 c then
            match scan_string (String.length s) r EmptyString with
            | Done str rest => Done (VStr str) rest
            | Bad f => Bad f
            end
          else if ch 123 c then
            match skip_ws r with
            | String c' r' =>
                if ch 125 c' then Done (VDict []) r'
                else scan_members fuel (skip_ws r) []
            | EmptyString => scan_members fuel EmptyString []
            end
          else if ch 91 c then
            match skip_ws r with
            | String c' r' =>
                if ch 93 c' then Done (VList []) r'
                else scan_elements fuel (skip_ws r) []
            | EmptyString => scan_elements fuel EmptyString []
            end
          else
            match starts "null" s, starts "true" s, starts "false" s with
            | Some rest, _, _ => Done VNone rest
            | _, Some rest, _ => Done (VBool true) rest
            | _, _, Some rest => Done (VBool false) rest
            | _, _, _ =>
                match scan_number s with
                | Some (v, rest) => Done v rest
                | None =>
                    match starts "NaN" s, starts "Infinity" s, starts "-Infinity" s with
                    | Some rest, _, _ => Done (VFloat "nan") rest
                    | _, Some rest, _ => Done (VFloat "inf") rest
                    | _, _, Some rest => Done (VFloat "-inf") rest
                    | _, _, _ => Bad (Fail "Expecting value" (String.length s))
                    end
                end
            end
      end
  end
with scan_members (fuel : nat) (s : string) (acc : PyDict) : parsed PyVal :=
  match fuel with
  | O => Bad (Fail "Expecting value" (String.length s))
  | S fuel =>
      match s with
      | String c r =>
          if ch 34 c then
            match scan_string (String.length s) r EmptyString with
            | Bad f => Bad f
            | Done key rest =>
                match skip_ws rest with
                | String c1 r1 =>
                    if ch 58 c1 then
                      match scan_once fuel (skip_ws r1) with
                      | Bad f => Bad f
                      | Done v rest =>
                          let acc := dict_set key v acc in
                          match skip_ws rest with
                          | String c2 r2 =>
                              if ch 125 c2 then Done (VDict acc) r2
                              else if ch 44 c2 then scan_members fuel (skip_ws r2) acc
                              else Bad (Fail "Expecting ',' delimiter"
                                             (String.length (skip_ws rest)))
                          | EmptyString => Bad (Fail "Expecting ',' delimiter" 0)
                          end
                      end
                    else Bad (Fail "Expecting ':' delimiter" (String.length (skip_ws rest)))
                | EmptyString => Bad (Fail "Expecting ':' delimiter" 0)
                end
            end
          else Bad (Fail "Expecting property name enclosed in double quotes"
                         (String.length s))
      | EmptyString =>
          Bad (Fail "Expecting property name enclosed in double quotes" 0)
      end
  end
with scan_elements (fuel : nat) (s : string) (acc : list PyVal) : parsed PyVal :=
  match fuel with
  | O => Bad (Fail "Expecting value" (String.length s))
  | S fuel =>
      match scan_once fuel s with
      | Bad f => Bad f
      | Done v rest =>
          let acc := acc ++ [v] in
          match skip_ws rest with
          | String c r =>
              if ch 93 c then Done (VList acc) r
              else if ch 44 c then scan_elements fuel (skip_ws r) acc
              else Bad (Fail "Expecting ',' delimiter" (String.length (skip_ws rest)))
          | EmptyString => Bad (Fail "Expecting ',' delimiter" 0)
          end
      end
  end.

Fixpoint count_newlines (s : string) : nat :=
  match s with
  | String c r => ((if ch 10 c then 1 else 0) + count_newlines r)%nat
  | EmptyString => O
  end.

(** [JSONDecodeError(msg, doc, pos)] as [str] shows it. *)
Definition JSONDecodeError (msg doc : string) (pos : nat) : exn :=
  let before := PyStr.take pos doc in
  let lineno := S (count_newlines before) in
  let colno :=
    match PyStr.rsplit (chr 10) before with
    | Some (_, tail) => S (String.length tail)
    | None => S pos
    end in
  Exception "JSONDecodeError"
    (msg +:+ ": line " +:+ pretty lineno +:+ " column " +:+ pretty colno
     +:+ " (char " +:+ pretty pos +:+ ")").

Definition loads (doc : string) : result PyVal :=
  let at_left (remaining : nat) := (String.length doc - remaining)%nat in
  match scan_once (S (String.length doc)) (skip_ws doc) with
  | Bad (Fail msg remaining) => Raise (JSONDecodeError msg doc (at_left remaining))
  | Done v rest =>
      match skip_ws rest with
      | EmptyString => Ok v
      | rest' => Raise (JSONDecodeError "Extra data" doc (at_left (String.length rest')))
      end
  end.

Definition hex_digit (n : nat) : ascii :=
  if (n <? 10)%nat then chr (48 + n) else chr (87 + n).

(** [encode_basestring]: what [ensure_ascii=False] escapes. *)
Fixpoint escape (s : string) : string :=
  match s with
  | EmptyString => EmptyString
  | String c r =>
      let n := nat_of_ascii c in
      (if ch 34 c then "\" +:+ String (chr 34) EmptyString
       else if ch 92 c then "\\"
       else if ch 10 c then "\n"
       else if ch 13 c then "\r"
       else if ch 9 c then "\t"
       else if ch 8 c then "\b"
       else if ch 12 c then "\f"
       else if (n <? 32)%nat then
         "\u00" +:+ String (hex_digit (n / 16)) (String (hex_digit (n mod 16)) EmptyString)
       else String c EmptyString) +:+ escape r
  end.

Definition quoted (s : string) : string :=
  String (chr 34) EmptyString +:+ escape s +:+ String (chr 34) EmptyString.

Definition float_text (r : string) : string :=
  if String.eqb r "nan" then "NaN"
  else if String.eqb r "inf" then "Infinity"
  else if String.eqb r "-inf" then "-Infinity"
  else r.

(** One value at nesting [level], with [indent=2]. *)
Fixpoint dumps_at (level : nat) (v : PyVal) : string :=
  let pad (n : nat) := PyStr.nl +:+ PyStr.repeat " " (2 * n) in
  match v with
  | VNone => "null"
  | VBool true => "true"
  | VBool false => "false"
  | VInt z => pretty z
  | VFloat r => float_text r
  | VStr s => quoted s
  | VList [] => "[]"
  | VList l =>
      "[" +:+ pad (S level)
      +:+ PyStr.join ("," +:+ pad (S level)) (map (dumps_at (S level)) l)
      +:+ pad level +:+ "]"
  | VDict [] => "{}"
  | VDict kv =>
      "{" +:+ pad (S level)
      +:+ PyStr.join ("," +:+ pad (S level))
            (map (λ p : string * PyVal, quoted p.1 +:+ ": " +:+ dumps_at (S level) p.2) kv)
      +:+ pad level +:+ "}"
  end.

Definition dumps (v : PyVal) : string := dumps_at 0 v.

End Json.

(** [base64.b64encode] *)
Module Base64.

Definition digit (n : nat) : ascii :=
  if (n <? 26)%nat then ascii_of_nat (65 + n)
  else if (n <? 52)%nat then ascii_of_nat (71 + n)
  else if (n <? 62)%nat then ascii_of_nat (n - 4)
  else if (n =? 62)%nat then ascii_of_nat 43
  else ascii_of_nat 47.

Fixpoint b64encode (s : string) : string :=
  match s with
  | EmptyString => EmptyString
  | String a EmptyString =>
      let x := nat_of_ascii a in
      String (digit (x / 4)) (String (digit (x mod 4 * 16)) "==")
  | String a (String b EmptyString) =>
      let x := nat_of_ascii a in
      let y := nat_of_ascii b in
      String (digit (x / 4))
        (String (digit (x mod 4 * 16 + y / 16)) (String (digit (y mod 16 * 4)) "="))
  | String a (String b (String c rest)) =>
      let x := nat_of_ascii a in
      let y := nat_of_ascii b in
      let z := nat_of_ascii c in
      String (digit (x / 4))
        (String (digit (x mod 4 * 16 + y / 16))
           (String (digit (y mod 16 * 4 + z / 64))
              (String (digit (z mod 64)) (b64encode rest))))
  end.

End Base64.

(** [repr] of the values [json.loads] produces. *)
Module Repr.

Fixpoint repr (v : PyVal) : string :=
  match v with
  | VNone => "None"
  | VBool true => "True"
  | VBool false => "False"
  | VInt z => pretty z
  | VFloat r => r
  | VStr s => PyStr.repr s
  | VList l => "[" +:+ PyStr.join ", " (map repr l) +:+ "]"
  | VDict kv =>
      "{" +:+ PyStr.join ", "
                (map (λ p : string * PyVal, PyStr.repr p.1 +:+ ": " +:+ repr p.2) kv)
      +:+ "}"
  end.

End Repr.

(** A stand-in for Pillow with a plain raster format: a file reads
    [P6 <width> <height> <pixels>], a save stores the pixels after a marker,
    nothing carries EXIF data, and resampling keeps the leading pixels. *)
Module ToyPillow.

Definition number (s : string) : option (Z * string) :=
  match Json.take_digits s with
  | (EmptyString, _) => None
  | (ds, String c rest) =>
      if Json.ch 32 c then Some (Json.digits_value ds 0, rest) else None
  | (_, EmptyString) => None
  end.

Definition decode (bytes : string) : result Image :=
  let unidentified := Exception "UnidentifiedImageError" "cannot identify image file" in
  match Json.starts "P6 " bytes with
  | None => Raise unidentified
  | Some rest =>
      match number rest with
      | None => Raise unidentified
      | Some (w, rest) =>
          match number rest with
          | None => Raise unidentified
          | Some (h, pixels) => Ok (mkImage "RGB" w h pixels)
          end
      end
  end.

Definition save_jpeg (img : Image) (quality : Z) : result string :=
  Ok ("JFIF" +:+ raster img).

(** Pillow refuses a target size with a side below one pixel. *)
Definition resample (img : Image) (w h : Z) : result string :=
  if (w <? 1) || (h <? 1)
  then Raise (Exception "ValueError" "height and width must be > 0")
  else Ok (PyStr.take (Z.to_nat (w * h)) (raster img)).

End ToyPillow.

(** The libraries used to run the pipeline on concrete inputs. *)
#[global] Instance reference_libs : Libs := {|
  pil_decode := ToyPillow.decode;
  pil_exif_transpose := λ img, Ok img;
  pil_convert := λ img m, mkImage m (width img) (height img) (raster img);
  pil_save_jpeg := ToyPillow.save_jpeg;
  pil_resample := ToyPillow.resample;
  b64encode := Base64.b64encode;
  json_loads := Json.loads;
  json_dumps := Json.dumps;
  py_repr := Repr.repr
|}.

(** A scripted inference service: the reply to the [n]-th request is the
    [n]-th entry of the script; past its end the client raises. *)
Definition scripted (script : list (result string)) : Anthropic := {|
  messages_create := λ n _,
    match script !! n with
    | Some r => r
    | None => Raise (Exception "APIConnectionError" "Connection error.")
    end
|}.

(** Python's [float] is IEEE 754 binary64: every arithmetic result is the
    exact one rounded to 53 significant bits, ties to even.  The exponent
    is not bounded above here; the quantities of the program stay far
    below the overflow threshold. *)
Module Binary64.

Definition pow2 (e : Z) : Q := (2 ^ e)%Q.

(** Nearest integer, ties to even. *)
Definition rne (x : Q) : Z :=
  let f := Qfloor x in
  match (x - inject_Z f ?= 1 # 2)%Q with
  | Lt => f
  | Eq => if Z.even f then f else f + 1
  | Gt => f + 1
  end.

(** [floor (log2 x)] for a positive [x]. *)
Definition floor_log2 (x : Q) : Z :=
  let e := Z.log2 (Qnum x) - Z.log2 (Zpos (Qden x)) in
  if Qle_bool (pow2 e) x then e else e - 1.

(** A positive rational, rounded to 53 significant bits (to a multiple of
    2^-1074 below 2^-1022). *)
Definition round_pos (x : Q) : Q :=
  let e := Z.max (floor_log2 x) (-1022) in
  (inject_Z (rne (x / pow2 (e - 52))) * pow2 (e - 52))%Q.

Definition rnd64 (x : Q) : Q :=
  match (x ?= 0)%Q with
  | Eq => 0%Q
  | Gt => round_pos x
  | Lt => (- round_pos (- x))%Q
  end.


Lemma pow2_pos (e : Z) : (0 < pow2 e)%Q.
Proof. apply Qpower_0_lt. reflexivity. Qed.

Lemma pow2_plus (a b : Z) : (pow2 (a + b) == pow2 a * pow2 b)%Q.
Proof. apply Qpower_plus. discriminate. Qed.

Lemma pow2_le (a b : Z) : a <= b → (pow2 a <= pow2 b)%Q.
Proof. intros H. apply Qpower_le_compat_l; [exact H|discriminate]. Qed.

Lemma pow2_Z (n : Z) : 0 <= n → (pow2 n == inject_Z (2 ^ n))%Q.
Proof. intros H. unfold pow2. now rewrite Zpower_Qpower. Qed.

(** *** Rounding to the nearest integer *)

Lemma rne_bounds (x : Q) :
  (x - (1 # 2) <= inject_Z (rne x))%Q ∧ (inject_Z (rne x) <= x + (1 # 2))%Q.
Proof.
  unfold rne. pose proof (Qfloor_le x) as Hlo. pose proof (Qlt_floor x) as Hhi.
  rewrite inject_Z_plus in Hhi. change (inject_Z 1) with 1%Q in Hhi.
  destruct (Qcompare_spec (x - inject_Z (Qfloor x)) (1 # 2)) as [He|Hl|Hg].
  - destruct (Z.even (Qfloor x)); rewrite ?inject_Z_plus;
      change (inject_Z 1) with 1%Q; split; lra.
  - split; lra.
  - rewrite inject_Z_plus. change (inject_Z 1) with 1%Q. split; lra.
Qed.

Lemma rne_floor (x : Q) : Qfloor x <= rne x <= Qfloor x + 1.
Proof.
  unfold rne. destruct (x - inject_Z (Qfloor x) ?= 1 # 2)%Q;
    [destruct (Z.even (Qfloor x))| |]; lia.
Qed.

Lemma rne_Z (n : Z) : rne (inject_Z n) = n.
Proof.
  unfold rne. rewrite Qfloor_Z.
  destruct (Qcompare_spec (inject_Z n - inject_Z n) (1 # 2)) as [He|Hl|Hg];
    [lra | reflexivity | lra].
Qed.

#[global] Instance rne_proper : Proper (Qeq ==> eq) rne.
Proof.
  intros x y Hxy. unfold rne. rewrite (Qfloor_comp x y Hxy).
  assert (Hc : (x - inject_Z (Qfloor y) ?= 1 # 2)%Q = (y - inject_Z (Qfloor y) ?= 1 # 2)%Q).
  { apply Qcompare_comp; [|reflexivity]. now rewrite Hxy. }
  now rewrite Hc.
Qed.

Lemma rne_mono (x y : Q) : (x <= y)%Q → rne x <= rne y.
Proof.
  intros Hxy. pose proof (Qfloor_resp_le x y Hxy) as Hf.
  destruct (Z.eq_dec (Qfloor x) (Qfloor y)) as [Heq|Hne].
  - unfold rne. rewrite <- Heq.
    destruct (Qcompare_spec (x - inject_Z (Qfloor x)) (1 # 2)) as [He|Hl|Hg];
      destruct (Qcompare_spec (y - inject_Z (Qfloor x)) (1 # 2)) as [He'|Hl'|Hg'];
      try lra; try lia; destruct (Z.even (Qfloor x)); lia.
  - pose proof (rne_floor x). pose proof (rne_floor y). lia.
Qed.


(** *** Powers of two *)

Lemma pow2_lt_inv (a b : Z) : (pow2 a < pow2 b)%Q → a < b.
Proof.
  intros H. destruct (Z_lt_le_dec a b) as [Hl|Hg]; [exact Hl|].
  apply pow2_le in Hg. lra.
Qed.

Lemma pow2_0 : (pow2 0 == 1)%Q.
Proof. reflexivity. Qed.

Lemma pow2_inv (c : Z) : (pow2 c * pow2 (- c) == 1)%Q.
Proof. rewrite <- pow2_plus. now replace (c + - c) with 0 by lia. Qed.

Lemma pow2_div (x : Q) (c : Z) : (x / pow2 c == x * pow2 (- c))%Q.
Proof.
  pose proof (pow2_pos c) as Hc. pose proof (pow2_inv c) as Hi.
  unfold Qdiv. apply (Qmult_inj_r _ _ (pow2 c)); [lra|].
  rewrite <- !Qmult_assoc. rewrite (Qmult_comm (/ pow2 c)), Qmult_inv_r by lra.
  rewrite (Qmult_comm (pow2 (- c))), Hi. reflexivity.
Qed.

Lemma pow2_succ (c : Z) : (pow2 (c + 1) == 2 * pow2 c)%Q.
Proof. rewrite pow2_plus. change (pow2 1) with 2%Q. ring. Qed.

(** *** The binade of a positive rational *)

Lemma floor_log2_spec (x : Q) :
  (0 < x)%Q → (pow2 (floor_log2 x) <= x)%Q ∧ (x < pow2 (floor_log2 x + 1))%Q.
Proof.
  intros Hx. destruct x as [n d]. unfold floor_log2. cbn [Qnum Qden].
  assert (Hn : 0 < n) by (unfold Qlt in Hx; cbn in Hx; lia).
  pose proof (Z.log2_spec n Hn) as [Hn1 Hn2].
  pose proof (Z.log2_spec (Zpos d) eq_refl) as [Hd1 Hd2].
  pose proof (Z.log2_nonneg n) as Ha. pose proof (Z.log2_nonneg (Zpos d)) as Hb.
  set (a := Z.log2 n) in *. set (b := Z.log2 (Zpos d)) in *.
  assert (Hq : (n # d == inject_Z n / inject_Z (Zpos d))%Q) by apply Qmake_Qdiv.
  assert (Hdpos : (0 < inject_Z (Zpos d))%Q) by (now rewrite <- (Zlt_Qlt 0)).
  assert (Hlow : (pow2 (a - b - 1) < n # d)%Q).
  { rewrite Hq. apply Qlt_shift_div_l; [exact Hdpos|].
    replace (a - b - 1) with (a + - (b + 1)) by lia. rewrite pow2_plus.
    pose proof (pow2_inv (b + 1)) as Hi. pose proof (pow2_pos (- (b + 1))) as Hp.
    rewrite (pow2_Z (b + 1)) in Hi by lia. rewrite (pow2_Z a) by lia.
    assert (H1 : (inject_Z (Zpos d) < inject_Z (2 ^ (b + 1)))%Q)
      by (rewrite <- Zlt_Qlt; replace (b + 1) with (Z.succ b) by lia; exact Hd2).
    assert (H2 : (inject_Z (2 ^ a) <= inject_Z n)%Q) by (now rewrite <- Zle_Qle).
    assert (H0 : (0 < inject_Z (2 ^ a))%Q)
      by (rewrite <- (Zlt_Qlt 0); apply Z.pow_pos_nonneg; lia).
    assert (H3 : (pow2 (- (b + 1)) * inject_Z (Zpos d) < 1)%Q) by nra.
    rewrite <- Qmult_assoc. nra. }
  assert (Hupp : (n # d < pow2 (a - b + 1))%Q).
  { rewrite Hq. apply Qlt_shift_div_r; [exact Hdpos|].
    replace (a - b + 1) with (a + 1 + - b) by lia. rewrite pow2_plus.
    pose proof (pow2_inv b) as Hi. pose proof (pow2_pos (- b)) as Hp.
    rewrite (pow2_Z b) in Hi by lia. rewrite (pow2_Z (a + 1)) by lia.
    assert (H1 : (inject_Z (2 ^ b) <= inject_Z (Zpos d))%Q) by (now rewrite <- Zle_Qle).
    assert (H2 : (inject_Z n < inject_Z (2 ^ (a + 1)))%Q)
      by (rewrite <- Zlt_Qlt; replace (a + 1) with (Z.succ a) by lia; exact Hn2).
    assert (H0 : (0 < inject_Z n)%Q) by (now rewrite <- (Zlt_Qlt 0)).
    assert (H3 : (1 <= pow2 (- b) * inject_Z (Zpos d))%Q) by nra.
    rewrite <- Qmult_assoc. nra. }
  destruct (Qle_bool (pow2 (a - b)) (n # d)) eqn:Hle.
  - apply Qle_bool_iff in Hle. split; [exact Hle|exact Hupp].
  - assert (Hlt : (n # d < pow2 (a - b))%Q).
    { apply Qnot_le_lt. intros Hc. apply Qle_bool_iff in Hc. congruence. }
    split; [lra|]. now replace (a - b - 1 + 1) with (a - b) by lia.
Qed.

Lemma floor_log2_unique (x : Q) (e : Z) :
  (pow2 e <= x)%Q → (x < pow2 (e + 1))%Q → floor_log2 x = e.
Proof.
  intros H1 H2. pose proof (pow2_pos e) as Hp.
  destruct (floor_log2_spec x) as [H3 H4]; [lra|].
  assert (e < floor_log2 x + 1) by (apply pow2_lt_inv; lra).
  assert (floor_log2 x < e + 1) by (apply pow2_lt_inv; lra).
  lia.
Qed.

Lemma floor_log2_mono (x y : Q) :
  (0 < x)%Q → (x <= y)%Q → floor_log2 x <= floor_log2 y.
Proof.
  intros Hx Hxy. destruct (floor_log2_spec x Hx) as [H1 _].
  destruct (floor_log2_spec y) as [_ H2]; [lra|].
  assert (floor_log2 x < floor_log2 y + 1) by (apply pow2_lt_inv; lra). lia.
Qed.

(** *** Rounding a positive rational *)

Definition exponent (x : Q) : Z := Z.max (floor_log2 x) (-1022).

Lemma round_pos_unfold (x : Q) :
  (round_pos x ==
   inject_Z (rne (x * pow2 (52 - exponent x))) * pow2 (exponent x - 52))%Q.
Proof.
  unfold round_pos. fold (exponent x).
  rewrite (pow2_div x (exponent x - 52)).
  now replace (- (exponent x - 52)) with (52 - exponent x) by lia.
Qed.

Lemma scale_back (x : Q) (e : Z) : (x * pow2 (52 - e) * pow2 (e - 52) == x)%Q.
Proof.
  rewrite <- Qmult_assoc, <- pow2_plus.
  replace (52 - e + (e - 52)) with 0 by lia. rewrite pow2_0. ring.
Qed.

Lemma round_pos_nonneg (x : Q) : (0 < x)%Q → (0 <= round_pos x)%Q.
Proof.
  intros Hx. rewrite round_pos_unfold.
  pose proof (pow2_pos (52 - exponent x)) as Hs.
  pose proof (pow2_pos (exponent x - 52)) as Hu.
  assert (H0 : 0 <= rne (x * pow2 (52 - exponent x))).
  { rewrite <- (rne_Z 0). apply rne_mono. change (inject_Z 0) with 0%Q. nra. }
  rewrite Zle_Qle in H0. change (inject_Z 0) with 0%Q in H0. nra.
Qed.

(** A value whose scaled significand is an integer is left alone. *)
Lemma round_pos_exact (x : Q) (n : Z) :
  (x * pow2 (52 - exponent x) == inject_Z n)%Q → (round_pos x == x)%Q.
Proof.
  intros Hn. rewrite round_pos_unfold, Hn, rne_Z, <- Hn. apply scale_back.
Qed.

Lemma round_pos_error (x : Q) :
  (pow2 (-1022) <= x)%Q → (round_pos x <= x * (1 + pow2 (-53)))%Q.
Proof.
  intros Hx. pose proof (pow2_pos (-1022)) as H0.
  destruct (floor_log2_spec x) as [H1 H2]; [lra|].
  assert (He : exponent x = floor_log2 x).
  { unfold exponent. apply Z.max_l.
    assert (-1022 < floor_log2 x + 1) by (apply pow2_lt_inv; lra). lia. }
  rewrite round_pos_unfold, He. set (e := floor_log2 x) in *.
  destruct (rne_bounds (x * pow2 (52 - e))) as [_ Hr].
  pose proof (pow2_pos (e - 52)) as Hu.
  pose proof (scale_back x e) as Hb.
  assert (Hhalf : (pow2 (e - 52) * (1 # 2) == pow2 e * pow2 (-53))%Q).
  { replace (e - 52) with (e + -53 + 1) by lia.
    rewrite pow2_succ, pow2_plus. ring. }
  pose proof (pow2_pos (-53)) as H53.
  assert (Hm : (inject_Z (rne (x * pow2 (52 - e))) * pow2 (e - 52)
                <= (x * pow2 (52 - e) + (1 # 2)) * pow2 (e - 52))%Q).
  { apply Qmult_le_compat_r; [exact Hr|lra]. }
  assert (Hx53 : (pow2 e * pow2 (-53) <= x * pow2 (-53))%Q).
  { apply Qmult_le_compat_r; [exact H1|lra]. }
  lra.
Qed.

Lemma round_pos_mono (x y : Q) :
  (0 < x)%Q → (x <= y)%Q → (round_pos x <= round_pos y)%Q.
Proof.
  intros Hx Hxy. assert (Hy : (0 < y)%Q) by lra.
  pose proof (floor_log2_mono x y Hx Hxy) as Hfl.
  rewrite !round_pos_unfold.
  destruct (Z.eq_dec (exponent x) (exponent y)) as [Heq|Hne].
  - rewrite Heq. pose proof (pow2_pos (exponent y - 52)) as Hu.
    pose proof (pow2_pos (52 - exponent y)) as Hs.
    apply Qmult_le_compat_r; [|lra]. rewrite <- Zle_Qle. apply rne_mono.
    apply Qmult_le_compat_r; [exact Hxy|lra].
  - assert (Hlt : exponent x < exponent y) by (unfold exponent in *; lia).
    assert (Hey : exponent y = floor_log2 y) by (unfold exponent in *; lia).
    assert (Hex : floor_log2 x <= exponent x) by (unfold exponent; lia).
    destruct (floor_log2_spec x Hx) as [_ Hx2].
    destruct (floor_log2_spec y Hy) as [Hy1 _]. rewrite <- Hey in Hy1.
    set (ex := exponent x) in *. set (ey := exponent y) in *.
    apply Qle_trans with (pow2 (ex + 1)).
    + assert (Hxs : (x * pow2 (52 - ex) <= inject_Z (2 ^ 53))%Q).
      { rewrite <- (pow2_Z 53) by lia.
        assert (Hp : (pow2 53 == pow2 (ex + 1) * pow2 (52 - ex))%Q)
          by (rewrite <- pow2_plus; now replace (ex + 1 + (52 - ex)) with 53 by lia).
        rewrite Hp.
        pose proof (pow2_pos (52 - ex)) as Hs.
        apply Qmult_le_compat_r; [|lra].
        apply Qle_trans with (pow2 (floor_log2 x + 1)); [lra|apply pow2_le; lia]. }
      apply rne_mono in Hxs. rewrite rne_Z in Hxs. rewrite Zle_Qle in Hxs.
      rewrite <- (pow2_Z 53) in Hxs by lia.
      pose proof (pow2_pos (ex - 52)) as Hu.
      assert (Hp : (pow2 (ex + 1) == pow2 53 * pow2 (ex - 52))%Q)
        by (rewrite <- pow2_plus; now replace (53 + (ex - 52)) with (ex + 1) by lia).
      rewrite Hp.
      apply Qmult_le_compat_r; [exact Hxs|lra].
    + apply Qle_trans with (pow2 ey); [apply pow2_le; lia|].
      assert (Hys : (inject_Z (2 ^ 52) <= y * pow2 (52 - ey))%Q).
      { rewrite <- (pow2_Z 52) by lia.
        assert (Hp : (pow2 52 == pow2 ey * pow2 (52 - ey))%Q)
          by (rewrite <- pow2_plus; now replace (ey + (52 - ey)) with 52 by lia).
        rewrite Hp.
        pose proof (pow2_pos (52 - ey)) as Hs.
        apply Qmult_le_compat_r; [exact Hy1|lra]. }
      apply rne_mono in Hys. rewrite rne_Z in Hys. rewrite Zle_Qle in Hys.
      rewrite <- (pow2_Z 52) in Hys by lia.
      pose proof (pow2_pos (ey - 52)) as Hu.
      assert (Hp : (pow2 ey == pow2 52 * pow2 (ey - 52))%Q)
        by (rewrite <- pow2_plus; now replace (52 + (ey - 52)) with ey by lia).
      rewrite Hp.
      apply Qmult_le_compat_r; [exact Hys|lra].
Qed.

Lemma pow2_lt (a b : Z) : a < b → (pow2 a < pow2 b)%Q.
Proof.
  intros H. pose proof (pow2_le (a + 1) b ltac:(lia)) as Hle.
  rewrite pow2_succ in Hle. pose proof (pow2_pos a). lra.
Qed.

Lemma pow2_le_inv (a b : Z) : (pow2 a <= pow2 b)%Q → a <= b.
Proof.
  intros H. destruct (Z_le_gt_dec a b) as [Hl|Hg]; [exact Hl|].
  pose proof (pow2_lt b a ltac:(lia)). lra.
Qed.

(** A dyadic rational with at most 53 significant bits and a small
    exponent is a binary64 number. *)
Lemma round_pos_dyadic (x : Q) (m j : Z) :
  0 < m <= 2 ^ 53 → 0 <= j <= 64 →
  (x == inject_Z m * pow2 (- j))%Q → (round_pos x == x)%Q.
Proof.
  intros [Hm1 Hm2] Hj Hx.
  pose proof (pow2_pos (- j)) as Hpj.
  assert (Hm1q : (1 <= inject_Z m)%Q)
    by (change 1%Q with (inject_Z 1); rewrite <- Zle_Qle; lia).
  assert (Hm2q : (inject_Z m <= pow2 53)%Q)
    by (rewrite (pow2_Z 53) by lia; now rewrite <- Zle_Qle).
  assert (Hxlo : (pow2 (- j) <= x)%Q) by (rewrite Hx; nra).
  assert (Hxhi : (x <= pow2 (53 - j))%Q).
  { rewrite Hx. replace (53 - j) with (53 + - j) by lia. rewrite pow2_plus.
    apply Qmult_le_compat_r; [exact Hm2q|lra]. }
  destruct (floor_log2_spec x) as [H1 H2]; [lra|].
  set (e := floor_log2 x) in *.
  assert (He1 : - j <= e).
  { assert (- j < e + 1) by (apply pow2_lt_inv; lra). lia. }
  assert (He2 : e <= 53 - j) by (apply pow2_le_inv; lra).
  assert (He : exponent x = e) by (unfold exponent; fold e; lia).
  destruct (Z.eq_dec e (53 - j)) as [Htop|Hlow].
  - apply (round_pos_exact x (2 ^ 52)). rewrite He.
    assert (Hxe : (x == pow2 (53 - j))%Q) by (rewrite Htop in H1; lra).
    rewrite Hxe, <- pow2_plus, Htop, <- pow2_Z by lia.
    now replace (53 - j + (52 - (53 - j))) with 52 by lia.
  - apply (round_pos_exact x (m * 2 ^ (52 - e - j))). rewrite He.
    rewrite inject_Z_mult, <- pow2_Z by lia. rewrite Hx.
    rewrite <- Qmult_assoc, <- pow2_plus.
    now replace (- j + (52 - e)) with (52 - e - j) by lia.
Qed.

(** *** Both signs *)

Lemma rnd64_pos (x : Q) : (0 < x)%Q → rnd64 x = round_pos x.
Proof.
  intros Hx. unfold rnd64.
  destruct (Qcompare_spec x 0) as [He|Hl|Hg]; [lra|lra|reflexivity].
Qed.

Lemma rnd64_neg (x : Q) : (x < 0)%Q → rnd64 x = (- round_pos (- x))%Q.
Proof.
  intros Hx. unfold rnd64.
  destruct (Qcompare_spec x 0) as [He|Hl|Hg]; [lra|reflexivity|lra].
Qed.

Lemma rnd64_zero (x : Q) : (x == 0)%Q → rnd64 x = 0%Q.
Proof.
  intros Hx. unfold rnd64.
  destruct (Qcompare_spec x 0) as [He|Hl|Hg]; [reflexivity|lra|lra].
Qed.

Lemma rnd64_mono (x y : Q) : (x <= y)%Q → (rnd64 x <= rnd64 y)%Q.
Proof.
  intros Hxy.
  destruct (Q_dec x 0) as [[Hx|Hx]|Hx]; destruct (Q_dec y 0) as [[Hy|Hy]|Hy];
    rewrite ?(rnd64_neg x), ?(rnd64_pos x), ?(rnd64_zero x),
            ?(rnd64_neg y), ?(rnd64_pos y), ?(rnd64_zero y) by assumption;
    try lra.
  - pose proof (round_pos_mono (- y) (- x) ltac:(lra) ltac:(lra)). lra.
  - pose proof (round_pos_nonneg (- x) ltac:(lra)).
    pose proof (round_pos_nonneg y ltac:(lra)). lra.
  - pose proof (round_pos_nonneg (- x) ltac:(lra)). lra.
  - now apply round_pos_mono.
  - pose proof (round_pos_nonneg y ltac:(lra)). lra.
Qed.

Lemma rnd64_dyadic (x : Q) (m j : Z) :
  Z.abs m <= 2 ^ 53 → 0 <= j <= 64 →
  (x == inject_Z m * pow2 (- j))%Q → (rnd64 x == x)%Q.
Proof.
  intros Hm Hj Hx. pose proof (pow2_pos (- j)) as Hpj.
  destruct (Z.lt_trichotomy m 0) as [Hneg|[Hz|Hpos]].
  - assert (Hmq : (inject_Z m < 0)%Q)
      by (change 0%Q with (inject_Z 0); now rewrite <- Zlt_Qlt).
    rewrite rnd64_neg by (rewrite Hx; nra).
    rewrite (round_pos_dyadic (- x) (- m) j); [ring|lia|lia|].
    rewrite Hx, inject_Z_opp. ring.
  - subst m. rewrite rnd64_zero; rewrite Hx; change (inject_Z 0) with 0%Q; ring.
  - assert (Hmq : (0 < inject_Z m)%Q)
      by (change 0%Q with (inject_Z 0); now rewrite <- Zlt_Qlt).
    rewrite rnd64_pos by (rewrite Hx; nra).
    apply (round_pos_dyadic x m j); [lia|lia|exact Hx].
Qed.

Lemma rnd64_error (x : Q) :
  (pow2 (-1022) <= x)%Q → (rnd64 x <= x * (1 + pow2 (-53)))%Q.
Proof.
  intros Hx. pose proof (pow2_pos (-1022)).
  rewrite rnd64_pos by lra. now apply round_pos_error.
Qed.

End Binary64.

Lemma binary64_dyadic (m : Z) (k : nat) :
  Z.abs m <= 2 ^ 53 → (k <= 64)%nat →
  (Binary64.rnd64 (m # Pos.pow 2 (Pos.of_nat k)) == m # Pos.pow 2 (Pos.of_nat k))%Q.
Proof.
  intros Hm Hk. apply (Binary64.rnd64_dyadic _ m (Zpos (Pos.of_nat k))); [exact Hm|lia|].
  rewrite Qmake_Qdiv, Pos2Z.inj_pow, <- Binary64.pow2_Z by lia.
  apply Binary64.pow2_div.
Qed.

Lemma binary64_integer (m : Z) :
  Z.abs m <= 2 ^ 53 → (Binary64.rnd64 (inject_Z m) == inject_Z m)%Q.
Proof.
  intros Hm. apply (Binary64.rnd64_dyadic _ m 0); [exact Hm|lia|].
  change (Binary64.pow2 (- 0)) with 1%Q. ring.
Qed.

Lemma binary64_error (x : Q) :
  (1 # Pos.pow 2 64 <= x)%Q → (x <= inject_Z (2 ^ 64))%Q →
  (Binary64.rnd64 x <= x * (1 + (1 # Pos.pow 2 53)))%Q.
Proof.
  intros Hlo _.
  assert (H53 : (Binary64.pow2 (-53) == 1 # Pos.pow 2 53)%Q) by reflexivity.
  rewrite <- H53. apply Binary64.rnd64_error.
  apply Qle_trans with (Binary64.pow2 (-64)); [apply Binary64.pow2_le; lia|exact Hlo].
Qed.

#[global] Instance binary64 : FloatModel := {|
  rnd := Binary64.rnd64;
  rnd_mono := Binary64.rnd64_mono;
  rnd_dyadic := binary64_dyadic;
  rnd_integer := binary64_integer;
  rnd_error := binary64_error
|}.

(** Validation on values that have the declared types, [error] defaulting
    to [None]; anything else is refused (pydantic may coerce some of it). *)
Definition strict_validate (d : PyDict) : result Models.TranscriptionResult :=
  let refused := Raise (Exception "ValidationError"
                          "validation error for TranscriptionResult") in
  match dict_lookup "filename" d, dict_lookup "text" d, dict_lookup "success" d with
  | Some (VStr filename), Some (VStr text), Some (VBool success) =>
      match dict_lookup "error" d with
      | None | Some VNone => Ok (Models.mkResult filename text success None)
      | Some (VStr error) => Ok (Models.mkResult filename text success (Some error))
      | Some _ => refused
      end
  | _, _, _ => refused
  end.

Lemma strict_validate_to_dict (r : Models.TranscriptionResult) :
  strict_validate (Models.to_dict r) = Ok r.
Proof. destruct r as [f t b [e|]]; reflexivity. Qed.

#[global] Instance strict_pydantic : Models.Pydantic := {|
  Models.validate_result := strict_validate;
  Models.validate_to_dict := strict_validate_to_dict
|}.

(* ================================================================= *)
(** ** Scenarios *)

Import Models.

Definition demo_settings : Config.Settings := Config.mkSettings "sk-demo" "/srv".

Definition demo_world : World :=
  mkWorld ∅ {[ "/srv/backend/uploads"; "/srv/backend/outputs" ]} "2025-01-01 10:00" 0 [].

Definition finished_job : Routes.Job :=
  Routes.mkJob COMPLETED 2 2 (Some []) (Some "text") "Transcription completed successfully".

(** Six images; the service fails on the second and the fifth. *)
Definition six_paths : list string :=
  ["in/1.gif"; "in/2.gif"; "in/3.gif"; "in/4.gif"; "in/5.gif"; "in/6.gif"].

Definition six_world : World :=
  mkWorld (list_to_map ((λ p, (p, "GIF89a")) <$> six_paths)) {[ "in"; "out" ]}
          "2025-01-01 10:00" 0 [].

Definition flaky_service : Anthropic :=
  scripted [Ok "one"; Raise (Exception "APIStatusError" "overloaded"); Ok "three";
            Ok "four"; Raise (Exception "APITimeoutError" "Request timed out.");
            Ok "six"].

Definition cli_transcriber : Transcriber.ImageTranscriber :=
  Transcriber.mkTranscriber "sk-demo" "out".

(** Three paths, the second of which names no file. *)
Definition gap_paths : list string := ["in/1.gif"; "in/7.gif"; "in/3.gif"].

(* ================================================================= *)
(** ** The compiled document, as the specification words it *)

Module DocumentSpec.

(** One section: a heading, then the verbatim text of a successful item or
    the error of a failed one, then the delimiter. *)
Definition spec_section (i : Z) (r : TranscriptionResult) : list string :=
  if success r then
    ["## Image " +:+ pretty i +:+ ": " +:+ filename r; ""; text r; ""; "---"; ""]
  else
    ["## Image " +:+ pretty i +:+ ": " +:+ filename r +:+ " [FAILED]";
     "Error: " +:+ match error r with Some e => e | None => "None" end;
     ""; "---"; ""].

Fixpoint spec_sections (i : Z) (items : list TranscriptionResult) : list string :=
  match items with
  | [] => []
  | r :: rest => spec_section i r ++ spec_sections (i + 1) rest
  end.

(** What follows the timestamp line: the counts, then the sections. *)
Definition spec_after_timestamp (items : list TranscriptionResult) : list string :=
  ["Total images processed: " +:+ pretty (Z.of_nat (length items));
   "Successful transcriptions: "
     +:+ pretty (Z.of_nat (length (filter (λ r, success r = true) items)));
   ""; "---"; ""]
  ++ spec_sections 1 items.

Definition spec_document (title timestamp : string) (items : list TranscriptionResult)
  : string :=
  PyStr.join PyStr.nl
    (("# " +:+ title) :: ("Transcribed on: " +:+ timestamp) :: spec_after_timestamp items).

(** The items [compile_results] can render: [success] and [filename] are
    present, with a string [text] when [success] is true, and with [error]
    otherwise. *)
Definition renderable (r : PyDict) : bool :=
  match dict_lookup "success" r, dict_lookup "filename" r with
  | Some s, Some _ =>
      if truthy s then
        match dict_lookup "text" r with Some (VStr _) => true | _ => false end
      else
        match dict_lookup "error" r with Some _ => true | None => false end
  | _, _ => false
  end.

End DocumentSpec.

(* ================================================================= *)
(** ** Vocabulary for the image normaliser *)

Module NormalizerSpec.
Section WithLibs.
Context {libs : Libs}.



End WithLibs.




Definition after (w : World) (steps : list Event) : World :=
  mkWorld (files w) (dirs w) (clock w) (served w) (log w ++ steps).

End NormalizerSpec.

(** A 4800 x 3000 page and a budget of one byte. *)
Definition page_world : World :=
  mkWorld {[ "in/page.png" := "P6 4800 3000 0123456789abcdef" ]} {[ "in" ]}
          "2025-01-01 10:00" 0 [].

Definition page_image : Image := mkImage "RGB" 4800 3000 "0123456789abcdef".

Definition one_byte : Q := 1 # 1048576.

(** A 4231 x 3000 scan: [2400 / 4231] is not a binary64 number. *)
Definition scan_world : World :=
  mkWorld {[ "in/scan.png" := "P6 4231 3000 0123456789abcdef" ]} {[ "in" ]}
          "2025-01-01 10:00" 0 [].

Definition scan_image : Image := mkImage "RGB" 4231 3000 "0123456789abcdef".

(** A 5000 x 2 strip: scaled by 0.48 its height truncates to 0. *)
Definition strip_world : World :=
  mkWorld {[ "in/strip.png" := "P6 5000 2 0123456789abcdef" ]} {[ "in" ]}
          "2025-01-01 10:00" 0 [].

Definition strip_image : Image := mkImage "RGB" 5000 2 "0123456789abcdef".

(* ================================================================= *)
(** ** Vocabulary for the job lifecycle *)

Module LifecycleSpec.
Import Routes.

Section WithLibs.
Context {libs : Libs} {service : Anthropic} {floats : FloatModel}.
Variable settings : Config.Settings.

(** What [process_transcription_job] runs between marking the job as
    processing and storing the outcome. *)
Definition pipeline (job_id image_dir : string) : M (list PyDict * string) :=
  let* service := Service.init settings job_id in
  Service.process_images service image_dir "transcription".

End WithLibs.

(** The successive values of a job record during one run, given the
    outcome of the pipeline: one value per assignment. *)
Definition run_snapshots (job : Job) (outcome : result (list PyDict * string)) : list Job :=
  let j1 := set_status PROCESSING job in
  let j2 := set_message "Processing images..." j1 in
  match outcome with
  | Ok (results, compiled_text) =>
      let j3 := set_status COMPLETED j2 in
      let j4 := set_results results j3 in
      let j5 := set_compiled_text compiled_text j4 in
      let j6 := set_processed_images (Z.of_nat (length results)) j5 in
      let j7 := set_message "Transcription completed successfully" j6 in
      [j1; j2; j3; j4; j5; j6; j7]
  | Raise e =>
      let f1 := set_status FAILED j2 in
      let f2 := set_message ("Error: " +:+ exn_str e) f1 in
      [j1; j2; f1; f2]
  end.

(** Repeated assignments to one job: the server after the values [js] have
    been stored into [jobs[job_id]] one by one, starting from [j0], with the
    world at [w]. *)
Definition stored (job_id : string) (s : Server) (w : World) (j0 : Job) (js : list Job)
  : Server :=
  mkServer (<[job_id := default j0 (last js)]> (jobs s)) w (tasks s)
           (history s ++ ((λ j, <[job_id := j]> (jobs s)) <$> js)).

(** The files of the world after the uploads [fs] were written under [d]. *)
Definition uploaded (d : string) (fs : list UploadFile) (m : gmap string string)
  : gmap string string :=
  foldl (λ m f, <[PyPath.joinpath d (filename f) := content f]> m) m fs.

(** The record [upload_images] registers for [n] files. *)
Definition fresh_job (n : nat) : Job :=
  mkJob PENDING (Z.of_nat n) 0 None None "Files uploaded, ready to process".

(** A file name without a directory part. *)
Definition plain_name (n : string) : Prop := PyStr.rsplit "/" n = None.

(** The paths directly under [d] that pass the extension filter. *)
Definition no_images (w : World) (d : string) : Prop :=
  ∀ p, p ∈ entries w d → Transcriber.is_image Config.ALLOWED_EXTENSIONS p = false.

End LifecycleSpec.

(** A pending job whose upload directory holds no image, only a text file. *)
Definition notes_world : World :=
  mkWorld {[ "/srv/backend/uploads/job1/notes.txt" := "no pictures today" ]}
          {[ "/srv/backend/uploads"; "/srv/backend/outputs"; "/srv/backend/uploads/job1" ]}
          "2025-01-01 10:00" 0 [].

Definition pending_job : Routes.Job :=
  Routes.mkJob PENDING 1 0 None None "Files uploaded, ready to process".

Definition notes_server : Routes.Server :=
  Routes.mkServer {[ "job1" := pending_job ]} notes_world [] [].

Definition silent_service : Anthropic := scripted [].

(** An idle server, and two uploads: three files with distinct names, and
    two files that share one name. *)
Definition idle_server : Routes.Server := Routes.mkServer ∅ demo_world [] [].

Definition three_uploads : list Routes.UploadFile :=
  [Routes.mkUpload "a.gif" "GIF89a"; Routes.mkUpload "b.png" "P6 4 2 abcdefgh";
   Routes.mkUpload "c.JPG" "junk"].

Definition same_name_uploads : list Routes.UploadFile :=
  [Routes.mkUpload "page.jpg" "first"; Routes.mkUpload "page.jpg" "second"].

Definition three_replies : Anthropic :=
  scripted [Ok "hello"; Raise (Exception "APIStatusError" "overloaded"); Ok "third"].

(** A completed transcription and three requested content types; the
    service answers the flashcards request with text that is no JSON. *)
Definition content_dir : string := "/srv/backend/outputs/job1/generated_content".

Definition content_world : World :=
  mkWorld ∅ {[ "/srv/backend/outputs"; "/srv/backend/outputs/job1" ]}
          "2025-01-01 10:00" 0 [].

Definition chatty_service : Anthropic :=
  scripted [Ok "Sorry, I cannot produce flashcards for this text.";
            Ok "[SCENE 1: Introduction]"].

Definition summary_then_chatty : Anthropic :=
  scripted [Ok "# Summary"; Ok "Sorry, I cannot produce flashcards for this text.";
            Ok "[SCENE 1: Introduction]"].

(* ================================================================= *)
(** ** Vocabulary for fenced responses *)

Module FenceSpec.
Import ContentGen.




End FenceSpec.

(** The vocabulary of the facts about the JSON reader. *)
Module JsonSpec.
Import Json.

(** A string of JSON whitespace only. *)
Definition all_ws (w : string) : Prop := skip_ws w = "".

(** The empty string, or one that starts with JSON whitespace. *)
Definition ws_head (w : string) : Prop :=
  match w with "" => True | String c _ => is_ws c = true end.

(** The characters a numeral is made of. *)
Definition numeric (c : ascii) : bool :=
  is_digit c || ch 45 c || ch 43 c || ch 46 c || ch 101 c || ch 69 c.

Fixpoint numeric_all (s : string) : bool :=
  match s with
  | "" => true
  | String c r => numeric c && numeric_all r
  end.

(** [scan_number], phase by phase. *)
Definition num_sign (s : string) : string * string :=
  match s with
  | String c r => if ch 45 c then ("-", r) else (EmptyString, s)
  | EmptyString => (EmptyString, s)
  end.

Definition num_int (s1 : string) : option (string * string) :=
  match s1 with
  | String c r =>
      if ch 48 c then Some ("0", r)
      else if is_digit c then Some (take_digits s1)
      else None
  | EmptyString => None
  end.

Definition num_frac (rest : string) : string * string :=
  match rest with
  | String c r =>
      if ch 46 c then
        match take_digits r with
        | (EmptyString, _) => (EmptyString, rest)
        | (fs, r') => ("." +:+ fs, r')
        end
      else (EmptyString, rest)
  | EmptyString => (EmptyString, rest)
  end.

Definition num_exp (rest : string) : string * string :=
  match rest with
  | String c r =>
      if ch 101 c || ch 69 c then
        let (esign, r1) :=
          match r with
          | String d r2 =>
              if ch 45 d || ch 43 d then (String d EmptyString, r2)
              else (EmptyString, r)
          | EmptyString => (EmptyString, r)
          end in
        match take_digits r1 with
        | (EmptyString, _) => (EmptyString, rest)
        | (es, r') => (String c esign +:+ es, r')
        end
      else (EmptyString, rest)
  | EmptyString => (EmptyString, rest)
  end.

Definition num_value (sign ds frac exp : string) : PyVal :=
  match frac, exp with
  | EmptyString, EmptyString =>
      let v := digits_value ds 0 in
      VInt (if String.eqb sign "-" then - v else v)
  | _, _ =>
      if all_zero (ds +:+ frac) then VFloat (sign +:+ "0.0")
      else VFloat (sign +:+ ds +:+ frac +:+ exp)
  end.

(** A text that starts, or ends, with a character that [strip] keeps. *)
Definition starts_solid (b : string) : Prop :=
  ∃ c m, b = String c m ∧ PyStr.isspace c = false.

Definition ends_solid (b : string) : Prop :=
  ∃ m c, b = m +:+ String c "" ∧ PyStr.isspace c = false.

(** What [scan_once] does on a character that opens neither a string, an
    object nor an array. *)
Definition scan_atom (s : string) : parsed PyVal :=
  match starts "null" s, starts "true" s, starts "false" s with
  | Some rest, _, _ => Done VNone rest
  | _, Some rest, _ => Done (VBool true) rest
  | _, _, Some rest => Done (VBool false) rest
  | _, _, _ =>
      match scan_number s with
      | Some (v, rest) => Done v rest
      | None =>
          match starts "NaN" s, starts "Infinity" s, starts "-Infinity" s with
          | Some rest, _, _ => Done (VFloat "nan") rest
          | _, Some rest, _ => Done (VFloat "inf") rest
          | _, _, Some rest => Done (VFloat "-inf") rest
          | _, _, _ => Bad (Fail "Expecting value" (String.length s))
          end
      end
  end.

(** What was read does not change when whitespace at the end of the input is
    dropped, and fuel for what was read is enough. *)
Definition once_local (f : nat) : Prop :=
  ∀ s v r, scan_once f s = Done v r →
  ∃ b, s = b +:+ r ∧ starts_solid b ∧ ends_solid b
       ∧ ∀ f' r0 w, r = r0 +:+ w → all_ws w → (String.length b <= f')%nat →
           scan_once f' (b +:+ r0) = Done v r0.

Definition members_local (f : nat) : Prop :=
  ∀ s acc v r, scan_members f s acc = Done v r →
  ∃ m, s = (m +:+ "}") +:+ r
       ∧ ∀ f' r0 w, r = r0 +:+ w → all_ws w → (String.length (m +:+ "}") <= f')%nat →
           scan_members f' ((m +:+ "}") +:+ r0) acc = Done v r0.

Definition elements_local (f : nat) : Prop :=
  ∀ s acc v r, scan_elements f s acc = Done v r →
  ∃ m, s = (m +:+ "]") +:+ r
       ∧ ∀ f' r0 w, r = r0 +:+ w → all_ws w → (String.length (m +:+ "]") <= f')%nat →
           scan_elements f' ((m +:+ "]") +:+ r0) acc = Done v r0.

End JsonSpec.

(** Three JSON payloads: a plain one, the same with whitespace around it, and
    one whose note holds backticks. *)
Definition plain_payload : string :=
  "{" +:+ ContentGen.dq +:+ "flashcards" +:+ ContentGen.dq +:+ ": []}".



(* ================================================================= *)
(** ** Vocabulary for the file system and the checkpoints *)

Module WorldSpec.

(** Code under which the view [f] of the world stays as it is. *)
Definition preserves {X A} (f : World → X) (m : M A) : Prop :=
  ∀ w, f (m w).2 = f w.

(** The file system with the clock, and the same with the number of
    requests the service has answered. *)
Definition fs_view (w : World) : gmap string string * gset string * string :=
  (files w, dirs w, clock w).

Definition quiet_view (w : World) : gmap string string * gset string * string * nat :=
  (files w, dirs w, clock w, served w).

(** The checkpoint written after [count] images. *)
Definition backup_path (self : Transcriber.ImageTranscriber) (count : Z) : string :=
  PyPath.joinpath (Transcriber.output_dir self)
    ("backup_results_" +:+ pretty count +:+ ".json").

End WorldSpec.

(* ================================================================= *)
(** ** Vocabulary for a run of the pipeline *)

Module RunSpec.
Section WithSettings.
Variable settings : Config.Settings.

(** The world in which the images of a job are listed: the one the run
    starts in, with the output directory of the job made. *)
Definition listing_world (job_id : string) (w : World) : World :=
  mkWorld (files w) ({[PyPath.joinpath (Config.OUTPUT_DIR settings) job_id]} ∪ dirs w)
          (clock w) (served w) (log w).

Definition listed_images (job_id image_dir : string) (w : World) : list string :=
  filter (λ p, Transcriber.is_image Config.ALLOWED_EXTENSIONS p)
    (merge_sort String.le (elements (entries (listing_world job_id w) image_dir))).

End WithSettings.
End RunSpec.

(* ================================================================= *)
(** ** Vocabulary for uploads *)

Module UploadSpec.
Import Routes.



End UploadSpec.

(* ================================================================= *)
(** ** Vocabulary for the generated content *)

Module DispatchSpec.
(** The key under which a content type is returned, and the file it is
    written to. *)
Definition content_key (t : ContentType) : string :=
  match t with
  | FLASHCARDS => "flashcards" | INFOGRAPHICS => "infographics"
  | VIDEO_SCRIPT => "video_script" | PODCAST => "podcast"
  end.

Definition content_file (t : ContentType) : string :=
  match t with
  | FLASHCARDS => "flashcards.json" | INFOGRAPHICS => "infographic.md"
  | VIDEO_SCRIPT => "video_script.txt" | PODCAST => "podcast_script.txt"
  end.

(** The file system only grows. *)
Definition grows (w w' : World) : Prop :=
  (∀ p, is_Some (files w !! p) → is_Some (files w' !! p)) ∧ dirs w ⊆ dirs w'.

(** What the loop has gathered: every key stands for a requested type and
    maps to the file of that type, which exists. *)
Definition gathered (out : string) (ts : list ContentType) (w : World)
    (generated : gmap string string) : Prop :=
  (∀ key p, generated !! key = Some p →
     ∃ t, t ∈ ts ∧ key = content_key t ∧ p = PyPath.joinpath out (content_file t)
          ∧ is_Some (files w !! p))
  ∧ (∀ t, t ∈ ts → is_Some (generated !! content_key t)).

End DispatchSpec.

(** The command line. *)
Module CommandSpec.


End CommandSpec.

Module DeckSpec.
Section WithLibs.
Context {libs : Libs}.

Definition is_dict (v : PyVal) : bool :=
  match v with VDict _ => true | _ => false end.

(** The replies [generate_flashcards] can render: a JSON object whose
    [flashcards] entry, an empty list when absent, can be iterated and
    yields objects only. *)
Definition deck_shape (data : PyVal) : bool :=
  match data with
  | VDict kv =>
      match ContentGen.py_iter (dict_get kv "flashcards" (VList [])) with
      | Ok cards => forallb is_dict cards
      | Raise _ => false
      end
  | _ => false
  end.

End WithLibs.
End DeckSpec.

(** A server after an accepted upload of three images, an upload with a
    text file among the images, a job whose directory is gone, a completed
    job, and two replies to a flashcards request: a deck, and a JSON list. *)
Definition uploaded_server : Routes.Server :=
  (Routes.upload_images demo_settings "job1" three_uploads true idle_server).2.



Definition finished_server : Routes.Server :=
  Routes.mkServer {[ "job1" := finished_job ]} content_world [] [].

Definition deck_service : Anthropic := scripted [Ok plain_payload].
Definition list_service : Anthropic := scripted [Ok "[]"].

(* ================================================================= *)
(** * Properties *)

(** ** Strings *)

Lemma append_cons (x : ascii) (a b : string) : String x a +:+ b = String x (a +:+ b).
Proof. reflexivity. Qed.

Lemma append_assoc (a b c : string) : (a +:+ b) +:+ c = a +:+ (b +:+ c).
Proof.
  induction a as [|x a IH]; [reflexivity|].
  now rewrite !append_cons, IH.
Qed.

Lemma append_empty_r (a : string) : a +:+ "" = a.
Proof.
  induction a as [|x a IH]; [reflexivity|].
  now rewrite append_cons, IH.
Qed.

Lemma length_append (a b : string) :
  String.length (a +:+ b) = (String.length a + String.length b)%nat.
Proof.
  induction a as [|x a IH]; [reflexivity|].
  rewrite append_cons. simpl. now rewrite IH.
Qed.

Lemma append_empty_l (a : string) : "" +:+ a = a.
Proof. reflexivity. Qed.

Lemma prefix_empty (s : string) : String.prefix "" s = true.
Proof. now destruct s. Qed.

Lemma append_inj_r (a b c : string) : a +:+ c = b +:+ c → a = b.
Proof.
  revert b. induction a as [|x a IH]; intros [|y b] H.
  - reflexivity.
  - apply (f_equal String.length) in H. rewrite !length_append in H. simpl in H. lia.
  - apply (f_equal String.length) in H. rewrite !length_append in H. simpl in H. lia.
  - rewrite !append_cons in H. injection H as -> H. f_equal. now apply IH.
Qed.

(** ** Running monadic code *)

Lemma bind_ok {S A B} (m : St S A) (k : A → St S B) (s s' : S) (a : A) :
  m s = (Ok a, s') → bind m k s = k a s'.
Proof. intros E. unfold bind. now rewrite E. Qed.

Lemma bind_raise {S A B} (m : St S A) (k : A → St S B) (s s' : S) (e : exn) :
  m s = (Raise e, s') → bind m k s = (Raise e, s').
Proof. intros E. unfold bind. now rewrite E. Qed.


Lemma bind_lift_raise {S A B} (r : result A) (k : A → St S B) (s : S) (e : exn) :
  r = Raise e → bind (lift r) k s = (Raise e, s).
Proof. now intros ->. Qed.

Lemma try_except_ok {S A} (m : St S A) (h : exn → St S A) (s s' : S) (a : A) :
  m s = (Ok a, s') → try_except m h s = (Ok a, s').
Proof. intros E. unfold try_except. now rewrite E. Qed.

Lemma try_except_raise {S A} (m : St S A) (h : exn → St S A) (s s' : S) (e : exn) :
  m s = (Raise e, s') → try_except m h s = h e s'.
Proof. intros E. unfold try_except. now rewrite E. Qed.

(** ** The job lifecycle: a second start is refused *)

Section Start.
Variable settings : Config.Settings.

(** C1.  On a job whose state is [processing], [completed] or [failed],
    [start_transcription] raises HTTP 400 ("Job already processed or
    processing") and the whole server state, hence every field of the job
    record, stays as it was; no task is queued either. *)
Theorem start_transcription_rejects_started (s : Routes.Server) (job_id : string)
    (job : Routes.Job) :
  Routes.jobs s !! job_id = Some job →
  Routes.status job ≠ PENDING →
  Routes.start_transcription settings job_id s
    = (Raise (HTTPException 400 "Job already processed or processing"), s)
  ∧ Routes.jobs (Routes.start_transcription settings job_id s).2 !! job_id = Some job
  ∧ Routes.tasks (Routes.start_transcription settings job_id s).2 = Routes.tasks s.
Proof.
  intros Hjob Hst.
  assert (E : Routes.start_transcription settings job_id s
              = (Raise (HTTPException 400 "Job already processed or processing"), s)).
  { unfold Routes.start_transcription. rewrite Hjob.
    destruct (decide (Routes.status job ≠ PENDING)) as [_|Hn]; [reflexivity|].
    exfalso. apply Hn, Hst. }
  rewrite E. simpl. auto.
Qed.

End Start.

Lemma start_transcription_rejects_started_witness :
  let s := Routes.mkServer {[ "job1" := finished_job ]} demo_world [] [] in
  Routes.start_transcription demo_settings "job1" s
    = (Raise (HTTPException 400 "Job already processed or processing"), s)
  ∧ Routes.jobs (Routes.start_transcription demo_settings "job1" s).2 !! "job1"
    = Some finished_job
  ∧ Routes.tasks (Routes.start_transcription demo_settings "job1" s).2 = [].
Proof.
  intros s.
  apply (start_transcription_rejects_started demo_settings s "job1" finished_job).
  - reflexivity.
  - discriminate.
Defined.

(** ** The transcription engine *)

Section Engine.
Context {libs : Libs} {service : Anthropic} {floats : FloatModel}.

Lemma transcribe_body_shape (p : string) (w : World) (d : PyDict) :
  (Transcriber.transcribe_body p w).1 = Ok d →
  ∃ text, d = Transcriber.item_ok (PyPath.name p) text.
Proof.
  unfold Transcriber.transcribe_body, bind.
  destruct (Transcriber.encode_image p w) as [[[b64 mt]|e] w1]; simpl; [|discriminate].
  unfold ask. destruct (messages_create (served w1) (Vision mt b64)) as [text|e];
    simpl; [|discriminate].
  intros [= <-]. now exists text.
Qed.

(** [transcribe_image] never raises: it returns the item of the [try] block,
    or the failed item built from the exception. *)
Lemma transcribe_image_total (p : string) (w : World) :
  Transcriber.transcribe_image p w
  = (Ok match (Transcriber.transcribe_body p w).1 with
        | Ok d => d
        | Raise e => Transcriber.item_failed (PyPath.name p) (exn_str e)
        end,
     (Transcriber.transcribe_body p w).2).
Proof.
  unfold Transcriber.transcribe_image, try_except.
  now destruct (Transcriber.transcribe_body p w) as [[d|e] w1].
Qed.

Lemma save_intermediate_ok self results count w :
  ∃ w', Transcriber._save_intermediate_results self results count w = (Ok tt, w').
Proof. unfold Transcriber._save_intermediate_results, write_file. eauto. Qed.

Lemma transcribe_loop_spec (self : Transcriber.ImageTranscriber) (bs : Z) :
  bs ≠ 0 →
  ∀ (paths : list string) (i : Z) (acc : list PyDict) (w : World),
  ∃ items w',
    Transcriber.transcribe_loop self bs i paths acc w = (Ok (acc ++ items), w')
    ∧ length items = length paths
    ∧ ∀ k p, paths !! k = Some p →
        let wk := (Transcriber.transcribe_loop self bs i (take k paths) acc w).2 in
        items !! k
        = Some match (Transcriber.transcribe_body p wk).1 with
               | Ok d => d
               | Raise e => Transcriber.item_failed (PyPath.name p) (exn_str e)
               end.
Proof.
  intros Hbs paths. induction paths as [|p rest IH]; intros i acc w.
  - exists [], w. simpl. rewrite app_nil_r. repeat split. intros k p Hk. now destruct k.
  - set (d := match (Transcriber.transcribe_body p w).1 with
              | Ok d => d
              | Raise e => Transcriber.item_failed (PyPath.name p) (exn_str e)
              end).
    set (w1 := (Transcriber.transcribe_body p w).2).
    assert (Hmod : PyNum.int_mod i bs = Ok (i mod bs)).
    { unfold PyNum.int_mod. destruct (Z.eqb_spec bs 0); [contradiction|reflexivity]. }
    (* the world after the checkpoint of this round *)
    destruct (save_intermediate_ok self (acc ++ [d]) i w1) as [wc Hwc].
    set (w2 := if i mod bs =? 0 then wc else w1).
    assert (Hstep : ∀ paths',
      Transcriber.transcribe_loop self bs i (p :: paths') acc w
      = Transcriber.transcribe_loop self bs (i + 1) paths' (acc ++ [d]) w2).
    { intros paths'. simpl.
      rewrite (bind_ok _ _ w w1 d) by apply transcribe_image_total.
      unfold lift at 1. rewrite (bind_ok _ _ w1 w1 (i mod bs)) by now rewrite Hmod.
      unfold w2. destruct (i mod bs =? 0).
      - now rewrite (bind_ok _ _ w1 wc tt).
      - reflexivity. }
    destruct (IH (i + 1) (acc ++ [d]) w2) as (items & w' & Hrun & Hlen & Hitems).
    exists (d :: items), w'. split; [|split].
    + rewrite Hstep, Hrun. now rewrite <- app_assoc.
    + simpl. now rewrite Hlen.
    + intros k q Hk. destruct k as [|k]; simpl in Hk.
      * injection Hk as <-. reflexivity.
      * simpl take. rewrite Hstep. apply (Hitems k q Hk).
Qed.


End Engine.


(** The batch of the scenario, run: items 2 and 5 are recorded as failed and
    the other four as transcribed, in input order. *)
Example transcribe_batch_two_failures :
  (Transcriber.transcribe_batch (service := flaky_service)
     cli_transcriber six_paths 10 six_world).1
  = Ok [Transcriber.item_ok "1.gif" "one";
        Transcriber.item_failed "2.gif" "overloaded";
        Transcriber.item_ok "3.gif" "three";
        Transcriber.item_ok "4.gif" "four";
        Transcriber.item_failed "5.gif" "Request timed out.";
        Transcriber.item_ok "6.gif" "six"].
Proof. vm_compute. reflexivity. Qed.

(** ** The image normaliser: formats that are sent as they are *)

Section Passthrough.
Context {libs : Libs} {service : Anthropic} {floats : FloatModel}.

(** C10.  When the lower-cased suffix of the path is none of [.jpg], [.jpeg],
    [.png], [.webp] (so for [.gif] and [.bmp]), [encode_image] returns the
    base64 text of exactly the bytes of the file, with the media type
    ["image/"] followed by the suffix without its dot.  The world is left as
    it was: Pillow is not called, so nothing is transposed, converted,
    compressed or measured against the size budget. *)
Theorem encode_image_sends_other_formats_raw (p : string) (w : World) :
  PyStr.lower (PyPath.suffix p) ∉ Transcriber.compressed_extensions →
  Transcriber.encode_image p w
  = (match files w !! p with
     | Some bytes =>
         Ok (b64encode bytes,
             "image/" +:+ PyStr.drop 1 (PyStr.lower (PyPath.suffix p)))
     | None => Raise (FileNotFoundError p)
     end, w).
Proof.
  intros Hext. unfold Transcriber.encode_image.
  rewrite bool_decide_eq_false_2 by exact Hext.
  unfold bind, read_file. now destruct (files w !! p).
Qed.

End Passthrough.

(** Membership of a concrete string in a concrete list, decided by running
    the decision procedure. *)
Ltac by_decision :=
  match goal with
  | |- _ ∉ _ =>
      let Hin := fresh in
      intros Hin; apply (bool_decide_pack _) in Hin; vm_compute in Hin; exact Hin
  | |- _ => apply (bool_decide_unpack _); vm_compute; exact I
  end.

Lemma encode_image_sends_other_formats_raw_witness :
  (PyStr.lower (PyPath.suffix "in/scan.GIF") ∉ Transcriber.compressed_extensions)
  ∧ Transcriber.encode_image "in/scan.GIF"
      (mkWorld {[ "in/scan.GIF" := "GIF89a" ]} {[ "in" ]} "2025-01-01 10:00" 0 [])
    = (Ok ("R0lGODlh", "image/gif"),
       mkWorld {[ "in/scan.GIF" := "GIF89a" ]} {[ "in" ]} "2025-01-01 10:00" 0 []).
Proof.
  split; [by_decision|].
  rewrite (encode_image_sends_other_formats_raw "in/scan.GIF") by by_decision.
  reflexivity.
Defined.

(** ** The document compiler *)

Section Compiler.
Context {libs : Libs}.
Import DocumentSpec.

Lemma count_success_typed (items : list TranscriptionResult) :
  Transcriber.count_success (to_dict <$> items)
  = Ok (Z.of_nat (length (filter (λ r, success r = true) items))).
Proof.
  induction items as [|r rest IH]; [reflexivity|].
  rewrite fmap_cons. cbn [Transcriber.count_success].
  change (subscript (to_dict r) "success") with (@Ok PyVal (VBool (success r))).
  rewrite IH. cbn [truthy]. rewrite filter_cons.
  destruct (success r) eqn:E.
  - rewrite decide_True by reflexivity. cbn [length]. f_equal. lia.
  - rewrite decide_False by discriminate. reflexivity.
Qed.

Lemma compile_loop_typed (items : list TranscriptionResult) :
  ∀ (i : Z) (output : list PyVal),
  Transcriber.compile_loop i (to_dict <$> items) output
  = Ok (output ++ (VStr <$> spec_sections i items)).
Proof.
  induction items as [|r rest IH]; intros i output.
  - simpl. now rewrite app_nil_r.
  - rewrite fmap_cons. cbn [Transcriber.compile_loop spec_sections].
    change (subscript (to_dict r) "success") with (@Ok PyVal (VBool (success r))).
    change (subscript (to_dict r) "filename") with (@Ok PyVal (VStr (filename r))).
    change (subscript (to_dict r) "text") with (@Ok PyVal (VStr (text r))).
    change (subscript (to_dict r) "error")
      with (@Ok PyVal (match error r with Some e => VStr e | None => VNone end)).
    cbn [truthy]. unfold spec_section.
    destruct (success r); rewrite IH; rewrite fmap_app, <- !app_assoc.
    + reflexivity.
    + destruct (error r); reflexivity.
Qed.

Lemma all_str_strings (l : list string) (k : nat) :
  Transcriber.all_str k (VStr <$> l) = Ok l.
Proof.
  revert k. induction l as [|s l IH]; intros k; [reflexivity|].
  rewrite fmap_cons. cbn [Transcriber.all_str]. now rewrite IH.
Qed.

(** C8.  On the dicts of any list of transcription results and any title,
    [compile_results] returns, without touching the world, the document of
    the specification: the header with title, timestamp, total and success
    counts, then one section per item in input order, a successful item as
    heading plus its verbatim text, a failed one as heading marked
    [[FAILED]] plus its error.  The timestamp enters the output in its
    second line only, so two calls on the same items differ in nothing
    else. *)
Theorem compile_results_renders_document
    (items : list TranscriptionResult) (title : string) (w : World) :
  Transcriber.compile_results (to_dict <$> items) title w
  = (Ok (spec_document title (clock w) items), w)
  ∧ ∀ timestamp,
      spec_document title timestamp items
      = "# " +:+ title +:+ PyStr.nl +:+ "Transcribed on: " +:+ timestamp
        +:+ PyStr.nl +:+ PyStr.join PyStr.nl (spec_after_timestamp items).
Proof.
  split.
  - unfold Transcriber.compile_results, bind, now, lift.
    rewrite count_success_typed, length_fmap.
    rewrite (compile_loop_typed items 1
               [VStr ("# " +:+ title); VStr ("Transcribed on: " +:+ clock w);
                VStr ("Total images processed: " +:+ pretty (Z.of_nat (length items)));
                VStr ("Successful transcriptions: " +:+
                      pretty (Z.of_nat (length (filter (λ r, success r = true) items))));
                VStr ""; VStr "---"; VStr ""]).
    unfold Transcriber.join_lines.
    change ([VStr ("# " +:+ title); VStr ("Transcribed on: " +:+ clock w);
             VStr ("Total images processed: " +:+ pretty (Z.of_nat (length items)));
             VStr ("Successful transcriptions: " +:+
                   pretty (Z.of_nat (length (filter (λ r, success r = true) items))));
             VStr ""; VStr "---"; VStr ""] ++ (VStr <$> spec_sections 1 items))
      with (VStr <$> (("# " +:+ title) :: ("Transcribed on: " +:+ clock w)
                      :: spec_after_timestamp items)).
    now rewrite all_str_strings.
  - intros timestamp. unfold spec_document, spec_after_timestamp.
    cbn [PyStr.join app]. now rewrite !append_assoc.
Qed.

End Compiler.

Section CompilerInputs.
Context {libs : Libs}.
Import DocumentSpec.

Lemma subscript_some (r : PyDict) (k : string) (v : PyVal) :
  dict_lookup k r = Some v → subscript r k = Ok v.
Proof. unfold subscript. now intros ->. Qed.

Lemma subscript_none (r : PyDict) (k : string) :
  dict_lookup k r = None → subscript r k = Raise (KeyError k).
Proof. unfold subscript. now intros ->. Qed.

Lemma count_success_returns (rs : list PyDict) :
  (∃ n, Transcriber.count_success rs = Ok n)
  ↔ Forall (λ r, is_Some (dict_lookup "success" r)) rs.
Proof.
  induction rs as [|r rs IH]; cbn [Transcriber.count_success].
  - split; [constructor | eauto].
  - rewrite Forall_cons, <- IH. unfold subscript.
    destruct (dict_lookup "success" r) as [s|] eqn:Es.
    + destruct (Transcriber.count_success rs) as [n|e].
      * split; eauto.
      * split; [intros [n [=]] | intros [_ [n [=]]]].
    + split; [intros [n [=]] | intros [[s [=]] _]].
Qed.

Lemma count_success_missing (rs : list PyDict) :
  Exists (λ r, dict_lookup "success" r = None) rs →
  Transcriber.count_success rs = Raise (KeyError "success").
Proof.
  induction rs as [|r rs IH]; intros Hex; [now apply Exists_nil in Hex|].
  cbn [Transcriber.count_success]. unfold subscript.
  destruct (dict_lookup "success" r) as [s|] eqn:Es; [|reflexivity].
  apply Exists_cons in Hex as [Hr|Hrs]; [congruence|].
  now rewrite (IH Hrs).
Qed.

(** The loop returns exactly when every item has the keys its branch reads;
    what it appends holds the [text] values of the successful items. *)
Lemma compile_loop_returns (rs : list PyDict) :
  ∀ (i : Z) (output out : list PyVal),
  Transcriber.compile_loop i rs output = Ok out →
  ∃ lines, out = output ++ lines
    ∧ Forall (λ r, ∃ s, dict_lookup "success" r = Some s
                ∧ is_Some (dict_lookup "filename" r)
                ∧ if truthy s
                  then ∃ t, dict_lookup "text" r = Some t ∧ t ∈ lines
                  else is_Some (dict_lookup "error" r)) rs.
Proof.
  induction rs as [|r rs IH]; intros i output out; cbn [Transcriber.compile_loop].
  - intros [= <-]. exists []. now rewrite app_nil_r.
  - unfold subscript.
    destruct (dict_lookup "success" r) as [s|] eqn:Es; [|discriminate].
    destruct (truthy s) eqn:Et.
    + destruct (dict_lookup "filename" r) as [fn|] eqn:Ef; [|discriminate].
      destruct (dict_lookup "text" r) as [t|] eqn:Ex; [|discriminate].
      intros Hrun. apply IH in Hrun as (lines & -> & Hall).
      eexists (_ :: _ :: t :: _ :: _ :: _ :: lines).
      split; [rewrite <- !app_assoc; reflexivity|].
      constructor.
      * exists s. rewrite Et. repeat split; eauto.
        exists t. split; [exact Ex|]. set_solver.
      * eapply Forall_impl; [exact Hall|]. intros r' (s' & Hs' & Hf' & Hb').
        exists s'. repeat split; try assumption.
        destruct (truthy s'); [|assumption].
        destruct Hb' as (t' & Ht' & Hin). exists t'. split; [assumption|]. set_solver.
    + destruct (dict_lookup "filename" r) as [fn|] eqn:Ef; [|discriminate].
      destruct (dict_lookup "error" r) as [err|] eqn:Ex; [|discriminate].
      intros Hrun. apply IH in Hrun as (lines & -> & Hall).
      eexists (_ :: _ :: _ :: _ :: _ :: lines).
      split; [rewrite <- !app_assoc; reflexivity|].
      constructor.
      * exists s. rewrite Et. repeat split; eauto.
      * eapply Forall_impl; [exact Hall|]. intros r' (s' & Hs' & Hf' & Hb').
        exists s'. repeat split; try assumption.
        destruct (truthy s'); [|assumption].
        destruct Hb' as (t' & Ht' & Hin). exists t'. split; [assumption|]. set_solver.
Qed.

Lemma compile_loop_renderable (rs : list PyDict) :
  forallb renderable rs = true →
  ∀ (i : Z) (output : list PyVal),
  ∃ lines : list string,
    Transcriber.compile_loop i rs output = Ok (output ++ (VStr <$> lines)).
Proof.
  induction rs as [|r rs IH]; intros Hall i output.
  - exists []. simpl. now rewrite app_nil_r.
  - cbn [forallb] in Hall. apply andb_prop in Hall as [Hr Hrs].
    cbn [Transcriber.compile_loop]. unfold renderable in Hr. unfold subscript.
    destruct (dict_lookup "success" r) as [s|]; [|discriminate].
    destruct (dict_lookup "filename" r) as [fn|]; [|discriminate].
    destruct (truthy s).
    + destruct (dict_lookup "text" r) as [[| | | |t| |]|]; try discriminate.
      edestruct (IH Hrs) as [lines ->].
      eexists (_ :: "" :: t :: "" :: "---" :: "" :: lines).
      rewrite <- !app_assoc. reflexivity.
    + destruct (dict_lookup "error" r) as [err|]; [|discriminate].
      edestruct (IH Hrs) as [lines ->].
      eexists (_ :: _ :: "" :: "---" :: "" :: lines).
      rewrite <- !app_assoc. reflexivity.
Qed.

Lemma all_str_returns (output : list PyVal) :
  ∀ (k : nat) (l : list string),
  Transcriber.all_str k output = Ok l → ∀ v, v ∈ output → ∃ s, v = VStr s.
Proof.
  induction output as [|v0 output IH]; intros k l Hl v Hin; [set_solver|].
  cbn [Transcriber.all_str] in Hl.
  destruct v0; try discriminate.
  destruct (Transcriber.all_str (S k) output) as [l'|] eqn:E; [|discriminate].
  apply elem_of_cons in Hin as [->|Hin]; [eauto|]. eapply IH; eauto.
Qed.

(** C9, as the code has it.  [compile_results] leaves the world alone and
    returns a document exactly for the lists in which every item is
    [renderable].  A field that is missing is never rendered as empty: an
    item without [success] makes the call raise [KeyError('success')]. *)
Theorem compile_results_returns_iff_renderable
    (rs : list PyDict) (title : string) (w : World) :
  ((∃ doc, Transcriber.compile_results rs title w = (Ok doc, w))
   ↔ forallb renderable rs = true)
  ∧ (Exists (λ r, dict_lookup "success" r = None) rs →
     Transcriber.compile_results rs title w = (Raise (KeyError "success"), w)).
Proof.
  split; [split|].
  - intros [doc Hdoc]. unfold Transcriber.compile_results, bind, now, lift in Hdoc.
    destruct (Transcriber.count_success rs) as [n|e] eqn:Ec; [|discriminate].
    destruct (Transcriber.compile_loop 1 rs _) as [out|e] eqn:El; [|discriminate].
    unfold Transcriber.join_lines in Hdoc.
    destruct (Transcriber.all_str 0 out) as [l|e] eqn:Ea; [|discriminate].
    apply compile_loop_returns in El as (lines & -> & Hall).
    apply forallb_forall. intros r Hr.
    rewrite Forall_forall in Hall. apply list_elem_of_In in Hr.
    destruct (Hall r Hr) as (s & Hs & [fn Hf] & Hb).
    unfold renderable. rewrite Hs, Hf. destruct (truthy s).
    + destruct Hb as (t & Ht & Hin). rewrite Ht.
      destruct (all_str_returns _ _ _ Ea t) as [txt ->]; [set_solver|reflexivity].
    + now destruct Hb as [err ->].
  - intros Hall. unfold Transcriber.compile_results, bind, now, lift.
    assert (Hc : ∃ n, Transcriber.count_success rs = Ok n).
    { apply count_success_returns, Forall_forall. intros r Hr.
      apply list_elem_of_In in Hr.
      rewrite forallb_forall in Hall. specialize (Hall r Hr). unfold renderable in Hall.
      destruct (dict_lookup "success" r); [eauto|discriminate]. }
    destruct Hc as [n ->].
    edestruct (compile_loop_renderable rs Hall 1) as [lines ->].
    unfold Transcriber.join_lines.
    match goal with
    | |- context [Transcriber.all_str 0 (?hd ++ (VStr <$> lines))] =>
        change (hd ++ (VStr <$> lines))
          with (VStr <$> (("# " +:+ title) :: ("Transcribed on: " +:+ clock w)
                  :: ("Total images processed: " +:+ pretty (Z.of_nat (length rs)))
                  :: ("Successful transcriptions: " +:+ pretty n)
                  :: "" :: "---" :: "" :: lines))
    end.
    rewrite all_str_strings. eauto.
  - intros Hex. unfold Transcriber.compile_results, bind, now, lift.
    now rewrite (count_success_missing rs Hex).
Qed.

End CompilerInputs.

(** An item without its [success] field is not rendered with an empty
    field: the call raises. *)
Lemma compile_results_missing_field_raises :
  Transcriber.compile_results
    [Transcriber.item_ok "1.jpg" "first page";
     [("filename", VStr "2.jpg"); ("text", VStr "second page")]]
    "Transcribed Content" demo_world
  = (Raise (KeyError "success"), demo_world).
Proof. vm_compute. reflexivity. Qed.

(** ** The image normaliser: the two passes *)

Section Normalizer.
Context {libs : Libs} {floats : FloatModel}.
Import NormalizerSpec.








Lemma after_nil (w : World) : after w [] = w.
Proof. unfold after. rewrite app_nil_r. now destruct w. Qed.



















End Normalizer.


(** The run of the scenario: one resize to 2400 x 1500 between the two
    encodes, and the second encode is what comes back. *)
Example compress_image_page_run :
  Transcriber.compress_image "in/page.png" one_byte 85 page_world
  = (Ok "JFIF0123456789abcdef",
     NormalizerSpec.after page_world
       [EvOpen "in/page.png"; EvTranspose page_image; EvSave page_image 85;
        EvResize page_image 2400 1500;
        EvSave (mkImage "RGB" 2400 1500 "0123456789abcdef") 85]).
Proof. vm_compute. reflexivity. Qed.

(** Where the ratio is rounded, the product [4231 * ratio] falls just short
    of 2400 and [int] truncates it: the longer side comes out at 2399. *)
Example compress_image_scan_run :
  Transcriber.compress_image "in/scan.png" one_byte 85 scan_world
  = (Ok "JFIF0123456789abcdef",
     NormalizerSpec.after scan_world
       [EvOpen "in/scan.png"; EvTranspose scan_image; EvSave scan_image 85;
        EvResize scan_image 2399 1701;
        EvSave (mkImage "RGB" 2399 1701 "0123456789abcdef") 85]).
Proof. vm_compute. reflexivity. Qed.

(** C6, at the failing input.  A strip of 5000 x 2 pixels whose first encode
    is over the budget: the scaled height is [int(2 * 0.48) = 0], the resize
    is asked for 2400 x 0, Pillow refuses, and the exception leaves
    [compress_image] after one encode.  No second encode is made and no
    bytes are returned. *)
Theorem compress_image_strip_run :
  pil_save_jpeg strip_image 85 = Ok "JFIF0123456789abcdef"
  ∧ Transcriber.over_budget "JFIF0123456789abcdef" one_byte = true
  ∧ Transcriber.compress_image "in/strip.png" one_byte 85 strip_world
    = (Raise (Exception "ValueError" "height and width must be > 0"),
       NormalizerSpec.after strip_world
         [EvOpen "in/strip.png"; EvTranspose strip_image; EvSave strip_image 85;
          EvResize strip_image 2400 0]).
Proof. vm_compute. repeat split; reflexivity. Qed.

(** ** The job lifecycle: one run *)

Section Run.
Context {libs : Libs} {service : Anthropic} {floats : FloatModel}.
Variable settings : Config.Settings.
Import Routes LifecycleSpec.

Lemma assign_ok (job_id : string) (f : Job → Job) (s : Server) (j : Job) :
  jobs s !! job_id = Some j →
  assign job_id f s
  = (Ok tt, mkServer (<[job_id := f j]> (jobs s)) (world s) (tasks s)
                     (history s ++ [<[job_id := f j]> (jobs s)])).
Proof. unfold assign. now intros ->. Qed.


Lemma stored_start (job_id : string) (s : Server) (j0 : Job) :
  jobs s !! job_id = Some j0 → s = stored job_id s (world s) j0 [].
Proof.
  intros Hj. unfold stored. simpl. rewrite insert_id by exact Hj.
  rewrite app_nil_r. now destruct s.
Qed.

Lemma assign_stored (job_id : string) (f : Job → Job) (s : Server) (w : World)
    (j0 : Job) (js : list Job) :
  assign job_id f (stored job_id s w j0 js)
  = (Ok tt, stored job_id s w j0 (js ++ [f (default j0 (last js))])).
Proof.
  unfold assign, stored. simpl. rewrite lookup_insert_eq.
  rewrite last_snoc. simpl. rewrite insert_insert_eq.
  now rewrite fmap_app, app_assoc.
Qed.

Lemma zoom_stored {A} (m : M A) (job_id : string) (s : Server) (w w' : World)
    (j0 : Job) (js : list Job) (r : result A) :
  m w = (r, w') →
  zoom m (stored job_id s w j0 js) = (r, stored job_id s w' j0 js).
Proof. intros E. unfold zoom, stored. simpl. now rewrite E. Qed.

(** One run of the background task on a registered job: it returns
    normally, leaves the world the pipeline left, and stores the values of
    [run_snapshots] one after the other. *)
Lemma process_transcription_job_run (job_id image_dir : string) (s : Server) (j0 : Job) :
  jobs s !! job_id = Some j0 →
  process_transcription_job settings job_id image_dir s
  = (Ok tt,
     stored job_id s (pipeline settings job_id image_dir (world s)).2 j0
       (run_snapshots j0 (pipeline settings job_id image_dir (world s)).1)).
Proof.
  intros Hj. rewrite (stored_start job_id s j0 Hj) at 1.
  unfold process_transcription_job.
  destruct (Service.init settings job_id (world s)) as [[svc|e] w1] eqn:Einit.
  - destruct (Service.process_images svc image_dir "transcription" w1)
      as [[[results text]|e] w2] eqn:Eproc.
    + assert (Hp : pipeline settings job_id image_dir (world s) = (Ok (results, text), w2)).
      { unfold pipeline. rewrite (bind_ok _ _ _ _ _ Einit). exact Eproc. }
      rewrite Hp. erewrite try_except_ok; [reflexivity|].
      rewrite (bind_ok _ _ _ _ tt (assign_stored _ _ _ _ _ _)).
      rewrite (bind_ok _ _ _ _ tt (assign_stored _ _ _ _ _ _)).
      erewrite bind_ok; [|apply zoom_stored, Einit].
      erewrite bind_ok; [|apply zoom_stored, Eproc].
      cbv beta iota.
      rewrite (bind_ok _ _ _ _ tt (assign_stored _ _ _ _ _ _)).
      rewrite (bind_ok _ _ _ _ tt (assign_stored _ _ _ _ _ _)).
      rewrite (bind_ok _ _ _ _ tt (assign_stored _ _ _ _ _ _)).
      rewrite (bind_ok _ _ _ _ tt (assign_stored _ _ _ _ _ _)).
      rewrite assign_stored. reflexivity.
    + assert (Hp : pipeline settings job_id image_dir (world s) = (Raise e, w2)).
      { unfold pipeline. rewrite (bind_ok _ _ _ _ _ Einit). exact Eproc. }
      rewrite Hp. erewrite try_except_raise.
      2:{ rewrite (bind_ok _ _ _ _ tt (assign_stored _ _ _ _ _ _)).
          rewrite (bind_ok _ _ _ _ tt (assign_stored _ _ _ _ _ _)).
          erewrite bind_ok; [|apply zoom_stored, Einit].
          erewrite bind_raise; [reflexivity|].
          apply zoom_stored, Eproc. }
      rewrite (bind_ok _ _ _ _ tt (assign_stored _ _ _ _ _ _)).
      rewrite assign_stored. reflexivity.
  - assert (Hp : pipeline settings job_id image_dir (world s) = (Raise e, w1)).
    { unfold pipeline. now rewrite (bind_raise _ _ _ _ _ Einit). }
    rewrite Hp. erewrite try_except_raise.
    2:{ rewrite (bind_ok _ _ _ _ tt (assign_stored _ _ _ _ _ _)).
        rewrite (bind_ok _ _ _ _ tt (assign_stored _ _ _ _ _ _)).
        erewrite bind_raise; [reflexivity|].
        apply zoom_stored, Einit. }
    rewrite (bind_ok _ _ _ _ tt (assign_stored _ _ _ _ _ _)).
    rewrite assign_stored. reflexivity.
Qed.

Lemma filter_none {A} (f : A → bool) (l : list A) :
  (∀ x, x ∈ l → f x = false) → filter (λ x, f x) l = [].
Proof.
  induction l as [|x l IH]; intros Hall; [reflexivity|].
  rewrite filter_cons. rewrite decide_False.
  - apply IH. intros y Hy. apply Hall. now right.
  - rewrite (Hall x); [exact id | now left].
Qed.

Lemma service_init_ok (job_id : string) (w : World) :
  Config.ANTHROPIC_API_KEY settings ≠ "" →
  ∃ svc,
    Service.init settings job_id w
    = (Ok svc,
       mkWorld (files w)
               ({[PyPath.joinpath (Config.OUTPUT_DIR settings) job_id]} ∪ dirs w)
               (clock w) (served w) (log w))
    ∧ Service.job_id svc = job_id.
Proof.
  intros Hkey. unfold Service.init, Transcriber.init.
  assert (Hneq : String.eqb (Config.ANTHROPIC_API_KEY settings) "" = false)
    by now apply String.eqb_neq.
  rewrite Hneq. cbv beta iota zeta. rewrite Hneq. eexists. split; reflexivity.
Qed.

Lemma process_images_none (svc : Service.TranscriptionService) (image_dir name : string)
    (w : World) :
  image_dir ∈ dirs w →
  no_images w image_dir →
  Service.process_images svc image_dir name w = (Ok ([], ""), w).
Proof.
  intros Hdir Hnone. unfold Service.process_images.
  erewrite bind_ok.
  2:{ unfold sorted_iterdir. rewrite decide_True by exact Hdir. reflexivity. }
  rewrite filter_none; [reflexivity|].
  intros p Hp. apply Hnone.
  rewrite merge_sort_Permutation in Hp. now apply elem_of_elements in Hp.
Qed.

(** C4, as the code has it.  A run on a registered job whose upload
    directory exists and holds no valid image (with an API key configured
    and a job id that is no image name) does not fail: it returns normally
    and ends in [completed], with an empty result list, an empty compiled
    text, a processed count of 0 and the message of a successful run.  The
    job never passes through [failed]. *)
Theorem job_without_images_completes (s : Server) (job_id image_dir : string) (job : Job) :
  jobs s !! job_id = Some job →
  Config.ANTHROPIC_API_KEY settings ≠ "" →
  image_dir ∈ dirs (world s) →
  no_images (world s) image_dir →
  Transcriber.is_image Config.ALLOWED_EXTENSIONS
    (PyPath.joinpath (Config.OUTPUT_DIR settings) job_id) = false →
  ∃ s',
    process_transcription_job settings job_id image_dir s = (Ok tt, s')
    ∧ jobs s' !! job_id
      = Some (mkJob COMPLETED (total_images job) 0 (Some []) (Some "")
                    "Transcription completed successfully")
    ∧ history s'
      = history s ++ ((λ j, <[job_id := j]> (jobs s)) <$> run_snapshots job (Ok ([], "")))
    ∧ Forall (λ j, status j ≠ FAILED) (run_snapshots job (Ok ([], ""))).
Proof.
  intros Hjob Hkey Hdir Hnone Hout.
  destruct (service_init_ok job_id (world s) Hkey) as (svc & Hinit & _).
  set (w1 := mkWorld (files (world s))
               ({[PyPath.joinpath (Config.OUTPUT_DIR settings) job_id]} ∪ dirs (world s))
               (clock (world s)) (served (world s)) (log (world s))) in *.
  assert (Hpipe : pipeline settings job_id image_dir (world s) = (Ok ([], ""), w1)).
  { unfold pipeline. rewrite (bind_ok _ _ _ _ _ Hinit).
    apply process_images_none.
    - simpl. set_solver.
    - intros p Hp. unfold entries in Hp. simpl in Hp.
      apply elem_of_filter in Hp as [Hpar Hp].
      destruct (decide (p = PyPath.joinpath (Config.OUTPUT_DIR settings) job_id)) as [->|Hne].
      + exact Hout.
      + apply Hnone. unfold entries. apply elem_of_filter. split; [exact Hpar|].
        set_solver. }
  eexists. split; [|split; [|split]].
  - rewrite (process_transcription_job_run job_id image_dir s job Hjob), Hpipe. reflexivity.
  - unfold stored. simpl. now rewrite lookup_insert_eq.
  - reflexivity.
  - simpl. repeat constructor; discriminate.
Qed.

End Run.

(** A job whose upload directory holds no valid image ends [completed],
    not [failed]. *)
Lemma job_without_images_is_completed :
  Routes.jobs
    (Routes.process_transcription_job (service := silent_service) demo_settings
       "job1" "/srv/backend/uploads/job1" notes_server).2 !! "job1"
  = Some (Routes.mkJob COMPLETED 1 0 (Some []) (Some "")
                       "Transcription completed successfully").
Proof. vm_compute. reflexivity. Qed.

Lemma notes_world_has_no_images :
  LifecycleSpec.no_images notes_world "/srv/backend/uploads/job1".
Proof.
  intros p Hp. unfold entries in Hp. apply elem_of_filter in Hp as [Hpar Hp].
  unfold notes_world in Hp. simpl in Hp. rewrite dom_singleton_L in Hp.
  repeat (apply elem_of_union in Hp as [Hp|Hp]);
    apply elem_of_singleton in Hp; subst p;
    first [reflexivity | vm_compute in Hpar; discriminate].
Qed.

Lemma job_without_images_completes_witness :
  (Config.ANTHROPIC_API_KEY demo_settings ≠ ""
   ∧ "/srv/backend/uploads/job1" ∈ dirs (Routes.world notes_server))
  ∧ ∃ s',
      Routes.process_transcription_job (service := silent_service) demo_settings
        "job1" "/srv/backend/uploads/job1" notes_server = (Ok tt, s')
      ∧ Routes.jobs s' !! "job1"
        = Some (Routes.mkJob COMPLETED 1 0 (Some []) (Some "")
                             "Transcription completed successfully").
Proof.
  assert (Hkey : Config.ANTHROPIC_API_KEY demo_settings ≠ "") by discriminate.
  assert (Hdir : "/srv/backend/uploads/job1" ∈ dirs (Routes.world notes_server))
    by by_decision.
  split; [auto|].
  destruct (job_without_images_completes (service := silent_service) demo_settings
              notes_server "job1" "/srv/backend/uploads/job1" pending_job)
    as (s' & Hrun & Hjob & _); try assumption.
  - reflexivity.
  - exact notes_world_has_no_images.
  - reflexivity.
  - exists s'. split; assumption.
Defined.

(** ** Paths *)

Lemma rsplit_some (c : ascii) (s l r : string) :
  PyStr.rsplit c s = Some (l, r) → s = l +:+ String c r.
Proof.
  revert l r. induction s as [|a s IH]; intros l r; simpl; [discriminate|].
  destruct (PyStr.rsplit c s) as [[l' r']|].
  - intros [= <- <-]. rewrite append_cons. f_equal. now apply IH.
  - destruct (Ascii.eqb_spec a c) as [->|]; [|discriminate].
    now intros [= <- <-].
Qed.

Lemma rsplit_append (c : ascii) (l r : string) :
  PyStr.rsplit c r = None → PyStr.rsplit c (l +:+ String c r) = Some (l, r).
Proof.
  intros Hr. induction l as [|a l IH].
  - change ("" +:+ String c r) with (String c r). simpl. rewrite Hr.
    now rewrite Ascii.eqb_refl.
  - rewrite append_cons. simpl. now rewrite IH.
Qed.

Lemma joinpath_append (d n : string) : PyPath.joinpath d n = d +:+ String "/" n.
Proof. reflexivity. Qed.

Lemma name_joinpath (d n : string) :
  LifecycleSpec.plain_name n → PyPath.name (PyPath.joinpath d n) = n.
Proof.
  intros Hn. unfold PyPath.name. rewrite joinpath_append.
  now rewrite (rsplit_append "/" d n Hn).
Qed.

Lemma parent_joinpath (d n : string) :
  LifecycleSpec.plain_name n → PyPath.parent (PyPath.joinpath d n) = d.
Proof.
  intros Hn. unfold PyPath.parent. rewrite joinpath_append.
  now rewrite (rsplit_append "/" d n Hn).
Qed.

Lemma suffix_joinpath (d n : string) :
  LifecycleSpec.plain_name n → PyPath.suffix (PyPath.joinpath d n) = PyPath.suffix n.
Proof.
  intros Hn. unfold PyPath.suffix. rewrite (name_joinpath d n Hn).
  unfold PyPath.name. unfold LifecycleSpec.plain_name in Hn. now rewrite Hn.
Qed.

(** A path that lies directly under [d] is [d], a separator and a name. *)
Lemma parent_inv (p d : string) :
  PyPath.parent p = d → d ≠ "." → ∃ n, p = PyPath.joinpath d n.
Proof.
  unfold PyPath.parent. destruct (PyStr.rsplit "/" p) as [[l r]|] eqn:E.
  - intros <- _. exists r. now apply rsplit_some.
  - intros <- Hd. now contradiction Hd.
Qed.

Lemma joinpath_inj (d : string) : Inj (=) (=) (PyPath.joinpath d).
Proof.
  intros n1 n2 Heq. rewrite !joinpath_append in Heq.
  apply String.app_inj in Heq. now injection Heq.
Qed.

Lemma joinpath_not_self (d n : string) : PyPath.joinpath d n ≠ d.
Proof.
  intros Heq. apply (f_equal String.length) in Heq.
  rewrite joinpath_append, length_append in Heq. simpl in Heq. lia.
Qed.

(** ** The job lifecycle: from upload to the end of the run *)

Section Upload.
Variable settings : Config.Settings.
Import Routes LifecycleSpec.

Lemma validate_types_ok (fs : list UploadFile) (s s' : Server) :
  validate_types fs s = (Ok tt, s') →
  s' = s
  ∧ Forall (λ f, PyStr.lower (PyPath.suffix (filename f)) ∈ Config.ALLOWED_EXTENSIONS) fs.
Proof.
  induction fs as [|f fs IH]; simpl.
  - intros [= <-]. split; [reflexivity | constructor].
  - destruct (bool_decide _) eqn:E; [|discriminate].
    intros Hrest. apply IH in Hrest as [-> Hall]. split; [reflexivity|].
    constructor; [|exact Hall]. now apply bool_decide_eq_true in E.
Qed.

Lemma save_files_ok (d : string) (fs : list UploadFile) :
  ∀ (acc saved : list string) (s s' : Server),
  save_files d fs acc s = (Ok saved, s') →
  jobs s' = jobs s ∧ tasks s' = tasks s ∧ history s' = history s
  ∧ files (world s') = uploaded d fs (files (world s))
  ∧ dirs (world s') = dirs (world s).
Proof.
  induction fs as [|f fs IH]; intros acc saved s s'; simpl.
  - intros [= _ <-]. auto.
  - destruct (Config.MAX_UPLOAD_SIZE <? _).
    + unfold bind, zoom, write_file, raise. simpl. discriminate.
    + unfold bind at 1. unfold zoom at 1. unfold write_file at 1. simpl.
      intros Hrest. apply IH in Hrest as (Hj & Ht & Hh & Hf & Hd). simpl in *.
      auto.
Qed.

Lemma upload_images_ok (uuid : string) (fs : list UploadFile) (s0 s1 : Server)
    (resp : string * string * Z) :
  upload_images settings uuid fs true s0 = (Ok resp, s1) →
  let job_dir := PyPath.joinpath (Config.UPLOAD_DIR settings) uuid in
  fs ≠ []
  ∧ Forall (λ f, PyStr.lower (PyPath.suffix (filename f)) ∈ Config.ALLOWED_EXTENSIONS) fs
  ∧ jobs s1 = <[uuid := fresh_job (length fs)]> (jobs s0)
  ∧ history s1 = history s0 ++ [<[uuid := fresh_job (length fs)]> (jobs s0)]
  ∧ files (world s1) = uploaded job_dir fs (files (world s0))
  ∧ dirs (world s1) = {[job_dir]} ∪ dirs (world s0).
Proof.
  intros Hup job_dir. unfold upload_images in Hup.
  destruct fs as [|f0 fs0] eqn:Efs; [discriminate|]. rewrite <- Efs in *.
  assert (Hne : fs ≠ []) by (rewrite Efs; discriminate). clear Efs.
  unfold bind at 1 in Hup.
  destruct (validate_types fs s0) as [[[]|e] sv] eqn:Ev; [|discriminate].
  apply validate_types_ok in Ev as [-> Hvalid].
  unfold bind at 1 in Hup. unfold zoom at 1, mkdir at 1 in Hup. simpl in Hup.
  unfold bind at 1 in Hup.
  destruct (save_files _ fs [] _) as [[saved|e] sf] eqn:Es; [|discriminate].
  apply save_files_ok in Es as (Hj & Ht & Hh & Hf & Hd). simpl in *.
  unfold bind, register, add_task, ret in Hup. simpl in Hup.
  injection Hup as _ <-. simpl.
  rewrite Hj, Hh, Hf, Hd. repeat split; assumption.
Qed.

End Upload.

Section Listing.
Context {libs : Libs} {service : Anthropic} {floats : FloatModel}.
Variable settings : Config.Settings.
Import Routes LifecycleSpec.

Lemma dom_uploaded (d : string) (fs : list UploadFile) :
  ∀ m : gmap string string,
  dom (uploaded d fs m)
  = dom m ∪ list_to_set ((λ f, PyPath.joinpath d (filename f)) <$> fs).
Proof.
  induction fs as [|f fs IH]; intros m.
  - rewrite fmap_nil, list_to_set_nil. unfold uploaded. simpl. set_solver.
  - rewrite fmap_cons, list_to_set_cons.
    change (uploaded d (f :: fs) m)
      with (uploaded d fs (<[PyPath.joinpath d (filename f) := content f]> m)).
    rewrite IH, dom_insert_L. set_solver.
Qed.

Lemma size_list_to_set_le (l : list string) :
  (size (list_to_set l : gset string) ≤ length l)%nat.
Proof.
  induction l as [|x l IH].
  - rewrite list_to_set_nil, size_empty. simpl. lia.
  - rewrite list_to_set_cons. cbn [length].
    destruct (decide (x ∈ (list_to_set l : gset string))) as [Hin|Hnin].
    + replace ({[x]} ∪ list_to_set l) with (list_to_set l : gset string) by set_solver. lia.
    + rewrite size_union by set_solver. rewrite size_singleton. lia.
Qed.

Lemma size_list_to_set_inj (f : string → string) `{!Inj (=) (=) f} (l : list string) :
  size (list_to_set (f <$> l) : gset string) = size (list_to_set l : gset string).
Proof.
  induction l as [|x l IH]; [reflexivity|].
  rewrite fmap_cons, !list_to_set_cons.
  destruct (decide (x ∈ (list_to_set l : gset string))) as [Hin|Hnin].
  - replace ({[x]} ∪ list_to_set l) with (list_to_set l : gset string) by set_solver.
    replace ({[f x]} ∪ list_to_set (f <$> l)) with (list_to_set (f <$> l) : gset string).
    + exact IH.
    + assert (f x ∈ (list_to_set (f <$> l) : gset string)); [|set_solver].
      apply elem_of_list_to_set, list_elem_of_fmap. exists x. split; [reflexivity|].
      now apply elem_of_list_to_set in Hin.
  - assert (Hf : f x ∉ (list_to_set (f <$> l) : gset string)).
    { intros Hin. apply elem_of_list_to_set, list_elem_of_fmap in Hin as (y & Hxy & Hy).
      apply (inj f) in Hxy as ->. apply Hnin. now apply elem_of_list_to_set. }
    rewrite !size_union by set_solver. rewrite !size_singleton. now rewrite IH.
Qed.

Lemma length_filter_all {A} (f : A → bool) (l : list A) :
  (∀ x, x ∈ l → f x = true) → length (filter (λ x, f x) l) = length l.
Proof.
  induction l as [|x l IH]; intros Hall; [reflexivity|].
  rewrite filter_cons, decide_True.
  - simpl. f_equal. apply IH. intros y Hy. apply Hall. now right.
  - rewrite (Hall x); [exact I | now left].
Qed.

(** In the world the pipeline lists, the directory of a freshly uploaded
    job holds exactly the uploaded names. *)
Lemma entries_after_upload (uuid : string) (fs : list UploadFile) (w0 w : World) :
  let job_dir := PyPath.joinpath (Config.UPLOAD_DIR settings) uuid in
  let out := PyPath.joinpath (Config.OUTPUT_DIR settings) uuid in
  entries w0 job_dir = ∅ →
  Forall (λ f, plain_name (filename f)) fs →
  files w = uploaded job_dir fs (files w0) →
  dirs w = {[out]} ∪ ({[job_dir]} ∪ dirs w0) →
  entries w job_dir = list_to_set ((λ f, PyPath.joinpath job_dir (filename f)) <$> fs).
Proof.
  intros job_dir out Hfresh Hplain Hfiles Hdirs.
  assert (Hdot : job_dir ≠ ".").
  { intros Heq. apply (f_equal String.length) in Heq.
    unfold job_dir, Config.UPLOAD_DIR in Heq.
    rewrite !joinpath_append, !length_append in Heq. simpl in Heq. lia. }
  apply set_eq. intros p. unfold entries. rewrite elem_of_filter, Hfiles, Hdirs, dom_uploaded.
  split.
  - intros [Hpar Hp].
    assert (Hold : p ∉ dom (files w0) ∪ dirs w0).
    { intros Hin. assert (p ∈ entries w0 job_dir); [|set_solver].
      unfold entries. now apply elem_of_filter. }
    destruct (parent_inv p job_dir Hpar Hdot) as [n ->].
    assert (Hself : PyPath.joinpath job_dir n ≠ job_dir) by apply joinpath_not_self.
    assert (Hout : PyPath.joinpath job_dir n ≠ out).
    { unfold job_dir, out, Config.UPLOAD_DIR, Config.OUTPUT_DIR.
      rewrite !joinpath_append, !append_assoc. intros Heq.
      apply String.app_inj in Heq. vm_compute in Heq. discriminate. }
    set_solver.
  - intros Hp. apply elem_of_list_to_set, list_elem_of_fmap in Hp as (f & -> & Hf).
    rewrite Forall_forall in Hplain.
    split; [apply parent_joinpath, Hplain, Hf|].
    apply elem_of_union_l, elem_of_union_r, elem_of_list_to_set, list_elem_of_fmap.
    now exists f.
Qed.

Lemma images_after_upload (uuid : string) (fs : list UploadFile) (w0 w : World) :
  let job_dir := PyPath.joinpath (Config.UPLOAD_DIR settings) uuid in
  let out := PyPath.joinpath (Config.OUTPUT_DIR settings) uuid in
  entries w0 job_dir = ∅ →
  Forall (λ f, plain_name (filename f)) fs →
  Forall (λ f, PyStr.lower (PyPath.suffix (filename f)) ∈ Config.ALLOWED_EXTENSIONS) fs →
  files w = uploaded job_dir fs (files w0) →
  dirs w = {[out]} ∪ ({[job_dir]} ∪ dirs w0) →
  length (filter (λ p, Transcriber.is_image Config.ALLOWED_EXTENSIONS p)
            (merge_sort String.le (elements (entries w job_dir))))
  = size (list_to_set (filename <$> fs) : gset string).
Proof.
  intros job_dir out Hfresh Hplain Hvalid Hfiles Hdirs.
  pose proof (entries_after_upload uuid fs w0 w Hfresh Hplain Hfiles Hdirs) as He.
  cbv zeta in He. fold job_dir in He. rewrite He. rewrite length_filter_all.
  - rewrite merge_sort_Permutation.
    change (length (elements ?X)) with (size X).
    rewrite (list_fmap_compose filename (PyPath.joinpath job_dir)).
    apply (size_list_to_set_inj (PyPath.joinpath job_dir)).
  - intros p Hp. rewrite merge_sort_Permutation in Hp.
    apply elem_of_elements, elem_of_list_to_set, list_elem_of_fmap in Hp as (f & -> & Hf).
    rewrite Forall_forall in Hplain, Hvalid.
    unfold Transcriber.is_image. rewrite (suffix_joinpath _ _ (Hplain f Hf)).
    apply bool_decide_eq_true, Hvalid, Hf.
Qed.

(** When [process_images] returns, it returns one result per listed image. *)
Lemma process_images_length (svc : Service.TranscriptionService) (d name : string)
    (w w' : World) (results : list PyDict) (text : string) :
  Service.process_images svc d name w = (Ok (results, text), w') →
  length results
  = length (filter (λ p, Transcriber.is_image Config.ALLOWED_EXTENSIONS p)
              (merge_sort String.le (elements (entries w d)))).
Proof.
  unfold Service.process_images, bind at 1, sorted_iterdir.
  destruct (decide (d ∈ dirs w)) as [Hd|Hd];
    [|destruct (decide (d ∈ dom (files w))); discriminate].
  set (paths := filter _ _). destruct paths as [|p ps] eqn:Ep.
  - now intros [= <- _ _].
  - rewrite <- Ep. clear Ep. unfold Transcriber.transcribe_batch.
    destruct (transcribe_loop_spec (Service.transcriber svc) 10 ltac:(discriminate)
                paths 1 [] w) as (items & wb & Hrun & Hlen & _).
    rewrite (bind_ok _ _ _ _ _ Hrun). simpl app. unfold bind.
    destruct (Transcriber.compile_results items _ wb) as [[doc|e] wc]; [|discriminate].
    destruct (Transcriber.save_output _ doc name wc) as [[paths'|e] ws]; [|discriminate].
    now intros [= <- _ _].
Qed.

Lemma service_init_world (job_id : string) (w w' : World)
    (svc : Service.TranscriptionService) :
  Service.init settings job_id w = (Ok svc, w') →
  files w' = files w
  ∧ dirs w' = {[PyPath.joinpath (Config.OUTPUT_DIR settings) job_id]} ∪ dirs w.
Proof.
  unfold Service.init, Transcriber.init.
  destruct (String.eqb (Config.ANTHROPIC_API_KEY settings) "") eqn:E;
    cbv beta iota zeta; rewrite ?E.
  - unfold bind, raise. discriminate.
  - unfold bind, mkdir, ret. simpl. now intros [= _ <-].
Qed.

Lemma pipeline_length (uuid : string) (fs : list UploadFile) (w0 w w' : World)
    (results : list PyDict) (text : string) :
  let job_dir := PyPath.joinpath (Config.UPLOAD_DIR settings) uuid in
  entries w0 job_dir = ∅ →
  Forall (λ f, plain_name (filename f)) fs →
  Forall (λ f, PyStr.lower (PyPath.suffix (filename f)) ∈ Config.ALLOWED_EXTENSIONS) fs →
  files w = uploaded job_dir fs (files w0) →
  dirs w = {[job_dir]} ∪ dirs w0 →
  pipeline settings uuid job_dir w = (Ok (results, text), w') →
  length results = size (list_to_set (filename <$> fs) : gset string).
Proof.
  intros job_dir Hfresh Hplain Hvalid Hfiles Hdirs. unfold pipeline, bind at 1.
  destruct (Service.init settings uuid w) as [[svc|e] w1] eqn:Einit; [|discriminate].
  apply service_init_world in Einit as [Hf1 Hd1].
  intros Hproc. apply process_images_length in Hproc. rewrite Hproc.
  apply (images_after_upload uuid fs w0 w1 Hfresh Hplain Hvalid).
  - now rewrite Hf1.
  - now rewrite Hd1, Hdirs.
Qed.

(** C2, as the code has it.  A job is uploaded under a fresh id with plain
    file names, and its background task runs.  Then the values of the job
    record that can be observed are the registered one followed by those of
    [run_snapshots]; along them [processed_images] never exceeds
    [total_images] and never decreases; while the state is [processing]
    there is no result list yet and the count is still 0; and when the run
    has ended in [completed] the count is the length of the result list, and
    it equals [total_images] when no two uploads share a name. *)
Theorem upload_then_run_counts (uuid : string) (fs : list UploadFile) (s0 s1 : Server)
    (resp : string * string * Z) :
  let job_dir := PyPath.joinpath (Config.UPLOAD_DIR settings) uuid in
  entries (world s0) job_dir = ∅ →
  Forall (λ f, plain_name (filename f)) fs →
  upload_images settings uuid fs true s0 = (Ok resp, s1) →
  let outcome := (pipeline settings uuid job_dir (world s1)).1 in
  let s2 := (process_transcription_job settings uuid job_dir s1).2 in
  let obs := fresh_job (length fs) :: run_snapshots (fresh_job (length fs)) outcome in
    history s2 = history s0 ++ ((λ j, <[uuid := j]> (jobs s0)) <$> obs)
    ∧ Forall (λ j, processed_images j <= total_images j) obs
    ∧ StronglySorted Z.le (processed_images <$> obs)
    ∧ Forall (λ j, status j = PROCESSING → results j = None ∧ processed_images j = 0) obs
    ∧ ∀ j, last obs = Some j → status j = COMPLETED →
        (∃ rs, results j = Some rs ∧ processed_images j = Z.of_nat (length rs))
        ∧ (NoDup (filename <$> fs) → processed_images j = total_images j).
Proof.
  intros job_dir Hfresh Hplain Hup.
  apply upload_images_ok in Hup as (Hne & Hvalid & Hjobs & Hhist & Hfiles & Hdirs).
  fold job_dir in Hfiles, Hdirs.
  assert (Hjob : jobs s1 !! uuid = Some (fresh_job (length fs)))
    by now rewrite Hjobs, lookup_insert_eq.
  rewrite (process_transcription_job_run settings uuid job_dir s1 _ Hjob).
  cbv zeta. cbn [snd].
  destruct (pipeline settings uuid job_dir (world s1)) as [outcome w2] eqn:Epipe.
  cbn [fst snd].
  split.
  { unfold stored. cbn [history]. rewrite Hhist, <- app_assoc. f_equal.
    rewrite fmap_cons. cbn [app]. f_equal.
    apply list_fmap_ext. intros k j _. now rewrite Hjobs, insert_insert_eq. }
  destruct outcome as [[results text]|e].
  - pose proof (pipeline_length uuid fs (world s0) (world s1) w2 results text
                  Hfresh Hplain Hvalid Hfiles Hdirs Epipe) as Hlen.
    pose proof (size_list_to_set_le (filename <$> fs)) as Hle.
    rewrite length_fmap in Hle.
    split; [|split; [|split]].
    + unfold run_snapshots, fresh_job. repeat constructor; simpl; lia.
    + unfold run_snapshots, fresh_job. simpl. repeat constructor; lia.
    + unfold run_snapshots, fresh_job.
      repeat constructor; simpl; intros; try discriminate; auto.
    + intros j Hlast Hst. unfold run_snapshots in Hlast. simpl in Hlast.
      injection Hlast as <-. simpl. split; [now exists results|].
      intros Hnodup. rewrite Hlen, (size_list_to_set _ Hnodup), length_fmap. reflexivity.
  - split; [|split; [|split]].
    + unfold run_snapshots, fresh_job. repeat constructor; simpl; lia.
    + unfold run_snapshots, fresh_job. simpl. repeat constructor; lia.
    + unfold run_snapshots, fresh_job.
      repeat constructor; simpl; intros; try discriminate; auto.
    + intros j Hlast Hst. unfold run_snapshots in Hlast. simpl in Hlast.
      injection Hlast as <-. discriminate.
Qed.

End Listing.

Lemma upload_then_run_counts_witness :
  let job_dir := PyPath.joinpath (Config.UPLOAD_DIR demo_settings) "job1" in
  let s1 := (Routes.upload_images demo_settings "job1" three_uploads true idle_server).2 in
  (entries demo_world job_dir = ∅
   ∧ Forall (λ f, LifecycleSpec.plain_name (Routes.filename f)) three_uploads
   ∧ Routes.upload_images demo_settings "job1" three_uploads true idle_server
     = (Ok ("job1", "Files uploaded successfully", 3), s1))
  ∧ ∀ j,
      last (LifecycleSpec.fresh_job 3
            :: LifecycleSpec.run_snapshots (LifecycleSpec.fresh_job 3)
                 (LifecycleSpec.pipeline (service := three_replies) demo_settings
                    "job1" job_dir (Routes.world s1)).1) = Some j →
      Routes.status j = COMPLETED →
      Routes.processed_images j = Routes.total_images j.
Proof.
  intros job_dir s1.
  assert (H1 : entries demo_world job_dir = ∅) by (vm_compute; reflexivity).
  assert (H2 : Forall (λ f, LifecycleSpec.plain_name (Routes.filename f)) three_uploads)
    by (repeat constructor).
  assert (H3 : Routes.upload_images demo_settings "job1" three_uploads true idle_server
               = (Ok ("job1", "Files uploaded successfully", 3), s1))
    by (vm_compute; reflexivity).
  split; [auto|].
  destruct (upload_then_run_counts (service := three_replies) demo_settings "job1"
              three_uploads idle_server s1 _ H1 H2 H3) as (_ & _ & _ & _ & Hlast).
  intros j Hj Hst. destruct (Hlast j Hj Hst) as (_ & Hall).
  apply Hall. unfold three_uploads. rewrite !fmap_cons. cbn [Routes.filename fmap list_fmap].
  repeat (apply NoDup_cons; split; [by_decision|]). apply NoDup_nil_2.
Defined.

(** What a client polling the job can see, one entry per assignment to the
    record: state, total, processed count and the length of the result list.
    The state is [completed] three assignments before the count is stored,
    and no list and no count are published while the state is
    [processing]. *)
Lemma completed_is_visible_before_the_count :
  let s1 := (Routes.upload_images demo_settings "job1" three_uploads true idle_server).2 in
  let s2 := (Routes.run_next_task (service := three_replies) demo_settings s1).2 in
  (λ jobs, let job := jobs !! "job1" in
           (Routes.status <$> job, Routes.total_images <$> job,
            Routes.processed_images <$> job, length <$> (job ≫= Routes.results)))
    <$> Routes.history s2
  = [(Some PENDING, Some 3, Some 0, None);
     (Some PROCESSING, Some 3, Some 0, None);
     (Some PROCESSING, Some 3, Some 0, None);
     (Some COMPLETED, Some 3, Some 0, None);
     (Some COMPLETED, Some 3, Some 0, Some 3%nat);
     (Some COMPLETED, Some 3, Some 0, Some 3%nat);
     (Some COMPLETED, Some 3, Some 3, Some 3%nat);
     (Some COMPLETED, Some 3, Some 3, Some 3%nat)].
Proof. vm_compute. reflexivity. Qed.

(** Two uploads under one name: the second overwrites the first, and the
    run ends [completed] with one image processed out of a total of two. *)
Example same_name_uploads_complete_short :
  let s1 := (Routes.upload_images demo_settings "job1" same_name_uploads true
               idle_server).2 in
  let s2 := (Routes.run_next_task (service := three_replies) demo_settings s1).2 in
  Routes.status <$> Routes.jobs s2 !! "job1" = Some COMPLETED
  ∧ Routes.total_images <$> Routes.jobs s2 !! "job1" = Some 2
  ∧ Routes.processed_images <$> Routes.jobs s2 !! "job1" = Some 1
  ∧ length <$> (Routes.jobs s2 !! "job1" ≫= Routes.results) = Some 1%nat.
Proof. vm_compute. repeat split; reflexivity. Qed.

(** ** The content dispatcher: a failure ends the dispatch *)

Section Dispatch.
Context {libs : Libs} {service : Anthropic}.
Import ContentGen.

Lemma generate_loop_app (text out_dir : string) (ts1 ts2 : list ContentType) :
  ∀ (acc : gmap string string) (w : World),
  generate_loop text out_dir (ts1 ++ ts2) acc w
  = match generate_loop text out_dir ts1 acc w with
    | (Ok generated, w1) => generate_loop text out_dir ts2 generated w1
    | (Raise e, w1) => (Raise e, w1)
    end.
Proof.
  induction ts1 as [|t ts1 IH]; intros acc w; [reflexivity|].
  cbn [app generate_loop]. unfold bind.
  destruct (generate_one text out_dir t w) as [[[key path]|e] w0]; [|reflexivity].
  apply IH.
Qed.

Lemma generate_content_app (text out_dir : string) (ts1 ts2 : list ContentType) (w : World) :
  generate_content text (ts1 ++ ts2) out_dir w
  = match generate_content text ts1 out_dir w with
    | (Ok generated, w1) => generate_loop text out_dir ts2 generated w1
    | (Raise e, w1) => (Raise e, w1)
    end.
Proof.
  unfold generate_content, bind, mkdir.
  apply generate_loop_app.
Qed.

(** A flashcards response that does not parse: the raw response is written
    next to the JSON path and the generator raises. *)
Lemma generate_flashcards_unparsed (text path response : string) (e : exn) (w : World) :
  messages_create (served w) (Prompt (flashcards_prompt text)) = Ok response →
  parse_response response = Raise e →
  generate_flashcards text path w
  = (Raise (Exception "Exception" ("Failed to parse flashcards JSON: " +:+ exn_str e)),
     mkWorld (<[PyPath.with_suffix path ".txt" := response]> (files w)) (dirs w)
             (clock w) (S (served w))
             (log w ++ [EvRequest (Prompt (flashcards_prompt text));
                        EvWrite (PyPath.with_suffix path ".txt")])).
Proof.
  intros Hreply Hparse. unfold generate_flashcards.
  erewrite bind_ok; [|unfold ask; rewrite Hreply; reflexivity].
  erewrite try_except_raise; [|apply bind_lift_raise, Hparse].
  unfold bind, write_file, raise. simpl. now rewrite <- app_assoc.
Qed.

(** C5, as the code has it.  The content types are generated one after the
    other, and the first failure ends the dispatch: when the types [ts1]
    have been generated and the next type [t] raises, [generate_content]
    raises the same exception in the world that failure left, so the types
    after [t] are neither requested nor written and no mapping is returned.
    For flashcards whose response does not parse, that world holds the raw
    response in the [.txt] file beside [flashcards.json], and the exception
    is "Failed to parse flashcards JSON: ...". *)
Theorem generate_content_stops_at_first_failure
    (text out_dir : string) (ts1 ts2 : list ContentType) (w w1 : World)
    (generated : gmap string string) :
  generate_content text ts1 out_dir w = (Ok generated, w1) →
  (∀ t e w2,
     generate_one text out_dir t w1 = (Raise e, w2) →
     generate_content text (ts1 ++ t :: ts2) out_dir w = (Raise e, w2))
  ∧ (∀ response e,
       messages_create (served w1) (Prompt (flashcards_prompt text)) = Ok response →
       parse_response response = Raise e →
       let fallback :=
         PyPath.with_suffix (PyPath.joinpath out_dir "flashcards.json") ".txt" in
       generate_content text (ts1 ++ FLASHCARDS :: ts2) out_dir w
       = (Raise (Exception "Exception" ("Failed to parse flashcards JSON: " +:+ exn_str e)),
          mkWorld (<[fallback := response]> (files w1)) (dirs w1) (clock w1)
                  (S (served w1))
                  (log w1 ++ [EvRequest (Prompt (flashcards_prompt text));
                              EvWrite fallback]))).
Proof.
  intros Hdone.
  assert (Hstop : ∀ t e w2,
            generate_one text out_dir t w1 = (Raise e, w2) →
            generate_content text (ts1 ++ t :: ts2) out_dir w = (Raise e, w2)).
  { intros t e w2 Hfail. rewrite generate_content_app, Hdone.
    cbn [generate_loop]. now rewrite (bind_raise _ _ _ _ _ Hfail). }
  split; [exact Hstop|].
  intros response e Hreply Hparse fallback. apply Hstop.
  cbn [generate_one].
  now rewrite (bind_raise _ _ _ _ _
                 (generate_flashcards_unparsed text _ response e w1 Hreply Hparse)).
Qed.

End Dispatch.

Lemma generate_content_stops_at_first_failure_witness :
  let w1 := (ContentGen.generate_content (service := summary_then_chatty)
               "Rosetta Stone, 196 BC" [INFOGRAPHICS] content_dir content_world).2 in
  ContentGen.generate_content (service := summary_then_chatty)
    "Rosetta Stone, 196 BC" [INFOGRAPHICS] content_dir content_world
  = (Ok {[ "infographics" := "/srv/backend/outputs/job1/generated_content/infographic.md" ]},
     w1)
  ∧ (ContentGen.generate_content (service := summary_then_chatty)
       "Rosetta Stone, 196 BC" ([INFOGRAPHICS] ++ FLASHCARDS :: [VIDEO_SCRIPT])
       content_dir content_world).1
    = Raise (Exception "Exception"
               "Failed to parse flashcards JSON: Expecting value: line 1 column 1 (char 0)").
Proof.
  intros w1.
  assert (Hdone : ContentGen.generate_content (service := summary_then_chatty)
                    "Rosetta Stone, 196 BC" [INFOGRAPHICS] content_dir content_world
                  = (Ok {[ "infographics" :=
                           "/srv/backend/outputs/job1/generated_content/infographic.md" ]},
                     w1)) by (vm_compute; reflexivity).
  split; [exact Hdone|].
  destruct (generate_content_stops_at_first_failure (service := summary_then_chatty)
              "Rosetta Stone, 196 BC" content_dir [INFOGRAPHICS] [VIDEO_SCRIPT]
              content_world w1 _ Hdone) as [_ Hflash].
  rewrite (Hflash "Sorry, I cannot produce flashcards for this text."
             (Json.JSONDecodeError "Expecting value"
                "Sorry, I cannot produce flashcards for this text." 0));
    [reflexivity | reflexivity | reflexivity].
Defined.

(** Flashcards and a video script are requested; the flashcards response
    is no JSON.  The dispatch raises after one request: the raw response is
    kept as fallback, and the video script is never asked for nor written. *)
Lemma flashcards_failure_prevents_video_script :
  let run := ContentGen.generate_content (service := chatty_service)
               "Rosetta Stone, 196 BC" [FLASHCARDS; VIDEO_SCRIPT]
               content_dir content_world in
  run.1 = Raise (Exception "Exception"
                   "Failed to parse flashcards JSON: Expecting value: line 1 column 1 (char 0)")
  ∧ served run.2 = 1%nat
  ∧ files run.2 !! "/srv/backend/outputs/job1/generated_content/flashcards.txt"
    = Some "Sorry, I cannot produce flashcards for this text."
  ∧ files run.2 !! "/srv/backend/outputs/job1/generated_content/video_script.txt" = None.
Proof. vm_compute. repeat split; reflexivity. Qed.
(** ** The JSON reader: whitespace around a document *)

Module JsonFacts.
Import Json JsonSpec.

Lemma ch_true (n : nat) (c : ascii) : ch n c = true → c = ascii_of_nat n.
Proof.
  unfold ch. intros H. apply Nat.eqb_eq in H. rewrite <- H.
  symmetry. apply ascii_nat_embedding.
Qed.

Lemma is_ws_isspace (c : ascii) : is_ws c = true → PyStr.isspace c = true.
Proof.
  unfold is_ws. intros H.
  repeat (apply orb_prop in H as [H|H]); apply ch_true in H; subst; reflexivity.
Qed.

Lemma is_ws_plain (c : ascii) :
  is_ws c = true →
  ch 34 c = false ∧ ch 123 c = false ∧ ch 91 c = false ∧ ch 45 c = false
  ∧ ch 48 c = false ∧ is_digit c = false ∧ ch 46 c = false
  ∧ ch 101 c = false ∧ ch 69 c = false ∧ ch 43 c = false.
Proof.
  unfold is_ws. intros H.
  repeat (apply orb_prop in H as [H|H]); apply ch_true in H; subst; repeat split; reflexivity.
Qed.

Lemma all_ws_cons (c : ascii) (w : string) :
  all_ws (String c w) → is_ws c = true ∧ all_ws w.
Proof. unfold all_ws. cbn. destruct (is_ws c); [auto|discriminate]. Qed.

Lemma skip_ws_app (ws x : string) : all_ws ws → skip_ws (ws +:+ x) = skip_ws x.
Proof.
  induction ws as [|c ws IH]; intros H; [reflexivity|].
  apply all_ws_cons in H as [Hc Hw]. rewrite append_cons. cbn. rewrite Hc. now apply IH.
Qed.

Lemma skip_ws_split (s : string) : ∃ ws, s = ws +:+ skip_ws s ∧ all_ws ws.
Proof.
  induction s as [|c s (ws & Hs & Hw)]; [now exists ""|].
  cbn. destruct (is_ws c) eqn:Hc; [|now exists ""].
  exists (String c ws). split; [now rewrite append_cons, <- Hs|].
  unfold all_ws. cbn. now rewrite Hc.
Qed.

Lemma skip_ws_head (s : string) (c : ascii) (x : string) :
  skip_ws s = String c x → is_ws c = false.
Proof.
  induction s as [|a s IH]; [discriminate|]. cbn.
  destruct (is_ws a) eqn:Ha; [exact IH|]. now intros [= <- _].
Qed.

Lemma skip_ws_solid (c : ascii) (x : string) :
  is_ws c = false → skip_ws (String c x) = String c x.
Proof. intros H. cbn. now rewrite H. Qed.

(** [starts], one character at a time. *)
Lemma substring_full (s : string) : String.substring 0 (String.length s) s = s.
Proof. induction s as [|c s IH]; [reflexivity|]. cbn. now rewrite IH. Qed.

Lemma starts_nil (s : string) : starts "" s = Some s.
Proof.
  unfold starts, PyStr.drop. rewrite prefix_empty. cbn [String.length].
  now rewrite Nat.sub_0_r, substring_full.
Qed.

Lemma starts_cons (p c : ascii) (pre s : string) :
  starts (String p pre) (String c s) = if Ascii.eqb p c then starts pre s else None.
Proof.
  unfold starts, PyStr.drop. cbn -[Ascii.eqb].
  destruct (ascii_dec p c) as [->|Hne].
  - now rewrite Ascii.eqb_refl.
  - apply Ascii.eqb_neq in Hne. now rewrite Hne.
Qed.

Lemma starts_inv (pre s rest : string) : starts pre s = Some rest → s = pre +:+ rest.
Proof.
  revert s. induction pre as [|p pre IH]; intros s.
  - rewrite starts_nil. now intros [= ->].
  - destruct s as [|c s]; [discriminate|]. rewrite starts_cons.
    destruct (Ascii.eqb_spec p c) as [->|]; [|discriminate].
    intros H. apply IH in H. now rewrite H.
Qed.

Lemma starts_app (pre t : string) : starts pre (pre +:+ t) = Some t.
Proof.
  induction pre as [|p pre IH]; [apply starts_nil|].
  rewrite append_cons, starts_cons, Ascii.eqb_refl. exact IH.
Qed.


(** A string literal: what was read ends at its closing quote and does not
    depend on what follows. *)
Lemma scan_string_local (n : nat) :
  ∀ (s : string), (String.length s <= n)%nat →
  ∀ (st : nat) (acc str rest : string),
  scan_string st s acc = Done str rest →
  ∃ m, s = (m +:+ String (chr 34) "") +:+ rest
       ∧ ∀ st' t, scan_string st' ((m +:+ String (chr 34) "") +:+ t) acc = Done str t.
Proof.
  induction n as [|n IH]; intros s Hlen st acc str rest H.
  { destruct s; [discriminate|]. cbn in Hlen. lia. }
  destruct s as [|c r]; [discriminate|]. cbn [String.length] in Hlen.
  cbn [scan_string] in H.
  destruct (ch 34 c) eqn:E34.
  { injection H as <- <-. apply ch_true in E34 as ->. exists "". split; reflexivity. }
  destruct (ch 92 c) eqn:E92.
  - destruct r as [|e r']; [discriminate|]. cbn [String.length] in Hlen. cbv zeta in H.
    assert (Hsimple : ∀ x,
      scan_string st r' (acc +:+ String (chr x) "") = Done str rest →
      (∀ st' t' , scan_string st' (String c (String e t')) acc
                  = scan_string st' t' (acc +:+ String (chr x) "")) →
      ∃ m, String c (String e r') = (m +:+ String (chr 34) "") +:+ rest
           ∧ ∀ st' t, scan_string st' ((m +:+ String (chr 34) "") +:+ t) acc = Done str t).
    { intros x Hx Hstep. apply IH in Hx as (m & -> & Hm); [|lia].
      exists (String c (String e m)). split; [reflexivity|].
      intros st' t. rewrite !append_cons, Hstep. apply Hm. }
    destruct (ch 34 e) eqn:F34.
    { apply (Hsimple _ H). intros st' t'. cbn [scan_string]. now rewrite E34, E92, F34. }
    destruct (ch 92 e) eqn:F92.
    { apply (Hsimple _ H). intros st' t'. cbn [scan_string]. now rewrite E34, E92, F34, F92. }
    destruct (ch 47 e) eqn:F47.
    { apply (Hsimple _ H). intros st' t'. cbn [scan_string].
      now rewrite E34, E92, F34, F92, F47. }
    destruct (ch 98 e) eqn:F98.
    { apply (Hsimple _ H). intros st' t'. cbn [scan_string].
      now rewrite E34, E92, F34, F92, F47, F98. }
    destruct (ch 102 e) eqn:F102.
    { apply (Hsimple _ H). intros st' t'. cbn [scan_string].
      now rewrite E34, E92, F34, F92, F47, F98, F102. }
    destruct (ch 110 e) eqn:F110.
    { apply (Hsimple _ H). intros st' t'. cbn [scan_string].
      now rewrite E34, E92, F34, F92, F47, F98, F102, F110. }
    destruct (ch 114 e) eqn:F114.
    { apply (Hsimple _ H). intros st' t'. cbn [scan_string].
      now rewrite E34, E92, F34, F92, F47, F98, F102, F110, F114. }
    destruct (ch 116 e) eqn:F116.
    { apply (Hsimple _ H). intros st' t'. cbn [scan_string].
      now rewrite E34, E92, F34, F92, F47, F98, F102, F110, F114, F116. }
    destruct (ch 117 e) eqn:F117; [|discriminate].
    destruct r' as [|h1 [|h2 [|h3 [|h4 r'']]]]; try discriminate.
    cbn [String.length] in Hlen.
    destruct (hex_value h1) as [a|] eqn:G1; [|discriminate].
    destruct (hex_value h2) as [b|] eqn:G2; [|discriminate].
    destruct (hex_value h3) as [c'|] eqn:G3; [|discriminate].
    destruct (hex_value h4) as [d|] eqn:G4; [|discriminate].
    apply IH in H as (m & -> & Hm); [|lia].
    exists (String c (String e (String h1 (String h2 (String h3 (String h4 m)))))).
    split; [reflexivity|]. intros st' t. rewrite !append_cons. cbn [scan_string].
    rewrite E34, E92, F34, F92, F47, F98, F102, F110, F114, F116, F117, G1, G2, G3, G4.
    apply Hm.
  - destruct (nat_of_ascii c <? 32)%nat eqn:Ectl; [discriminate|].
    apply IH in H as (m & -> & Hm); [|lia].
    exists (String c m). split; [reflexivity|]. intros st' t.
    rewrite !append_cons. cbn [scan_string]. rewrite E34, E92, Ectl. apply Hm.
Qed.


(** *** Numerals *)

Lemma all_ws_head (w : string) : all_ws w → ws_head w.
Proof. destruct w as [|c w]; [easy|]. intros H. now apply all_ws_cons in H. Qed.

Lemma numeric_all_app (a b : string) :
  numeric_all (a +:+ b) = numeric_all a && numeric_all b.
Proof.
  induction a as [|c a IH]; [reflexivity|].
  rewrite append_cons. cbn. now rewrite IH, andb_assoc.
Qed.

Lemma take_digits_suffix (s ds x : string) :
  take_digits s = (ds, x) → s = ds +:+ x ∧ numeric_all ds = true.
Proof.
  revert ds x. induction s as [|c s IH]; intros ds x.
  - now intros [= <- <-].
  - cbn. destruct (is_digit c) eqn:Hc; [|now intros [= <- <-]].
    destruct (take_digits s) as [ds' x']. intros [= <- <-].
    destruct (IH ds' x' eq_refl) as [-> Hn]. split; [reflexivity|].
    cbn. unfold numeric. now rewrite Hc, Hn.
Qed.

Lemma take_digits_frame (Y w : string) :
  ws_head w →
  take_digits (Y +:+ w) = (let (ds, x) := take_digits Y in (ds, x +:+ w)).
Proof.
  intros Hw. induction Y as [|c Y IH].
  - destruct w as [|c w]; [reflexivity|].
    apply is_ws_plain in Hw as (_ & _ & _ & _ & _ & Hd & _).
    rewrite append_empty_l. cbn [take_digits]. now rewrite Hd.
  - rewrite append_cons. cbn. destruct (is_digit c); [|reflexivity].
    rewrite IH. now destruct (take_digits Y).
Qed.

Lemma scan_number_phases (s : string) :
  scan_number s
  = (let (sign, s1) := num_sign s in
     match num_int s1 with
     | None => None
     | Some (ds, rest) =>
         let (frac, rest) := num_frac rest in
         let (exp, rest) := num_exp rest in
         Some (num_value sign ds frac exp, rest)
     end).
Proof.
  unfold scan_number.
  change (match s with
          | String c r => if ch 45 c then ("-", r) else (EmptyString, s)
          | EmptyString => (EmptyString, s)
          end) with (num_sign s).
  destruct (num_sign s) as [sign s1].
  change (match s1 with
          | String c r =>
              if ch 48 c then Some ("0", r)
              else if is_digit c then Some (take_digits s1)
              else None
          | EmptyString => None
          end) with (num_int s1).
  destruct (num_int s1) as [[ds rest]|]; [|reflexivity].
  fold (num_frac rest). destruct (num_frac rest) as [frac rest2].
  fold (num_exp rest2). destruct (num_exp rest2) as [exp rest3].
  unfold num_value. destruct frac, exp; try reflexivity;
    now destruct (all_zero _).
Qed.


Lemma num_sign_frame (Y w : string) :
  ws_head w → num_sign (Y +:+ w) = (let (a, x) := num_sign Y in (a, x +:+ w)).
Proof.
  intros Hw. destruct Y as [|c Y].
  - rewrite append_empty_l. destruct w as [|c w]; [reflexivity|].
    apply is_ws_plain in Hw as (_ & _ & _ & H & _). cbn. now rewrite H.
  - rewrite append_cons. cbn. now destruct (ch 45 c).
Qed.

Lemma num_int_frame (Y w : string) :
  ws_head w →
  num_int (Y +:+ w)
  = match num_int Y with Some (ds, x) => Some (ds, x +:+ w) | None => None end.
Proof.
  intros Hw. destruct Y as [|c Y].
  - rewrite append_empty_l. destruct w as [|c w]; [reflexivity|].
    apply is_ws_plain in Hw as (_ & _ & _ & _ & H0 & Hd & _). cbn [num_int].
    now rewrite H0, Hd.
  - rewrite append_cons. cbn [num_int]. destruct (ch 48 c); [reflexivity|].
    destruct (is_digit c); [|reflexivity].
    rewrite <- append_cons, (take_digits_frame _ _ Hw).
    now destruct (take_digits (String c Y)).
Qed.

Lemma num_frac_frame (Y w : string) :
  ws_head w → num_frac (Y +:+ w) = (let (a, x) := num_frac Y in (a, x +:+ w)).
Proof.
  intros Hw. destruct Y as [|c Y].
  - rewrite append_empty_l. destruct w as [|c w]; [reflexivity|].
    apply is_ws_plain in Hw as (_ & _ & _ & _ & _ & _ & H & _). cbn [num_frac].
    now rewrite H.
  - rewrite append_cons. cbn [num_frac]. destruct (ch 46 c); [|reflexivity].
    rewrite (take_digits_frame _ _ Hw). now destruct (take_digits Y) as [[|f fs] x].
Qed.

Lemma num_exp_frame (Y w : string) :
  ws_head w → num_exp (Y +:+ w) = (let (a, x) := num_exp Y in (a, x +:+ w)).
Proof.
  intros Hw. destruct Y as [|c Y].
  - rewrite append_empty_l. destruct w as [|c w]; [reflexivity|].
    apply is_ws_plain in Hw as (_ & _ & _ & _ & _ & _ & _ & H1 & H2 & _). cbn [num_exp].
    now rewrite H1, H2.
  - rewrite append_cons. cbn [num_exp]. destruct (ch 101 c || ch 69 c); [|reflexivity].
    destruct Y as [|d Y].
    + rewrite append_empty_l. destruct w as [|d w]; [reflexivity|].
      pose proof (is_ws_plain _ Hw) as (_ & _ & _ & H45 & _ & Hd & _ & _ & _ & H43).
      rewrite H45, H43. cbn [orb take_digits]. now rewrite Hd.
    + rewrite append_cons. destruct (ch 45 d || ch 43 d).
      * rewrite (take_digits_frame _ _ Hw). now destruct (take_digits Y) as [[|f fs] x].
      * rewrite <- append_cons, (take_digits_frame _ _ Hw).
        now destruct (take_digits (String d Y)) as [[|f fs] x].
Qed.

Lemma scan_number_frame (Y w : string) :
  ws_head w →
  scan_number (Y +:+ w)
  = match scan_number Y with Some (v, x) => Some (v, x +:+ w) | None => None end.
Proof.
  intros Hw. rewrite !scan_number_phases, (num_sign_frame _ _ Hw).
  destruct (num_sign Y) as [sign s1]. rewrite (num_int_frame _ _ Hw).
  destruct (num_int s1) as [[ds rest]|]; [|reflexivity].
  rewrite (num_frac_frame _ _ Hw). destruct (num_frac rest) as [frac rest2].
  rewrite (num_exp_frame _ _ Hw). now destruct (num_exp rest2) as [exp rest3].
Qed.

Lemma num_sign_suffix (Y a x : string) :
  num_sign Y = (a, x) → ∃ b, Y = b +:+ x ∧ numeric_all b = true.
Proof.
  destruct Y as [|c Y]; [intros [= <- <-]; now exists ""|]. cbn.
  destruct (ch 45 c) eqn:Hc; intros [= <- <-]; [|now exists ""].
  exists (String c ""). split; [reflexivity|]. cbn. unfold numeric. rewrite Hc.
  now rewrite !orb_true_r.
Qed.

Lemma num_int_suffix (Y ds x : string) :
  num_int Y = Some (ds, x) → ∃ b, Y = b +:+ x ∧ b ≠ "" ∧ numeric_all b = true.
Proof.
  destruct Y as [|c Y]; [discriminate|]. cbn [num_int].
  destruct (ch 48 c) eqn:H0.
  - intros [= <- <-]. exists (String c ""). split; [reflexivity|]. split; [discriminate|].
    apply ch_true in H0 as ->. reflexivity.
  - destruct (is_digit c) eqn:Hd; [|discriminate]. cbn [take_digits]. rewrite Hd.
    destruct (take_digits Y) as [ds' x'] eqn:E. intros [= <- <-].
    apply take_digits_suffix in E as [-> Hn]. exists (String c ds').
    split; [reflexivity|]. split; [discriminate|].
    cbn. unfold numeric. now rewrite Hd, Hn.
Qed.

Lemma num_frac_suffix (Y a x : string) :
  num_frac Y = (a, x) → ∃ b, Y = b +:+ x ∧ numeric_all b = true.
Proof.
  destruct Y as [|c Y]; [intros [= <- <-]; now exists ""|]. cbn [num_frac].
  destruct (ch 46 c) eqn:Hc; [|intros [= <- <-]; now exists ""].
  destruct (take_digits Y) as [[|f fs] x'] eqn:E; intros [= <- <-]; [now exists ""|].
  apply take_digits_suffix in E as [-> Hn]. exists (String c (String f fs)).
  split; [reflexivity|]. cbn [numeric_all] in *. unfold numeric at 1.
  now rewrite Hc, Hn, !orb_true_r.
Qed.

Lemma num_exp_suffix (Y a x : string) :
  num_exp Y = (a, x) → ∃ b, Y = b +:+ x ∧ numeric_all b = true.
Proof.
  destruct Y as [|c Y]; [intros [= <- <-]; now exists ""|]. cbn [num_exp].
  destruct (ch 101 c || ch 69 c) eqn:Hc; [|intros [= <- <-]; now exists ""].
  assert (Hnc : numeric c = true).
  { unfold numeric. apply orb_prop in Hc as [-> | ->]; now rewrite !orb_true_r. }
  destruct Y as [|d Y].
  - cbn. intros [= <- <-]. now exists "".
  - destruct (ch 45 d || ch 43 d) eqn:Hd.
    + assert (Hnd : numeric d = true).
      { unfold numeric. apply orb_prop in Hd as [-> | ->]; now rewrite !orb_true_r. }
      destruct (take_digits Y) as [[|f fs] x'] eqn:E; intros [= <- <-]; [now exists ""|].
      apply take_digits_suffix in E as [-> Hn]. exists (String c (String d (String f fs))).
      split; [reflexivity|]. cbn [numeric_all] in *. now rewrite Hnc, Hnd, Hn.
    + destruct (take_digits (String d Y)) as [[|f fs] x'] eqn:E; intros [= <- <-];
        [now exists ""|].
      apply take_digits_suffix in E as [E Hn]. exists (String c (String f fs)).
      split; [now rewrite append_cons, <- E|]. cbn [numeric_all] in *. now rewrite Hnc, Hn.
Qed.

Lemma scan_number_suffix (Y : string) (v : PyVal) (x : string) :
  scan_number Y = Some (v, x) → ∃ b, Y = b +:+ x ∧ b ≠ "" ∧ numeric_all b = true.
Proof.
  rewrite scan_number_phases.
  destruct (num_sign Y) as [sign s1] eqn:E1.
  destruct (num_int s1) as [[ds rest]|] eqn:E2; [|discriminate].
  destruct (num_frac rest) as [frac rest2] eqn:E3.
  destruct (num_exp rest2) as [exp rest3] eqn:E4. intros [= _ <-].
  apply num_sign_suffix in E1 as (b1 & -> & H1).
  apply num_int_suffix in E2 as (b2 & -> & Hne & H2).
  apply num_frac_suffix in E3 as (b3 & -> & H3).
  apply num_exp_suffix in E4 as (b4 & -> & H4).
  exists (b1 +:+ b2 +:+ b3 +:+ b4). split; [now rewrite !append_assoc|]. split.
  - destruct b1; [destruct b2; [contradiction|discriminate]|discriminate].
  - rewrite !numeric_all_app. now rewrite H1, H2, H3, H4.
Qed.


(** *** Values *)

Lemma numeric_solid (c : ascii) : numeric c = true → PyStr.isspace c = false.
Proof.
  destruct (PyStr.isspace c) eqn:Hs; [|reflexivity]. intros Hn. exfalso.
  revert Hs Hn.
  destruct c as [[] [] [] [] [] [] [] []]; vm_compute; congruence.
Qed.

Lemma numeric_all_ends (b : string) :
  b ≠ "" → numeric_all b = true → starts_solid b ∧ ends_solid b.
Proof.
  intros Hne Hn. split.
  - destruct b as [|c m]; [contradiction|]. exists c, m. split; [reflexivity|].
    cbn in Hn. apply andb_prop in Hn as [Hc _]. now apply numeric_solid.
  - revert Hne Hn. induction b as [|c b IH]; [contradiction|].
    intros _ Hn. cbn in Hn. apply andb_prop in Hn as [Hc Hn].
    destruct b as [|d b'].
    + exists "", c. split; [reflexivity|]. now apply numeric_solid.
    + destruct (IH ltac:(discriminate) Hn) as (m & e & Heq & He).
      exists (String c m), e. split; [now rewrite append_cons, <- Heq|exact He].
Qed.

Lemma scan_once_atom (f : nat) (c : ascii) (r : string) :
  ch 34 c = false → ch 123 c = false → ch 91 c = false →
  scan_once (S f) (String c r) = scan_atom (String c r).
Proof. intros H1 H2 H3. cbn [scan_once]. now rewrite H1, H2, H3. Qed.

Lemma starts_numeric (pre : string) (p c : ascii) (x : string) :
  numeric p = false → numeric c = true → starts (String p pre) (String c x) = None.
Proof.
  intros Hp Hc. rewrite starts_cons. destruct (Ascii.eqb_spec p c) as [->|]; congruence.
Qed.

Lemma atom_local (s : string) (v : PyVal) (r : string) :
  scan_atom s = Done v r →
  ∃ b, s = b +:+ r ∧ starts_solid b ∧ ends_solid b
       ∧ (∃ c m, b = String c m ∧ ch 34 c = false ∧ ch 123 c = false ∧ ch 91 c = false)
       ∧ ∀ r0 w, r = r0 +:+ w → all_ws w → scan_atom (b +:+ r0) = Done v r0.
Proof.
  unfold scan_atom at 1.
  destruct (starts "null" s) as [rest|] eqn:E1.
  { intros [= <- <-]. apply starts_inv in E1 as ->. exists "null".
    split; [reflexivity|]. split; [now exists "n"%char, "ull"|].
    split; [now exists "nul", "l"%char|]. split; [now exists "n"%char, "ull"|].
    intros r0 w _ _. unfold scan_atom. now rewrite starts_app. }
  destruct (starts "true" s) as [rest|] eqn:E2.
  { intros [= <- <-]. apply starts_inv in E2 as ->. exists "true".
    split; [reflexivity|]. split; [now exists "t"%char, "rue"|].
    split; [now exists "tru", "e"%char|]. split; [now exists "t"%char, "rue"|].
    intros r0 w _ _. unfold scan_atom. now rewrite starts_app. }
  destruct (starts "false" s) as [rest|] eqn:E3.
  { intros [= <- <-]. apply starts_inv in E3 as ->. exists "false".
    split; [reflexivity|]. split; [now exists "f"%char, "alse"|].
    split; [now exists "fals", "e"%char|]. split; [now exists "f"%char, "alse"|].
    intros r0 w _ _. unfold scan_atom. now rewrite starts_app. }
  destruct (scan_number s) as [[v' rest]|] eqn:En.
  { intros [= <- <-]. destruct (scan_number_suffix _ _ _ En) as (b & -> & Hne & Hb).
    destruct (numeric_all_ends b Hne Hb) as [Hs He].
    exists b. split; [reflexivity|]. split; [exact Hs|]. split; [exact He|].
    destruct b as [|c m]; [contradiction|]. cbn in Hb. apply andb_prop in Hb as [Hc _].
    split.
    { exists c, m. split; [reflexivity|]. revert Hc. clear.
      destruct c as [[] [] [] [] [] [] [] []]; vm_compute; intros; repeat split; congruence. }
    intros r0 w -> Hw. unfold scan_atom. rewrite append_cons.
    rewrite (starts_numeric "ull" "n" c _ eq_refl Hc),
      (starts_numeric "rue" "t" c _ eq_refl Hc),
      (starts_numeric "alse" "f" c _ eq_refl Hc). rewrite <- append_cons.
    rewrite <- append_assoc, (scan_number_frame _ _ (all_ws_head _ Hw)) in En.
    destruct (scan_number (String c m +:+ r0)) as [[v1 x]|]; [|discriminate].
    injection En as -> Hx. apply append_inj_r in Hx as ->. reflexivity. }
  destruct (starts "NaN" s) as [rest|] eqn:E4.
  { intros [= <- <-]. apply starts_inv in E4 as ->. exists "NaN".
    split; [reflexivity|]. split; [now exists "N"%char, "aN"|].
    split; [now exists "Na", "N"%char|]. split; [now exists "N"%char, "aN"|].
    intros r0 w _ _. unfold scan_atom.
    change (starts "null" ("NaN" +:+ r0)) with (@None string).
    change (starts "true" ("NaN" +:+ r0)) with (@None string).
    change (starts "false" ("NaN" +:+ r0)) with (@None string).
    change (scan_number ("NaN" +:+ r0)) with (@None (PyVal * string)).
    now rewrite starts_app. }
  destruct (starts "Infinity" s) as [rest|] eqn:E5.
  { intros [= <- <-]. apply starts_inv in E5 as ->. exists "Infinity".
    split; [reflexivity|]. split; [now exists "I"%char, "nfinity"|].
    split; [now exists "Infinit", "y"%char|]. split; [now exists "I"%char, "nfinity"|].
    intros r0 w _ _. unfold scan_atom.
    change (starts "null" ("Infinity" +:+ r0)) with (@None string).
    change (starts "true" ("Infinity" +:+ r0)) with (@None string).
    change (starts "false" ("Infinity" +:+ r0)) with (@None string).
    change (scan_number ("Infinity" +:+ r0)) with (@None (PyVal * string)).
    change (starts "NaN" ("Infinity" +:+ r0)) with (@None string).
    now rewrite starts_app. }
  destruct (starts "-Infinity" s) as [rest|] eqn:E6; [|discriminate].
  intros [= <- <-]. apply starts_inv in E6 as ->. exists "-Infinity".
  split; [reflexivity|]. split; [now exists "-"%char, "Infinity"|].
  split; [now exists "-Infinit", "y"%char|]. split; [now exists "-"%char, "Infinity"|].
  intros r0 w _ _. unfold scan_atom.
  change (starts "null" ("-Infinity" +:+ r0)) with (@None string).
  change (starts "true" ("-Infinity" +:+ r0)) with (@None string).
  change (starts "false" ("-Infinity" +:+ r0)) with (@None string).
  change (scan_number ("-Infinity" +:+ r0)) with (@None (PyVal * string)).
  change (starts "NaN" ("-Infinity" +:+ r0)) with (@None string).
  change (starts "Infinity" ("-Infinity" +:+ r0)) with (@None string).
  now rewrite starts_app.
Qed.


Lemma solid_not_ws (c : ascii) : PyStr.isspace c = false → is_ws c = false.
Proof.
  intros H. destruct (is_ws c) eqn:E; [|reflexivity].
  apply is_ws_isspace in E. congruence.
Qed.

Lemma skip_ws_to (s : string) (c : ascii) (x : string) :
  skip_ws s = String c x → ∃ ws, s = ws +:+ String c x ∧ all_ws ws ∧ is_ws c = false.
Proof.
  intros H. destruct (skip_ws_split s) as (ws & Hs & Hw). exists ws.
  split; [now rewrite <- H|]. split; [exact Hw|]. eapply skip_ws_head, H.
Qed.

Lemma skip_ws_at (ws Z : string) (c : ascii) (x : string) :
  all_ws ws → Z = String c x → is_ws c = false → skip_ws (ws +:+ Z) = Z.
Proof. intros Hw -> Hc. rewrite (skip_ws_app _ _ Hw). now apply skip_ws_solid. Qed.

Lemma app_head (b r r' : string) (c : ascii) (x : string) :
  b ≠ "" → b +:+ r = String c x → ∃ x', b +:+ r' = String c x'.
Proof.
  destruct b as [|a b]; [contradiction|]. intros _. rewrite !append_cons.
  intros [= -> _]. eauto.
Qed.

Lemma app_not_empty (m e : string) : e ≠ "" → m +:+ e ≠ "".
Proof. destruct m; [now rewrite append_empty_l|discriminate]. Qed.

Lemma once_step (f : nat) : members_local f → elements_local f → once_local (S f).
Proof.
  intros IHm IHe s v r H. destruct s as [|c r1]; [discriminate|].
  destruct (ch 34 c) eqn:E34.
  { cbn [scan_once] in H. rewrite E34 in H.
    destruct (scan_string _ r1 "") as [str rest|] eqn:Es; [|discriminate].
    injection H as <- <-.
    apply (scan_string_local _ _ (Nat.le_refl _)) in Es as (m & -> & Hm).
    assert (Hc : PyStr.isspace c = false) by (now rewrite (ch_true _ _ E34)).
    exists (String c (m +:+ String (chr 34) "")). split; [reflexivity|].
    split; [now exists c, (m +:+ String (chr 34) "")|].
    split; [now exists (String c m), (chr 34)|].
    intros f' r0 w _ _ Hlen. destruct f' as [|f']; [cbn in Hlen; lia|].
    rewrite append_cons. cbn [scan_once]. now rewrite E34, Hm. }
  destruct (ch 123 c) eqn:E123.
  { cbn [scan_once] in H. rewrite E34, E123 in H.
    assert (Hc : PyStr.isspace c = false) by (now rewrite (ch_true _ _ E123)).
    destruct (skip_ws r1) as [|c' r'] eqn:Esk; [destruct f; discriminate|].
    destruct (skip_ws_to _ _ _ Esk) as (ws & -> & Hws & Hc').
    destruct (ch 125 c') eqn:E125.
    - injection H as <- <-.
      assert (Hc2 : PyStr.isspace c' = false) by (now rewrite (ch_true _ _ E125)).
      exists (String c (ws +:+ String c' "")). split.
      { now rewrite append_cons, append_assoc. }
      split; [now exists c, (ws +:+ String c' "")|].
      split; [now exists (String c ws), c'|].
      intros f' r0 w _ _ Hlen. destruct f' as [|f']; [cbn in Hlen; lia|].
      rewrite append_cons, append_assoc, append_cons, append_empty_l.
      cbn [scan_once]. rewrite E34, E123, (skip_ws_at ws _ c' r0 Hws eq_refl Hc').
      now rewrite E125.
    - apply IHm in H as (m & Heq & Hm).
      assert (Hne : m +:+ "}" ≠ "") by now apply app_not_empty.
      exists (String c (ws +:+ (m +:+ "}"))). split.
      { now rewrite Heq, append_cons, !append_assoc. }
      split; [now exists c, (ws +:+ (m +:+ "}"))|].
      split; [exists (String c (ws +:+ m)), "}"%char; split;
              [now rewrite append_cons, !append_assoc|reflexivity]|].
      intros f' r0 w Hr Hw Hlen. destruct f' as [|f']; [cbn in Hlen; lia|].
      destruct (app_head _ _ r0 _ _ Hne (eq_sym Heq)) as [x' Hx'].
      rewrite append_cons, append_assoc. cbn [scan_once].
      rewrite E34, E123, (skip_ws_at ws _ c' x' Hws Hx' Hc').
      rewrite Hx' at 1. rewrite E125.
      apply (Hm f' r0 w Hr Hw).
      cbn [String.length] in Hlen. rewrite length_append in Hlen. lia. }
  destruct (ch 91 c) eqn:E91.
  { cbn [scan_once] in H. rewrite E34, E123, E91 in H.
    assert (Hc : PyStr.isspace c = false) by (now rewrite (ch_true _ _ E91)).
    destruct (skip_ws r1) as [|c' r'] eqn:Esk; [destruct f as [|[|f]]; discriminate|].
    destruct (skip_ws_to _ _ _ Esk) as (ws & -> & Hws & Hc').
    destruct (ch 93 c') eqn:E93.
    - injection H as <- <-.
      assert (Hc2 : PyStr.isspace c' = false) by (now rewrite (ch_true _ _ E93)).
      exists (String c (ws +:+ String c' "")). split.
      { now rewrite append_cons, append_assoc. }
      split; [now exists c, (ws +:+ String c' "")|].
      split; [now exists (String c ws), c'|].
      intros f' r0 w _ _ Hlen. destruct f' as [|f']; [cbn in Hlen; lia|].
      rewrite append_cons, append_assoc, append_cons, append_empty_l.
      cbn [scan_once]. rewrite E34, E123, E91, (skip_ws_at ws _ c' r0 Hws eq_refl Hc').
      now rewrite E93.
    - apply IHe in H as (m & Heq & Hm).
      assert (Hne : m +:+ "]" ≠ "") by now apply app_not_empty.
      exists (String c (ws +:+ (m +:+ "]"))). split.
      { now rewrite Heq, append_cons, !append_assoc. }
      split; [now exists c, (ws +:+ (m +:+ "]"))|].
      split; [exists (String c (ws +:+ m)), "]"%char; split;
              [now rewrite append_cons, !append_assoc|reflexivity]|].
      intros f' r0 w Hr Hw Hlen. destruct f' as [|f']; [cbn in Hlen; lia|].
      destruct (app_head _ _ r0 _ _ Hne (eq_sym Heq)) as [x' Hx'].
      rewrite append_cons, append_assoc. cbn [scan_once].
      rewrite E34, E123, E91, (skip_ws_at ws _ c' x' Hws Hx' Hc').
      rewrite Hx' at 1. rewrite E93.
      apply (Hm f' r0 w Hr Hw).
      cbn [String.length] in Hlen. rewrite length_append in Hlen. lia. }
  rewrite (scan_once_atom _ _ _ E34 E123 E91) in H.
  apply atom_local in H as (b & Heq & Hs & He & (c0 & m0 & -> & F34 & F123 & F91) & Hb).
  exists (String c0 m0). split; [exact Heq|]. split; [exact Hs|]. split; [exact He|].
  intros f' r0 w Hr Hw Hlen. destruct f' as [|f']; [cbn in Hlen; lia|].
  rewrite append_cons, (scan_once_atom _ _ _ F34 F123 F91), <- append_cons.
  now apply (Hb r0 w).
Qed.


Ltac lens H :=
  repeat first [rewrite length_append in H | progress cbn [String.length] in H].

Ltac flat :=
  repeat first [rewrite append_cons | rewrite append_assoc | rewrite append_empty_l].

Lemma skip_ws_body (ws b X : string) :
  all_ws ws → starts_solid b → skip_ws (ws +:+ (b +:+ X)) = b +:+ X.
Proof.
  intros Hw (c & m & -> & Hc). rewrite append_cons.
  eapply skip_ws_at; [exact Hw|reflexivity|now apply solid_not_ws].
Qed.

Lemma members_step (f : nat) : once_local f → members_local f → members_local (S f).
Proof.
  intros IHo IHm s acc v r H. destruct s as [|c r1]; [discriminate|].
  cbn [scan_members] in H.
  destruct (ch 34 c) eqn:E34; [|discriminate].
  destruct (scan_string _ r1 "") as [key rest1|] eqn:Es; [|discriminate].
  apply (scan_string_local _ _ (Nat.le_refl _)) in Es as (mk & -> & Hmk).
  destruct (skip_ws rest1) as [|c1 r2] eqn:Esk1; [discriminate|].
  destruct (skip_ws_to _ _ _ Esk1) as (ws1 & -> & Hws1 & Hc1).
  destruct (ch 58 c1) eqn:E58; [|discriminate].
  destruct (scan_once f (skip_ws r2)) as [v1 rest2|] eqn:Ev; [|discriminate].
  destruct (skip_ws_split r2) as (ws2 & Hr2 & Hws2).
  destruct (IHo _ _ _ Ev) as (bv & Heqv & Hsv & _ & Hbv).
  rewrite Heqv in Hr2. clear Heqv Ev. subst r2.
  destruct (skip_ws rest2) as [|c2 r3] eqn:Esk2; [discriminate|].
  destruct (skip_ws_to _ _ _ Esk2) as (ws3 & -> & Hws3 & Hc2).
  set (quote := String (chr 34) "") in *.
  destruct (ch 125 c2) eqn:E125.
  - injection H as <- <-. pose proof (ch_true _ _ E125) as Hbrace.
    exists (String c ((mk +:+ quote) +:+ ws1 +:+ String c1 (ws2 +:+ bv +:+ ws3))).
    split. { rewrite Hbrace. unfold quote. flat. reflexivity. }
    intros f' r0 w Hr Hw Hlen. destruct f' as [|f']; [lens Hlen; lia|].
    assert (Hshape :
      (String c ((mk +:+ quote) +:+ ws1 +:+ String c1 (ws2 +:+ bv +:+ ws3)) +:+ "}") +:+ r0
      = String c ((mk +:+ quote)
                  +:+ (ws1 +:+ String c1 (ws2 +:+ (bv +:+ (ws3 +:+ String c2 r0)))))).
    { rewrite Hbrace. unfold quote. flat. reflexivity. }
    rewrite Hshape. cbn [scan_members]. rewrite E34, Hmk.
    rewrite (skip_ws_at ws1 _ c1 _ Hws1 eq_refl Hc1), E58.
    rewrite (skip_ws_body ws2 bv _ Hws2 Hsv).
    rewrite (Hbv f' (ws3 +:+ String c2 r0) w).
    + rewrite (skip_ws_at ws3 _ c2 _ Hws3 eq_refl Hc2). now rewrite E125.
    + rewrite Hr. flat. reflexivity.
    + exact Hw.
    + unfold quote in Hlen. lens Hlen. lia.
  - destruct (ch 44 c2) eqn:E44; [|discriminate].
    destruct (skip_ws_split r3) as (ws4 & Hr3 & Hws4).
    destruct (IHm _ _ _ _ H) as (m' & Heq' & Hm').
    assert (Hne : m' +:+ "}" ≠ "") by now apply app_not_empty.
    rewrite Heq' in Hr3. subst r3.
    assert (Hcons : ∃ a y, m' +:+ "}" = String a y).
    { destruct (m' +:+ "}") as [|a y]; [contradiction|eauto]. }
    destruct Hcons as (a & y & Hay).
    assert (Ha : is_ws a = false).
    { rewrite Hay, append_cons in Heq'. eapply skip_ws_head, Heq'. }
    exists (String c ((mk +:+ quote) +:+ ws1 +:+ String c1
                        (ws2 +:+ bv +:+ ws3 +:+ String c2 (ws4 +:+ m')))).
    split. { unfold quote. flat. reflexivity. }
    intros f' r0 w Hr Hw Hlen. destruct f' as [|f']; [lens Hlen; lia|].
    assert (Hshape :
      (String c ((mk +:+ quote) +:+ ws1 +:+ String c1
                   (ws2 +:+ bv +:+ ws3 +:+ String c2 (ws4 +:+ m'))) +:+ "}") +:+ r0
      = String c ((mk +:+ quote)
                  +:+ (ws1 +:+ String c1
                         (ws2 +:+ (bv +:+ (ws3 +:+ String c2
                                             (ws4 +:+ ((m' +:+ "}") +:+ r0)))))))).
    { unfold quote. flat. reflexivity. }
    rewrite Hshape. cbn [scan_members]. rewrite E34, Hmk.
    rewrite (skip_ws_at ws1 _ c1 _ Hws1 eq_refl Hc1), E58.
    rewrite (skip_ws_body ws2 bv _ Hws2 Hsv).
    rewrite (Hbv f' (ws3 +:+ String c2 (ws4 +:+ ((m' +:+ "}") +:+ r0))) w).
    + rewrite (skip_ws_at ws3 _ c2 _ Hws3 eq_refl Hc2). rewrite E125, E44.
      rewrite (skip_ws_at ws4 ((m' +:+ "}") +:+ r0) a (y +:+ r0) Hws4);
        [|now rewrite Hay, append_cons|exact Ha].
      apply (Hm' f' r0 w Hr Hw). unfold quote in Hlen. lens Hlen.
      rewrite length_append. cbn [String.length]. lia.
    + rewrite Hr. flat. reflexivity.
    + exact Hw.
    + unfold quote in Hlen. lens Hlen. lia.
Qed.

Lemma elements_step (f : nat) : once_local f → elements_local f → elements_local (S f).
Proof.
  intros IHo IHe s acc v r H. cbn [scan_elements] in H.
  destruct (scan_once f s) as [v1 rest2|] eqn:Ev; [|discriminate].
  destruct (IHo _ _ _ Ev) as (bv & -> & Hsv & _ & Hbv). clear Ev.
  destruct (skip_ws rest2) as [|c2 r3] eqn:Esk2; [discriminate|].
  destruct (skip_ws_to _ _ _ Esk2) as (ws3 & -> & Hws3 & Hc2).
  destruct (ch 93 c2) eqn:E93.
  - injection H as <- <-. pose proof (ch_true _ _ E93) as Hbracket.
    exists (bv +:+ ws3). split. { rewrite Hbracket. flat. reflexivity. }
    intros f' r0 w Hr Hw Hlen. destruct f' as [|f']; [lens Hlen; lia|].
    assert (Hshape : ((bv +:+ ws3) +:+ "]") +:+ r0 = bv +:+ (ws3 +:+ String c2 r0)).
    { rewrite Hbracket. flat. reflexivity. }
    rewrite Hshape. cbn [scan_elements].
    rewrite (Hbv f' (ws3 +:+ String c2 r0) w).
    + rewrite (skip_ws_at ws3 _ c2 _ Hws3 eq_refl Hc2). now rewrite E93.
    + rewrite Hr. flat. reflexivity.
    + exact Hw.
    + lens Hlen. lia.
  - destruct (ch 44 c2) eqn:E44; [|discriminate].
    destruct (skip_ws_split r3) as (ws4 & Hr3 & Hws4).
    destruct (IHe _ _ _ _ H) as (m' & Heq' & Hm').
    assert (Hne : m' +:+ "]" ≠ "") by now apply app_not_empty.
    rewrite Heq' in Hr3. subst r3.
    assert (Hcons : ∃ a y, m' +:+ "]" = String a y).
    { destruct (m' +:+ "]") as [|a y]; [contradiction|eauto]. }
    destruct Hcons as (a & y & Hay).
    assert (Ha : is_ws a = false).
    { rewrite Hay, append_cons in Heq'. eapply skip_ws_head, Heq'. }
    exists (bv +:+ ws3 +:+ String c2 (ws4 +:+ m')).
    split. { flat. reflexivity. }
    intros f' r0 w Hr Hw Hlen. destruct f' as [|f']; [lens Hlen; lia|].
    assert (Hshape :
      ((bv +:+ ws3 +:+ String c2 (ws4 +:+ m')) +:+ "]") +:+ r0
      = bv +:+ (ws3 +:+ String c2 (ws4 +:+ ((m' +:+ "]") +:+ r0)))).
    { flat. reflexivity. }
    rewrite Hshape. cbn [scan_elements].
    rewrite (Hbv f' (ws3 +:+ String c2 (ws4 +:+ ((m' +:+ "]") +:+ r0))) w).
    + rewrite (skip_ws_at ws3 _ c2 _ Hws3 eq_refl Hc2). rewrite E93, E44.
      rewrite (skip_ws_at ws4 ((m' +:+ "]") +:+ r0) a (y +:+ r0) Hws4);
        [|now rewrite Hay, append_cons|exact Ha].
      apply (Hm' f' r0 w Hr Hw). lens Hlen.
      rewrite length_append. cbn [String.length]. lia.
    + rewrite Hr. flat. reflexivity.
    + exact Hw.
    + lens Hlen. lia.
Qed.

Lemma scan_local (f : nat) : once_local f ∧ members_local f ∧ elements_local f.
Proof.
  induction f as [|f (IHo & IHm & IHe)].
  - repeat split; intros ? **; discriminate.
  - split; [now apply once_step|]. split; [now apply members_step|now apply elements_step].
Qed.


(** *** Stripping a document *)

Lemma lstrip_ws (ws x : string) : all_ws ws → PyStr.lstrip (ws +:+ x) = PyStr.lstrip x.
Proof.
  induction ws as [|c ws IH]; intros H; [reflexivity|].
  apply all_ws_cons in H as [Hc Hw]. rewrite append_cons. cbn [PyStr.lstrip].
  rewrite (is_ws_isspace _ Hc). now apply IH.
Qed.

Lemma lstrip_solid (b x : string) : starts_solid b → PyStr.lstrip (b +:+ x) = b +:+ x.
Proof. intros (c & m & -> & Hc). rewrite append_cons. cbn [PyStr.lstrip]. now rewrite Hc. Qed.

Lemma rstrip_ws (w : string) : all_ws w → PyStr.rstrip w = "".
Proof.
  induction w as [|c w IH]; intros H; [reflexivity|].
  apply all_ws_cons in H as [Hc Hw]. cbn [PyStr.rstrip].
  now rewrite (IH Hw), (is_ws_isspace _ Hc).
Qed.

Lemma rstrip_app_ws (b w : string) : all_ws w → PyStr.rstrip (b +:+ w) = PyStr.rstrip b.
Proof.
  intros Hw. induction b as [|c b IH].
  - rewrite append_empty_l. now apply rstrip_ws.
  - rewrite append_cons. cbn [PyStr.rstrip]. now rewrite IH.
Qed.

Lemma rstrip_solid (b : string) : ends_solid b → PyStr.rstrip b = b.
Proof.
  intros (m & c & -> & Hc). induction m as [|a m IH].
  - rewrite append_empty_l. cbn. now rewrite Hc.
  - rewrite append_cons. cbn [PyStr.rstrip]. rewrite IH.
    destruct m; reflexivity.
Qed.

(** [json.loads] reads a stripped document to the same value. *)
Lemma loads_strip (s : string) (v : PyVal) :
  loads s = Ok v → loads (PyStr.strip s) = Ok v.
Proof.
  unfold loads at 1.
  destruct (scan_once _ (skip_ws s)) as [v' rest|[msg n]] eqn:E; [|discriminate].
  destruct (skip_ws rest) eqn:Er; [|discriminate]. intros [= ->].
  destruct (proj1 (scan_local _) _ _ _ E) as (b & Hb & Hs & He & Hrun).
  destruct (skip_ws_split s) as (ws0 & Heq & Hws0). rewrite Hb in Heq.
  assert (Hstrip : PyStr.strip s = b).
  { unfold PyStr.strip. rewrite Heq, (lstrip_ws _ _ Hws0), (lstrip_solid _ _ Hs).
    rewrite (rstrip_app_ws _ _ Er). now apply rstrip_solid. }
  rewrite Hstrip. unfold loads.
  assert (Hsk : skip_ws b = b).
  { destruct Hs as (c & m & -> & Hc). apply skip_ws_solid. now apply solid_not_ws. }
  rewrite Hsk.
  specialize (Hrun (S (String.length b)) "" rest eq_refl Er ltac:(lia)).
  rewrite append_empty_r in Hrun. now rewrite Hrun.
Qed.

End JsonFacts.

#[global] Instance reference_whitespace : JsonWhitespace (libs := reference_libs).
Proof. exact JsonFacts.loads_strip. Qed.

(** ** The flashcards parser: fenced and bare responses *)

Section Fences.
Context {libs : Libs} {spaces : JsonWhitespace}.
Import ContentGen FenceSpec.


























End Fences.



(* ================================================================= *)
(** * More of the code *)

(** ** What transcribing leaves behind *)

Section Frame.
Context {libs : Libs} {service : Anthropic} {floats : FloatModel}.
Import WorldSpec.

Lemma preserves_bind {X A B} (f : World → X) (m : M A) (k : A → M B) :
  preserves f m → (∀ a, preserves f (k a)) → preserves f (bind m k).
Proof.
  intros Hm Hk w. unfold bind. specialize (Hm w).
  destruct (m w) as [[a|e] w1]; simpl in *; [|exact Hm].
  now rewrite (Hk a w1).
Qed.

Lemma preserves_try_except {X A} (f : World → X) (m : M A) (h : exn → M A) :
  preserves f m → (∀ e, preserves f (h e)) → preserves f (try_except m h).
Proof.
  intros Hm Hh w. unfold try_except. specialize (Hm w).
  destruct (m w) as [[a|e] w1]; simpl in *; [exact Hm|].
  now rewrite (Hh e w1).
Qed.

Lemma preserves_read_file {X} (f : World → X) (p : string) : preserves f (read_file p).
Proof. intros w. unfold read_file. now destruct (files w !! p). Qed.

Ltac keeps :=
  repeat first
    [ apply preserves_bind; [|intros ?]
    | apply preserves_try_except; [|intros ?]
    | apply preserves_read_file
    | solve [intros ?; reflexivity]
    | match goal with
      | |- preserves _ (if ?b then _ else _) => destruct b
      | |- preserves _ (match ?x with _ => _ end) => destruct x
      end ].

Lemma quiet_compress_image (p : string) (budget : Q) (quality : Z) :
  preserves quiet_view (Transcriber.compress_image p budget quality).
Proof.
  unfold Transcriber.compress_image, Transcriber.image_open, Transcriber.exif_fix,
    Transcriber.save_jpeg, Transcriber.resize. keeps.
Qed.

(** Encoding an image reads: it changes no file and asks the service
    nothing. *)
Lemma quiet_encode_image (p : string) : preserves quiet_view (Transcriber.encode_image p).
Proof.
  unfold Transcriber.encode_image.
  destruct (bool_decide _); keeps; apply quiet_compress_image.
Qed.

Lemma transcribe_body_world (p : string) (w : World) :
  fs_view (Transcriber.transcribe_body p w).2 = fs_view w
  ∧ (served w <= served (Transcriber.transcribe_body p w).2 <= S (served w))%nat.
Proof.
  unfold Transcriber.transcribe_body, bind.
  pose proof (quiet_encode_image p w) as Hq.
  unfold quiet_view, fs_view in *.
  destruct (Transcriber.encode_image p w) as [[[b64 mt]|e] w1]; cbn [snd] in *;
    injection Hq as Hf Hd Hc Hs.
  - unfold ask. destruct (messages_create _ _); cbn; rewrite Hf, Hd, Hc, Hs;
      (split; [reflexivity|lia]).
  - rewrite Hf, Hd, Hc, Hs. split; [reflexivity|lia].
Qed.

Lemma transcribe_image_world (p : string) (w : World) :
  fs_view (Transcriber.transcribe_image p w).2 = fs_view w
  ∧ (served w <= served (Transcriber.transcribe_image p w).2 <= S (served w))%nat.
Proof. rewrite transcribe_image_total. apply transcribe_body_world. Qed.

End Frame.

Section Checkpoints.
Context {libs : Libs} {service : Anthropic} {floats : FloatModel}.
Import WorldSpec.

Lemma backup_path_inj (self : Transcriber.ImageTranscriber) : Inj (=) (=) (backup_path self).
Proof.
  intros i j H. unfold backup_path in H. apply joinpath_inj in H.
  apply (inj (String.app _)) in H. apply append_inj_r in H.
  now apply (inj pretty) in H.
Qed.

Lemma save_intermediate_run self results count w :
  Transcriber._save_intermediate_results self results count w
  = (Ok tt, mkWorld (<[backup_path self count := json_dumps (VList (VDict <$> results))]> (files w))
                    (dirs w) (clock w) (served w)
                    (log w ++ [EvWrite (backup_path self count)])).
Proof. reflexivity. Qed.

Lemma transcribe_image_typed (p : string) (w : World) :
  ∃ r : TranscriptionResult,
    (Transcriber.transcribe_image p w).1 = Ok (to_dict r) ∧ filename r = PyPath.name p.
Proof.
  rewrite transcribe_image_total. cbn [fst].
  destruct (Transcriber.transcribe_body p w).1 as [d|e] eqn:E.
  - destruct (transcribe_body_shape p w d E) as [text ->].
    now exists (mkResult (PyPath.name p) text true None).
  - now exists (mkResult (PyPath.name p) "" false (Some (exn_str e))).
Qed.

(** The loop from index [i]: what it returns and what it leaves in the
    file system. *)
Lemma transcribe_loop_files (self : Transcriber.ImageTranscriber) (bs : Z) :
  bs ≠ 0 →
  ∀ (paths : list string) (i : Z) (acc : list PyDict) (w : World),
  ∃ items w',
    Transcriber.transcribe_loop self bs i paths acc w = (Ok (acc ++ items), w')
    ∧ length items = length paths
    ∧ Forall2 (λ p d, ∃ r : TranscriptionResult, d = to_dict r ∧ filename r = PyPath.name p)
              paths items
    ∧ dirs w' = dirs w ∧ clock w' = clock w
    ∧ (served w <= served w' <= served w + length paths)%nat
    ∧ (∀ k : nat, (k < length paths)%nat → (i + Z.of_nat k) mod bs = 0 →
         files w' !! backup_path self (i + Z.of_nat k)
         = Some (json_dumps (VList (VDict <$> acc ++ take (S k) items))))
    ∧ (∀ p, (∀ k : nat, (k < length paths)%nat → (i + Z.of_nat k) mod bs = 0 →
               p ≠ backup_path self (i + Z.of_nat k)) →
         files w' !! p = files w !! p).
Proof.
  intros Hbs paths. induction paths as [|p rest IH]; intros i acc w.
  - exists [], w. simpl. rewrite app_nil_r.
    split; [reflexivity|]. split; [reflexivity|]. split; [constructor|].
    split; [reflexivity|]. split; [reflexivity|]. split; [lia|].
    split; [intros k Hk; lia|reflexivity].
  - destruct (transcribe_image_world p w) as (Hview & Hs1).
    destruct (transcribe_image_typed p w) as (r & Hr & Hname).
    destruct (Transcriber.transcribe_image p w) as [[d|e] w1] eqn:Eimg; [|discriminate].
    unfold fs_view in Hview. simpl in Hview, Hs1, Hr.
    injection Hview as Hf1 Hd1 Hc1. injection Hr as ->.
    assert (Hmod : PyNum.int_mod i bs = Ok (i mod bs)).
    { unfold PyNum.int_mod. destruct (Z.eqb_spec bs 0); [contradiction|reflexivity]. }
    set (w2 := if i mod bs =? 0
               then (Transcriber._save_intermediate_results self (acc ++ [to_dict r]) i w1).2
               else w1).
    assert (Hstep : Transcriber.transcribe_loop self bs i (p :: rest) acc w
                    = Transcriber.transcribe_loop self bs (i + 1) rest (acc ++ [to_dict r]) w2).
    { simpl. rewrite (bind_ok _ _ w w1 (to_dict r) Eimg).
      unfold lift at 1. rewrite (bind_ok _ _ w1 w1 (i mod bs)) by now rewrite Hmod.
      unfold w2. destruct (i mod bs =? 0); [|reflexivity].
      now rewrite (bind_ok _ _ w1 _ tt (save_intermediate_run _ _ _ _)). }
    destruct (IH (i + 1) (acc ++ [to_dict r]) w2) as (items & w' & Hrun & Hlen & Hty & Hd & Hc & Hs & Hsaved & Hkept).
    assert (Hd2 : dirs w2 = dirs w ∧ clock w2 = clock w ∧ served w2 = served w1).
    { unfold w2. destruct (i mod bs =? 0); simpl; auto. }
    exists (to_dict r :: items), w'.
    split; [|split; [|split; [|split; [|split; [|split; [|split]]]]]].
    + rewrite Hstep, Hrun. now rewrite <- app_assoc.
    + simpl. now rewrite Hlen.
    + constructor; [now exists r|exact Hty].
    + rewrite Hd. apply Hd2.
    + rewrite Hc. apply Hd2.
    + destruct Hd2 as (_ & _ & Hs2). rewrite Hs2 in Hs. cbn [length]. lia.
    + intros [|k] Hk Hz.
      * rewrite Z.add_0_r in Hz |- *. rewrite Hkept.
        -- unfold w2. rewrite Hz. simpl. rewrite lookup_insert_eq. reflexivity.
        -- intros k Hk' _ Heq. apply backup_path_inj in Heq. lia.
      * replace (i + Z.of_nat (S k)) with (i + 1 + Z.of_nat k) in Hz |- * by lia.
        rewrite (Hsaved k) by (simpl in Hk; lia || exact Hz).
        simpl. now rewrite <- app_assoc.
    + intros q Hq. rewrite Hkept.
      * unfold w2. destruct (Z.eqb_spec (i mod bs) 0) as [Hz|Hz]; simpl.
        -- rewrite lookup_insert_ne; [now rewrite Hf1|].
           intros Heq. apply (Hq 0%nat); [simpl; lia|now rewrite Z.add_0_r|].
           now rewrite Z.add_0_r.
        -- now rewrite Hf1.
      * intros k Hk Hz. replace (i + 1 + Z.of_nat k) with (i + Z.of_nat (S k)) in * by lia.
        apply Hq; [simpl; lia|exact Hz].
Qed.

Lemma typed_items (paths : list string) (items : list PyDict) :
  Forall2 (λ p d, ∃ r : TranscriptionResult, d = to_dict r ∧ filename r = PyPath.name p)
          paths items →
  ∃ rs : list TranscriptionResult,
    items = to_dict <$> rs ∧ filename <$> rs = PyPath.name <$> paths.
Proof.
  induction 1 as [|p d paths items (r & -> & Hn) _ (rs & -> & Hns)].
  - now exists [].
  - exists (r :: rs). rewrite !fmap_cons. now rewrite Hn, Hns.
Qed.

(** X1.  With a non-zero batch size, a batch leaves one checkpoint file per
    full batch: after the batch, [backup_results_n.json] holds the first
    [n] results for every multiple [n] of the batch size up to the number of
    images.  Every other file, the images included, and every directory is
    as before. *)
Theorem transcribe_batch_leaves_checkpoints
    (self : Transcriber.ImageTranscriber) (paths : list string) (bs : Z) (w : World) :
  bs ≠ 0 →
  ∃ results w',
    Transcriber.transcribe_batch self paths bs w = (Ok results, w')
    ∧ dirs w' = dirs w
    ∧ (∀ n : nat, (1 <= n <= length paths)%nat → Z.of_nat n mod bs = 0 →
         files w' !! backup_path self (Z.of_nat n)
         = Some (json_dumps (VList (VDict <$> take n results))))
    ∧ (∀ p, (∀ n : nat, (1 <= n <= length paths)%nat → Z.of_nat n mod bs = 0 →
               p ≠ backup_path self (Z.of_nat n)) →
         files w' !! p = files w !! p).
Proof.
  intros Hbs. unfold Transcriber.transcribe_batch.
  destruct (transcribe_loop_files self bs Hbs paths 1 [] w)
    as (items & w' & Hrun & Hlen & _ & Hd & _ & _ & Hsaved & Hkept).
  exists items, w'. split; [exact Hrun|]. split; [exact Hd|]. split.
  - intros [|n] Hn Hz; [lia|].
    replace (Z.of_nat (S n)) with (1 + Z.of_nat n) in * by lia.
    now rewrite (Hsaved n) by (lia || exact Hz).
  - intros p Hp. apply Hkept. intros k Hk Hz.
    replace (1 + Z.of_nat k) with (Z.of_nat (S k)) in * by lia.
    apply Hp; [lia|exact Hz].
Qed.

(** X2.  A batch size of 0 stops the batch after the first image: the
    remainder [1 % 0] raises outside the [try] of [transcribe_image], so the
    result of that image is lost and no other image is looked at. *)
Theorem transcribe_batch_zero_batch_size
    (self : Transcriber.ImageTranscriber) (p : string) (rest : list string) (w : World) :
  ∃ msg,
    Transcriber.transcribe_batch self (p :: rest) 0 w
    = (Raise (Exception "ZeroDivisionError" msg), (Transcriber.transcribe_image p w).2).
Proof.
  eexists. unfold Transcriber.transcribe_batch.
  cbn -[Transcriber.transcribe_image].
  erewrite bind_ok by apply transcribe_image_total.
  rewrite transcribe_image_total. reflexivity.
Qed.

(** A loop over [l1 ++ l2] is the loop over [l1] followed by the loop over
    [l2] from the index and with the results the first has reached. *)
Lemma transcribe_loop_app (self : Transcriber.ImageTranscriber) (bs : Z)
    (l1 l2 : list string) :
  ∀ (i : Z) (acc : list PyDict) (w : World),
  Transcriber.transcribe_loop self bs i (l1 ++ l2) acc w
  = match Transcriber.transcribe_loop self bs i l1 acc w with
    | (Ok acc', w') =>
        Transcriber.transcribe_loop self bs (i + Z.of_nat (length l1)) l2 acc' w'
    | (Raise e, w') => (Raise e, w')
    end.
Proof.
  induction l1 as [|p l1 IH]; intros i acc w.
  - cbn. now rewrite Z.add_0_r.
  - cbn [app Transcriber.transcribe_loop length]. unfold bind, lift.
    destruct (Transcriber.transcribe_image p w) as [[d|e] w1]; [|reflexivity].
    destruct (PyNum.int_mod i bs) as [r|e]; [|reflexivity].
    destruct (r =? 0); [rewrite save_intermediate_run|unfold ret]; rewrite IH;
      replace (i + 1 + Z.of_nat (length l1)) with (i + Z.of_nat (S (length l1))) by lia;
      reflexivity.
Qed.

(** One image costs one request when it encodes, and none when it does
    not. *)
Lemma transcribe_image_served (p : string) (w : World) :
  served (Transcriber.transcribe_image p w).2
  = match (Transcriber.encode_image p w).1 with
    | Ok _ => S (served w)
    | Raise _ => served w
    end.
Proof.
  rewrite transcribe_image_total. cbn [snd].
  unfold Transcriber.transcribe_body, bind.
  pose proof (quiet_encode_image p w) as Hq. unfold quiet_view in Hq.
  destruct (Transcriber.encode_image p w) as [[[b64 mt]|e] w1]; cbn [fst snd] in *;
    injection Hq as _ _ _ Hs.
  - unfold ask. cbn. destruct (messages_create _ _); cbn; now rewrite Hs.
  - exact Hs.
Qed.

(** X3.  A batch asks the service exactly once for every image that could be
    read and encoded, whatever the service answers, and not at all for an
    image that could not: there are no retries, and a failed encoding costs
    no request.  The world in which image [k] is handled is the one the
    batch over the first [k] paths has left. *)
Theorem transcribe_batch_asks_once_per_image
    (self : Transcriber.ImageTranscriber) (paths : list string) (bs : Z) (w : World) :
  bs ≠ 0 →
  ∀ (k : nat) (p : string), paths !! k = Some p →
    let wk := (Transcriber.transcribe_batch self (take k paths) bs w).2 in
    let wk' := (Transcriber.transcribe_batch self (take (S k) paths) bs w).2 in
    served wk' = match (Transcriber.encode_image p wk).1 with
                 | Ok _ => S (served wk)
                 | Raise _ => served wk
                 end.
Proof.
  intros Hbs k p Hk wk wk'. unfold wk', wk, Transcriber.transcribe_batch.
  rewrite (take_S_r _ _ _ Hk), transcribe_loop_app.
  destruct (transcribe_loop_files self bs Hbs (take k paths) 1 [] w)
    as (items & w1 & Hrun & _).
  rewrite Hrun. cbn [snd app].
  rewrite <- transcribe_image_served.
  cbn [Transcriber.transcribe_loop]. unfold bind at 1.
  destruct (Transcriber.transcribe_image p w1) as [[d|e] w2] eqn:Eimg;
    [|now rewrite transcribe_image_total in Eimg].
  cbn [snd]. unfold bind at 1, lift, PyNum.int_mod.
  destruct (Z.eqb_spec bs 0) as [|_]; [contradiction|].
  unfold bind at 1.
  destruct (_ mod bs =? 0); reflexivity.
Qed.

End Checkpoints.

(** ** The pipeline of a job *)

Section Pipeline.
Context {libs : Libs} {service : Anthropic} {floats : FloatModel}.
Import WorldSpec DocumentSpec.

Lemma compile_results_typed (items : list TranscriptionResult) (title : string) (w : World) :
  Transcriber.compile_results (to_dict <$> items) title w
  = (Ok (spec_document title (clock w) items), w).
Proof.
  unfold Transcriber.compile_results, bind, now, lift.
  rewrite count_success_typed, length_fmap.
  rewrite (compile_loop_typed items 1 [_; _; _; _; _; _; _]).
  unfold Transcriber.join_lines.
  change ([VStr ("# " +:+ title); VStr ("Transcribed on: " +:+ clock w);
           VStr ("Total images processed: " +:+ pretty (Z.of_nat (length items)));
           VStr ("Successful transcriptions: " +:+
                 pretty (Z.of_nat (length (filter (λ r, success r = true) items))));
           VStr ""; VStr "---"; VStr ""] ++ (VStr <$> spec_sections 1 items))
    with (VStr <$> (("# " +:+ title) :: ("Transcribed on: " +:+ clock w)
                    :: spec_after_timestamp items)).
  now rewrite all_str_strings.
Qed.

Lemma txt_md_differ (d name : string) :
  PyPath.joinpath d (name +:+ ".txt") ≠ PyPath.joinpath d (name +:+ ".md").
Proof.
  intros H. apply joinpath_inj in H. apply (inj (String.app _)) in H. discriminate.
Qed.

Lemma save_output_run (self : Transcriber.ImageTranscriber) (content name : string) (w : World) :
  let txt := PyPath.joinpath (Transcriber.output_dir self) (name +:+ ".txt") in
  let md := PyPath.joinpath (Transcriber.output_dir self) (name +:+ ".md") in
  Transcriber.save_output self content name w
  = (Ok (txt, md),
     mkWorld (<[md := content]> (<[txt := content]> (files w))) (dirs w) (clock w)
             (served w) (log w ++ [EvWrite txt; EvWrite md])).
Proof.
  cbv zeta. unfold Transcriber.save_output, bind, write_file, ret. cbn.
  now rewrite <- app_assoc.
Qed.

(** The batch with its default size: it returns, its items are typed and
    named after the paths, and it keeps directories and clock. *)
Lemma transcribe_batch_typed (self : Transcriber.ImageTranscriber) (paths : list string)
    (w : World) :
  ∃ (rs : list TranscriptionResult) (w' : World),
    Transcriber.transcribe_batch self paths 10 w = (Ok (to_dict <$> rs), w')
    ∧ filename <$> rs = PyPath.name <$> paths
    ∧ dirs w' = dirs w ∧ clock w' = clock w.
Proof.
  destruct (transcribe_loop_files self 10 ltac:(discriminate) paths 1 [] w)
    as (items & w' & Hrun & _ & Hty & Hd & Hc & _ & _).
  destruct (typed_items _ _ Hty) as (rs & -> & Hnames).
  now exists rs, w'.
Qed.

(** [process_images] on an existing directory. *)
Lemma process_images_run (svc : Service.TranscriptionService) (d name : string) (w : World) :
  d ∈ dirs w →
  let paths := filter (λ p, Transcriber.is_image Config.ALLOWED_EXTENSIONS p)
                 (merge_sort String.le (elements (entries w d))) in
  let out := Transcriber.output_dir (Service.transcriber svc) in
  ∃ (rs : list TranscriptionResult) (w' : World),
    Service.process_images svc d name w
    = (Ok (to_dict <$> rs,
           match paths with
           | [] => ""
           | _ => spec_document ("Transcription - " +:+ Service.job_id svc) (clock w) rs
           end), w')
    ∧ filename <$> rs = PyPath.name <$> paths
    ∧ dirs w' = dirs w
    ∧ match paths with
      | [] => w' = w
      | _ =>
          files w' !! PyPath.joinpath out (name +:+ ".txt")
          = Some (spec_document ("Transcription - " +:+ Service.job_id svc) (clock w) rs)
          ∧ files w' !! PyPath.joinpath out (name +:+ ".md")
            = Some (spec_document ("Transcription - " +:+ Service.job_id svc) (clock w) rs)
      end.
Proof.
  intros Hd paths out. unfold Service.process_images.
  erewrite bind_ok.
  2:{ unfold sorted_iterdir. rewrite decide_True by exact Hd. reflexivity. }
  fold paths. destruct paths as [|p paths'] eqn:Epaths.
  - exists [], w. repeat split; reflexivity.
  - destruct (transcribe_batch_typed (Service.transcriber svc) (p :: paths') w)
      as (rs & w1 & Hrun & Hnames & Hd1 & Hc1).
    eexists rs, _. split; [|split; [exact Hnames|split]].
    + rewrite (bind_ok _ _ _ _ _ Hrun).
      rewrite (bind_ok _ _ _ _ _ (compile_results_typed rs _ w1)).
      rewrite (bind_ok _ _ _ _ _ (save_output_run _ _ _ w1)).
      rewrite Hc1. reflexivity.
    + exact Hd1.
    + cbn [files]. fold out. split.
      * rewrite lookup_insert_ne by (apply not_eq_sym, txt_md_differ).
        now rewrite lookup_insert_eq.
      * now rewrite lookup_insert_eq.
Qed.

End Pipeline.

Section Outcome.
Context {libs : Libs} {service : Anthropic} {floats : FloatModel} {models : Pydantic}.
Variable settings : Config.Settings.
Import Routes LifecycleSpec WorldSpec RunSpec DocumentSpec.

Lemma service_init_run (job_id : string) (w : World) :
  Config.ANTHROPIC_API_KEY settings ≠ "" →
  let out := PyPath.joinpath (Config.OUTPUT_DIR settings) job_id in
  Service.init settings job_id w
  = (Ok (Service.mkService job_id out
           (Transcriber.mkTranscriber (Config.ANTHROPIC_API_KEY settings) out)),
     mkWorld (files w) ({[out]} ∪ dirs w) (clock w) (served w) (log w)).
Proof.
  intros Hkey. unfold Service.init, Transcriber.init.
  assert (Hneq : String.eqb (Config.ANTHROPIC_API_KEY settings) "" = false)
    by now apply String.eqb_neq.
  rewrite Hneq. cbv beta iota zeta. rewrite Hneq. reflexivity.
Qed.

Lemma service_init_no_key (job_id : string) (w : World) :
  Config.ANTHROPIC_API_KEY settings = "" →
  Service.init settings job_id w
  = (Raise (Exception "ValueError"
      "API key required. Set ANTHROPIC_API_KEY env var or pass api_key parameter"), w).
Proof. intros Hkey. unfold Service.init, Transcriber.init. now rewrite Hkey. Qed.

Lemma pipeline_run (job_id image_dir : string) (w : World) :
  Config.ANTHROPIC_API_KEY settings ≠ "" →
  image_dir ∈ dirs w →
  let paths := listed_images settings job_id image_dir w in
  let out := PyPath.joinpath (Config.OUTPUT_DIR settings) job_id in
  let doc rs := match paths with
                | [] => ""
                | _ => spec_document ("Transcription - " +:+ job_id) (clock w) rs
                end in
  ∃ (rs : list TranscriptionResult) (w' : World),
    pipeline settings job_id image_dir w = (Ok (to_dict <$> rs, doc rs), w')
    ∧ Models.filename <$> rs = PyPath.name <$> paths
    ∧ (paths ≠ [] →
       files w' !! PyPath.joinpath out "transcription.txt" = Some (doc rs)
       ∧ files w' !! PyPath.joinpath out "transcription.md" = Some (doc rs)).
Proof.
  intros Hkey Hdir paths out doc. unfold pipeline.
  rewrite (bind_ok _ _ _ _ _ (service_init_run job_id w Hkey)).
  destruct (process_images_run
              (Service.mkService job_id out
                 (Transcriber.mkTranscriber (Config.ANTHROPIC_API_KEY settings) out))
              image_dir "transcription" (listing_world settings job_id w))
    as (rs & w' & Hrun & Hnames & _ & Hfiles).
  { cbn [dirs listing_world]. set_solver. }
  exists rs, w'. split; [exact Hrun|]. split; [exact Hnames|].
  intros Hne. fold (listed_images settings job_id image_dir w) in Hfiles. fold paths in Hfiles.
  unfold doc. destruct paths; [contradiction|]. exact Hfiles.
Qed.

Lemma validate_results_typed (rs : list TranscriptionResult) :
  validate_results (to_dict <$> rs) = Ok rs.
Proof.
  induction rs as [|r rs IH]; [reflexivity|].
  rewrite fmap_cons. cbn [validate_results]. now rewrite validate_to_dict, IH.
Qed.

Lemma stored_jobs (job_id : string) (s : Server) (w : World) (j0 : Job) (js : list Job) :
  jobs (stored job_id s w j0 js) !! job_id = Some (default j0 (last js)).
Proof. unfold stored. cbn [jobs]. now rewrite lookup_insert_eq. Qed.

(** X4.  A run on a registered job ends [completed] whenever an API key is
    configured and the image directory exists, whatever the service answers:
    failures of single images are recorded in the results, never raised.
    The stored results are the dicts of one result per listed image, in
    listing order and under the image's file name; the count is their
    number. *)
Theorem run_completes_when_directory_exists
    (s : Server) (job_id image_dir : string) (j0 : Job) :
  jobs s !! job_id = Some j0 →
  Config.ANTHROPIC_API_KEY settings ≠ "" →
  image_dir ∈ dirs (world s) →
  ∃ (rs : list TranscriptionResult) (text : string) (s' : Server),
    process_transcription_job settings job_id image_dir s = (Ok tt, s')
    ∧ jobs s' !! job_id
      = Some (mkJob COMPLETED (total_images j0) (Z.of_nat (length rs))
                    (Some (to_dict <$> rs)) (Some text)
                    "Transcription completed successfully")
    ∧ Models.filename <$> rs = PyPath.name <$> listed_images settings job_id image_dir (world s)
    ∧ tasks s' = tasks s.
Proof.
  intros Hjob Hkey Hdir.
  destruct (pipeline_run job_id image_dir (world s) Hkey Hdir) as (rs & w' & Hp & Hn & _).
  eexists rs, _, _. rewrite (process_transcription_job_run settings _ _ _ _ Hjob), Hp.
  split; [reflexivity|]. cbn [fst snd]. rewrite stored_jobs.
  cbn. rewrite length_fmap. auto.
Qed.


(** X6.  The results endpoint after a run: on a job the run has completed,
    [get_job_results] answers with exactly the results the run stored, read
    back as [TranscriptionResult]s, and with the compiled text; validation
    cannot fail on them, and the server is left as it is. *)
Theorem get_job_results_after_run
    (s : Server) (job_id image_dir : string) (j0 : Job) :
  jobs s !! job_id = Some j0 →
  Config.ANTHROPIC_API_KEY settings ≠ "" →
  image_dir ∈ dirs (world s) →
  let s' := (process_transcription_job settings job_id image_dir s).2 in
  ∃ (rs : list TranscriptionResult) (text : string),
    get_job_results job_id s' = (Ok (job_id, COMPLETED, rs, Some text), s')
    ∧ (results <$> jobs s' !! job_id) = Some (Some (to_dict <$> rs))
    ∧ Models.filename <$> rs = PyPath.name <$> listed_images settings job_id image_dir (world s).
Proof.
  intros Hjob Hkey Hdir s'.
  destruct (pipeline_run job_id image_dir (world s) Hkey Hdir) as (rs & w' & Hp & Hn & _).
  eexists rs, _. unfold s'.
  rewrite (process_transcription_job_run settings _ _ _ _ Hjob), Hp. cbn [fst snd].
  unfold get_job_results. rewrite stored_jobs. cbn.
  rewrite validate_results_typed. auto.
Qed.

End Outcome.

(** ** Generated content *)

Section Generated.
Context {libs : Libs} {service : Anthropic}.
Import ContentGen DispatchSpec.

Lemma grows_refl (w : World) : grows w w.
Proof. split; [auto|set_solver]. Qed.

Lemma grows_trans (w1 w2 w3 : World) : grows w1 w2 → grows w2 w3 → grows w1 w3.
Proof. intros [H1 H2] [H3 H4]. split; [auto|set_solver]. Qed.

Lemma generate_text_ok (prompt path p : string) (w w' : World) :
  generate_text prompt path w = (Ok p, w') →
  p = path ∧ is_Some (files w' !! path) ∧ grows w w' ∧ served w' = S (served w).
Proof.
  unfold generate_text, bind, ask, mkdir, write_file, ret.
  destruct (messages_create (served w) (Prompt prompt)) as [content|e]; [|discriminate].
  cbn. intros [= <- <-]. cbn. split; [reflexivity|]. split.
  - rewrite lookup_insert_eq. eauto.
  - split; [|reflexivity]. split; cbn.
    + intros q Hq. destruct (decide (path = q)) as [->|Hne].
      * rewrite lookup_insert_eq. eauto.
      * now rewrite lookup_insert_ne.
    + set_solver.
Qed.

Lemma generate_flashcards_ok (text path p : string) (w w' : World) :
  generate_flashcards text path w = (Ok p, w') →
  p = path ∧ is_Some (files w' !! path) ∧ grows w w' ∧ served w' = S (served w).
Proof.
  unfold generate_flashcards, bind at 1, ask.
  destruct (messages_create (served w) (Prompt (flashcards_prompt text))) as [response|e];
    [|discriminate].
  unfold try_except, bind, lift, mkdir, write_file, raise, ret.
  destruct (parse_response response) as [data|e]; [|discriminate].
  destruct (readable_cards data) as [written [e|]]; [discriminate|].
  cbn. intros [= <- <-]. cbn. split; [reflexivity|]. split.
  - destruct (decide (PyPath.with_suffix path ".txt" = path)) as [->|Hne].
    + rewrite lookup_insert_eq. eauto.
    + rewrite lookup_insert_ne by exact Hne. rewrite lookup_insert_eq. eauto.
  - split; [|reflexivity]. split; cbn.
    + intros q Hq.
      destruct (decide (PyPath.with_suffix path ".txt" = q)) as [->|Hne];
        [rewrite lookup_insert_eq; eauto|rewrite lookup_insert_ne by exact Hne].
      destruct (decide (path = q)) as [->|Hne2];
        [rewrite lookup_insert_eq; eauto|now rewrite lookup_insert_ne].
    + set_solver.
Qed.

Lemma generate_one_ok (text out key p : string) (t : ContentType) (w w' : World) :
  generate_one text out t w = (Ok (key, p), w') →
  key = content_key t ∧ p = PyPath.joinpath out (content_file t)
  ∧ is_Some (files w' !! p) ∧ grows w w' ∧ served w' = S (served w).
Proof.
  destruct t; cbn [generate_one content_key content_file]; unfold bind.
  - destruct (generate_flashcards _ _ w) as [[q|e] w1] eqn:E; [|discriminate].
    intros [= <- <- <-]. apply generate_flashcards_ok in E as (-> & ? & ? & ?). auto.
  - destruct (generate_infographic_text _ _ w) as [[q|e] w1] eqn:E; [|discriminate].
    intros [= <- <- <-]. apply generate_text_ok in E as (-> & ? & ? & ?). auto.
  - destruct (generate_video_script _ _ w) as [[q|e] w1] eqn:E; [|discriminate].
    intros [= <- <- <-]. apply generate_text_ok in E as (-> & ? & ? & ?). auto.
  - destruct (generate_podcast_format _ _ w) as [[q|e] w1] eqn:E; [|discriminate].
    intros [= <- <- <-]. apply generate_text_ok in E as (-> & ? & ? & ?). auto.
Qed.

Lemma generate_loop_ok (text out : string) (ts : list ContentType) :
  ∀ (done : list ContentType) (acc generated : gmap string string) (w w' : World),
  gathered out done w acc →
  generate_loop text out ts acc w = (Ok generated, w') →
  gathered out (done ++ ts) w' generated ∧ grows w w'
  ∧ served w' = (served w + length ts)%nat.
Proof.
  induction ts as [|t ts IH]; intros done acc generated w w' Hacc.
  - cbn. intros [= <- <-]. rewrite app_nil_r. split; [exact Hacc|].
    split; [apply grows_refl|lia].
  - cbn [generate_loop]. unfold bind at 1.
    destruct (generate_one text out t w) as [[[key p]|e] w1] eqn:E; [|discriminate].
    apply generate_one_ok in E as (-> & -> & Hp & Hg & Hs).
    intros Hrun. apply (IH (done ++ [t])) in Hrun as (Hgath & Hg2 & Hs2).
    + rewrite <- app_assoc in Hgath. split; [exact Hgath|].
      split; [eapply grows_trans; eassumption|]. rewrite Hs2, Hs. cbn [length]. lia.
    + destruct Hacc as [Hacc1 Hacc2]. split.
      * intros key q Hq. destruct (decide (key = content_key t)) as [->|Hne].
        -- rewrite lookup_insert_eq in Hq. injection Hq as <-.
           exists t. split; [set_solver|]. auto.
        -- rewrite lookup_insert_ne in Hq by (intros Heq; now apply Hne).
           destruct (Hacc1 key q Hq) as (t' & Ht' & -> & -> & Hex).
           exists t'. split; [set_solver|]. split; [reflexivity|]. split; [reflexivity|].
           now apply Hg.
      * intros t' Ht'. destruct (decide (content_key t' = content_key t)) as [->|Hne].
        -- rewrite lookup_insert_eq. eauto.
        -- rewrite lookup_insert_ne by (intros Heq; now apply Hne).
           apply Hacc2. set_solver.
Qed.

Lemma generate_content_ok (text out : string) (ts : list ContentType)
    (generated : gmap string string) (w w' : World) :
  generate_content text ts out w = (Ok generated, w') →
  gathered out ts w' generated ∧ grows w w' ∧ served w' = (served w + length ts)%nat.
Proof.
  unfold generate_content, bind at 1, mkdir. intros Hrun.
  apply (generate_loop_ok text out ts [] ∅) in Hrun as (Hg & Hgr & Hs).
  - split; [exact Hg|]. split; [|exact Hs].
    destruct Hgr as [H1 H2]. split; [exact H1|]. cbn [dirs] in H2. set_solver.
  - split; [intros key p Hk; now rewrite lookup_empty in Hk|intros t Ht; set_solver].
Qed.

End Generated.

Section Downloads.
Context {libs : Libs} {service : Anthropic} {floats : FloatModel}.
Variable settings : Config.Settings.
Import Routes LifecycleSpec WorldSpec RunSpec DocumentSpec DispatchSpec.

Lemma content_key_inj : Inj (=) (=) content_key.
Proof. intros [] [] H; (reflexivity || discriminate). Qed.

Lemma download_path_content (job_id : string) (t : ContentType) :
  download_path settings job_id (content_key t)
  = Some (PyPath.joinpath
            (PyPath.joinpath (PyPath.joinpath (Config.OUTPUT_DIR settings) job_id)
                             "generated_content")
            (content_file t)).
Proof. now destruct t. Qed.

Lemma name_content_file (d : string) (t : ContentType) :
  PyPath.name (PyPath.joinpath d (content_file t)) = content_file t.
Proof. apply name_joinpath. now destruct t. Qed.

(** X7.  [generate_content] of the service, when it returns: the dict holds
    exactly the keys of the requested types, each mapped to the file of its
    type under [output_dir], and that file exists afterwards; one request
    was made per requested type, repeated types included. *)
Theorem generate_content_returns_requested
    (text out : string) (ts : list ContentType) (generated : gmap string string)
    (w w' : World) :
  ContentGen.generate_content text ts out w = (Ok generated, w') →
  dom generated = list_to_set (content_key <$> ts)
  ∧ (∀ t, t ∈ ts →
       generated !! content_key t = Some (PyPath.joinpath out (content_file t))
       ∧ is_Some (files w' !! PyPath.joinpath out (content_file t)))
  ∧ served w' = (served w + length ts)%nat.
Proof.
  intros Hrun. apply generate_content_ok in Hrun as ([Hkeys Hall] & _ & Hs).
  split; [|split; [|exact Hs]].
  - apply set_eq. intros key. rewrite elem_of_dom, elem_of_list_to_set, list_elem_of_fmap.
    split.
    + intros [p Hp]. destruct (Hkeys key p Hp) as (t & Ht & -> & _). eauto.
    + intros (t & -> & Ht). now apply Hall.
  - intros t Ht. destruct (Hall t Ht) as [p Hp].
    destruct (Hkeys _ p Hp) as (t' & _ & Heq & -> & Hex).
    apply content_key_inj in Heq as <-. now rewrite Hp.
Qed.

Lemma generate_content_route_ok (s s' : Server) (job_id : string) (ts : list ContentType)
    (resp : string * list ContentType * gmap string string * string) :
  Routes.generate_content settings job_id ts s = (Ok resp, s') →
  ∃ generated w',
    resp = (job_id, ts, generated, "Content generated successfully")
    ∧ s' = mkServer (jobs s) w' (tasks s) (history s)
    ∧ is_Some (jobs s !! job_id)
    ∧ ∃ text,
        ContentGen.generate_content text ts
          (PyPath.joinpath (PyPath.joinpath (Config.OUTPUT_DIR settings) job_id)
                           "generated_content") (world s)
        = (Ok generated, w').
Proof.
  unfold Routes.generate_content.
  destruct (jobs s !! job_id) as [job|] eqn:Hjob; [|discriminate].
  destruct (decide (status job ≠ COMPLETED)); [discriminate|].
  destruct (compiled_text job) as [[|c text]|]; [discriminate| |discriminate].
  unfold try_except, bind, zoom, raise, ret.
  destruct (ContentGen.generate_content _ ts _ (world s)) as [[generated|e] w'] eqn:E;
    [|discriminate].
  intros [= <- <-]. exists generated, w'. eauto 10.
Qed.

(** X8.  Every file the content endpoint reports can be fetched: after
    [generate_content] has answered for a job, [download_file] with the key
    of any requested type returns the very path the response lists under that
    key, under the file's own name. *)
Theorem generated_files_are_downloadable
    (s s' : Server) (job_id : string) (ts ts' : list ContentType)
    (generated : gmap string string) (msg : string) :
  Routes.generate_content settings job_id ts s = (Ok (job_id, ts', generated, msg), s') →
  ∀ t, t ∈ ts →
    ∃ path,
      generated !! content_key t = Some path
      ∧ download_file settings job_id (content_key t) s'
        = (Ok (path, content_file t, "application/octet-stream"), s').
Proof.
  intros Hrun t Ht.
  apply generate_content_route_ok in Hrun
    as (generated' & w' & [= <- <-] & -> & [job Hjob] & text & Hgen).
  apply generate_content_ok in Hgen as ([Hkeys Hall] & _ & _).
  destruct (Hall t Ht) as [p Hp]. exists p. split; [exact Hp|].
  destruct (Hkeys _ p Hp) as (t' & _ & Heq & -> & Hex).
  apply content_key_inj in Heq as <-.
  unfold download_file. cbn [jobs world]. rewrite Hjob, download_path_content.
  unfold path_exists. cbn [world]. rewrite bool_decide_eq_true_2 by now left.
  now rewrite name_content_file.
Qed.

(** X9.  What [POST /generate-content] answers.  An unknown job gives 404; a
    known job that is not [completed] gives 400 ("Transcription must be
    completed first"); a completed job without text, or with an empty one,
    gives 400 ("No transcription text available"); in these three cases the
    server is left as it is.  Otherwise the generator runs on the stored
    text: when it returns, the response carries the job id, the requested
    types and its files; when it raises [e], the client gets 500 with
    [Content generation failed: ] followed by [str(e)].  The job store, the
    task queue and the history are never touched. *)
Theorem generate_content_route_outcomes
    (s : Server) (job_id : string) (ts : list ContentType) :
  let run := Routes.generate_content settings job_id ts s in
  let out := PyPath.joinpath (PyPath.joinpath (Config.OUTPUT_DIR settings) job_id)
                             "generated_content" in
  (jobs run.2 = jobs s ∧ tasks run.2 = tasks s ∧ history run.2 = history s)
  ∧ (jobs s !! job_id = None → run = (Raise (HTTPException 404 "Job not found"), s))
  ∧ (∀ job, jobs s !! job_id = Some job →
       (status job ≠ COMPLETED →
        run = (Raise (HTTPException 400 "Transcription must be completed first"), s))
       ∧ (status job = COMPLETED →
          compiled_text job = None ∨ compiled_text job = Some "" →
          run = (Raise (HTTPException 400 "No transcription text available"), s))
       ∧ (status job = COMPLETED →
          ∀ text, compiled_text job = Some text → text ≠ "" →
            world run.2 = (ContentGen.generate_content text ts out (world s)).2
            ∧ run.1 = match (ContentGen.generate_content text ts out (world s)).1 with
                      | Ok generated =>
                          Ok (job_id, ts, generated, "Content generated successfully")
                      | Raise e =>
                          Raise (HTTPException 500
                                   ("Content generation failed: " +:+ exn_str e))
                      end)).
Proof.
  intros run out. split; [|split].
  - unfold run, Routes.generate_content.
    destruct (jobs s !! job_id) as [job|]; [|cbn; auto].
    destruct (decide (status job ≠ COMPLETED)); [cbn; auto|].
    destruct (compiled_text job) as [[|c text]|]; [cbn; auto| |cbn; auto].
    unfold try_except, bind, zoom, raise, ret.
    now destruct (ContentGen.generate_content _ ts _ (world s)) as [[generated|e] w'].
  - intros Hjob. unfold run, Routes.generate_content. now rewrite Hjob.
  - intros job Hjob. unfold run, Routes.generate_content. rewrite Hjob.
    split; [|split].
    + intros Hst. now rewrite decide_True.
    + intros Hst Htext. rewrite decide_False by (intros Hc; now apply Hc).
      now destruct Htext as [-> | ->].
    + intros Hst text Htext Hne. rewrite decide_False by (intros Hc; now apply Hc).
      rewrite Htext. destruct text as [|c text]; [contradiction|].
      unfold try_except, bind, zoom, raise, ret. fold out.
      now destruct (ContentGen.generate_content _ ts out (world s)) as [[generated|e] w'].
Qed.

End Downloads.

(** ** The transcript of a job *)

Section Transcript.
Context {libs : Libs} {service : Anthropic} {floats : FloatModel}.
Variable settings : Config.Settings.
Import Routes LifecycleSpec WorldSpec RunSpec DocumentSpec.

Lemma stored_world (job_id : string) (s : Server) (w : World) (j0 : Job) (js : list Job) :
  world (stored job_id s w j0 js) = w.
Proof. reflexivity. Qed.

(** X10.  The transcript of a run can be fetched: after a run that found at
    least one image, [download_file] with type [transcription] returns
    [transcription.txt] in the output directory of the job, and that file
    holds the compiled text stored in the job record. *)
Theorem transcription_is_downloadable_after_run
    (s : Server) (job_id image_dir : string) (j0 : Job) :
  jobs s !! job_id = Some j0 →
  Config.ANTHROPIC_API_KEY settings ≠ "" →
  image_dir ∈ dirs (world s) →
  listed_images settings job_id image_dir (world s) ≠ [] →
  let s' := (process_transcription_job settings job_id image_dir s).2 in
  let path := PyPath.joinpath (PyPath.joinpath (Config.OUTPUT_DIR settings) job_id)
                              "transcription.txt" in
  ∃ text,
    download_file settings job_id "transcription" s'
    = (Ok (path, "transcription.txt", "application/octet-stream"), s')
    ∧ files (world s') !! path = Some text
    ∧ (compiled_text <$> jobs s' !! job_id) = Some (Some text).
Proof.
  intros Hjob Hkey Hdir Hne s' path.
  destruct (pipeline_run settings job_id image_dir (world s) Hkey Hdir)
    as (rs & w' & Hp & _ & Hfiles).
  destruct (Hfiles Hne) as [Htxt _]. fold path in Htxt.
  eexists. unfold s'.
  rewrite (process_transcription_job_run settings _ _ _ _ Hjob), Hp. cbn [fst snd].
  unfold download_file. rewrite stored_jobs, stored_world.
  change (download_path settings job_id "transcription") with (Some path).
  unfold path_exists. rewrite bool_decide_eq_true_2 by (left; rewrite Htxt; eauto).
  unfold path. rewrite name_joinpath by reflexivity.
  split; [reflexivity|]. split; [exact Htxt|]. reflexivity.
Qed.

(** X11.  A run that finds no image writes no transcript: the job is
    [completed], yet [download_file] answers 404 [File not found] unless a
    file of that name was there before. *)
Theorem transcription_is_missing_without_images
    (s : Server) (job_id image_dir : string) (j0 : Job) :
  jobs s !! job_id = Some j0 →
  Config.ANTHROPIC_API_KEY settings ≠ "" →
  image_dir ∈ dirs (world s) →
  listed_images settings job_id image_dir (world s) = [] →
  let s' := (process_transcription_job settings job_id image_dir s).2 in
  let path := PyPath.joinpath (PyPath.joinpath (Config.OUTPUT_DIR settings) job_id)
                              "transcription.txt" in
  path_exists path (world s) = false →
  (status <$> jobs s' !! job_id) = Some COMPLETED
  ∧ download_file settings job_id "transcription" s'
    = (Raise (HTTPException 404 "File not found"), s').
Proof.
  intros Hjob Hkey Hdir Hnone s' path Hmiss.
  assert (Hp : pipeline settings job_id image_dir (world s)
               = (Ok ([], ""), listing_world settings job_id (world s))).
  { unfold pipeline.
    rewrite (bind_ok _ _ _ _ _ (service_init_run settings job_id _ Hkey)).
    unfold Service.process_images. erewrite bind_ok.
    2:{ unfold sorted_iterdir. rewrite decide_True; [reflexivity|]. cbn [dirs]. set_solver. }
    unfold listed_images, listing_world in Hnone. now rewrite Hnone. }
  unfold s'. rewrite (process_transcription_job_run settings _ _ _ _ Hjob), Hp.
  cbn [fst snd]. rewrite stored_jobs. split; [reflexivity|].
  unfold download_file. rewrite stored_jobs, stored_world.
  change (download_path settings job_id "transcription") with (Some path).
  assert (Hmiss' : path_exists path (listing_world settings job_id (world s)) = false).
  { unfold path_exists in *. apply bool_decide_eq_false in Hmiss.
    apply bool_decide_eq_false. cbn [files dirs listing_world]. intros [Hf|Hd].
    - apply Hmiss. now left.
    - apply Hmiss. right. apply elem_of_union in Hd as [Hd|Hd]; [|exact Hd].
      apply elem_of_singleton in Hd. now apply joinpath_not_self in Hd. }
  cbv beta iota. now rewrite Hmiss'.
Qed.

End Transcript.

(** ** The command line *)

Section CommandLine.
Context {libs : Libs} {service : Anthropic} {floats : FloatModel}.
Import WorldSpec DocumentSpec LifecycleSpec CommandSpec.






End CommandLine.

(** ** Uploads *)

Section Uploads.
Variable settings : Config.Settings.
Import Routes LifecycleSpec UploadSpec.








End Uploads.

(** ** Flashcards, media types, start-up *)

Section Flashcards.
Context {libs : Libs} {service : Anthropic}.
Import ContentGen DeckSpec.

Lemma write_cards_shape (cards : list PyVal) :
  ∀ (i : Z) (written : string),
  (write_cards i cards written).2 = None ↔ forallb is_dict cards = true.
Proof.
  induction cards as [|card cards IH]; intros i written; [done|].
  cbn [write_cards forallb]. destruct card as [| | | | | |kv]; cbn; try (split; discriminate).
  apply IH.
Qed.

Lemma readable_cards_shape (data : PyVal) :
  (readable_cards data).2 = None ↔ deck_shape data = true.
Proof.
  unfold readable_cards, deck_shape.
  destruct data as [| | | | | |kv]; cbn; try (split; discriminate).
  destruct (py_iter (dict_get kv "flashcards" (VList []))) as [cards|e]; cbn;
    [apply write_cards_shape|split; discriminate].
Qed.

Lemma generate_flashcards_parsed (text path response : string) (data : PyVal) (w : World) :
  messages_create (served w) (Prompt (flashcards_prompt text)) = Ok response →
  parse_response response = Ok data →
  let txt := PyPath.with_suffix path ".txt" in
  let w1 := mkWorld (files w) (dirs w) (clock w) (S (served w))
                    (log w ++ [EvRequest (Prompt (flashcards_prompt text))]) in
  generate_flashcards text path w
  = match (readable_cards data).2 with
    | None =>
        (Ok path,
         mkWorld (<[txt := (readable_cards data).1]> (<[path := json_dumps data]> (files w)))
                 ({[PyPath.parent path]} ∪ dirs w) (clock w) (S (served w))
                 (log w1 ++ [EvWrite path] ++ [EvWrite txt]))
    | Some e =>
        (Raise (Exception "Exception" ("Failed to parse flashcards JSON: " +:+ exn_str e)),
         mkWorld (<[txt := response]>
                    (<[txt := (readable_cards data).1]> (<[path := json_dumps data]> (files w))))
                 ({[PyPath.parent path]} ∪ dirs w) (clock w) (S (served w))
                 ((log w1 ++ [EvWrite path] ++ [EvWrite txt]) ++ [EvWrite txt]))
    end.
Proof.
  intros Hreply Hparse txt w1. unfold generate_flashcards, bind at 1, ask. rewrite Hreply.
  unfold try_except, bind, lift, mkdir, write_file, raise, ret. rewrite Hparse.
  destruct (readable_cards data) as [written [e|]]; cbn; rewrite <- ?app_assoc; reflexivity.
Qed.

(** X17.  When the service has answered, [generate_flashcards] returns the
    path of the JSON file exactly when the extracted text parses as JSON
    and has the shape of a deck: an object whose [flashcards] entry (absent
    counts as empty) can be iterated and yields objects only.  Cards need
    not carry any field: a missing category reads [General], a missing
    question or answer is empty. *)
Theorem generate_flashcards_returns_iff_deck
    (text path response : string) (w : World) :
  messages_create (served w) (Prompt (flashcards_prompt text)) = Ok response →
  ((generate_flashcards text path w).1 = Ok path
   ↔ ∃ data, parse_response response = Ok data ∧ deck_shape data = true)
  ∧ (write_cards 1 [VDict []] "").1
    = "Card 1 - General" +:+ PyStr.nl +:+ "Q: " +:+ PyStr.nl +:+ "A: " +:+ PyStr.nl +:+ PyStr.nl.
Proof.
  intros Hreply. split; [|reflexivity].
  destruct (parse_response response) as [data|e] eqn:Hparse.
  - rewrite (generate_flashcards_parsed text path response data w Hreply Hparse).
    split.
    + intros Hok. exists data. split; [reflexivity|]. apply readable_cards_shape.
      destruct (readable_cards data).2; [discriminate|reflexivity].
    + intros (data' & [= <-] & Hshape). apply readable_cards_shape in Hshape.
      now rewrite Hshape.
  - rewrite (generate_flashcards_unparsed text path response e w Hreply Hparse). split.
    + discriminate.
    + intros (data & [=] & _).
Qed.

(** X18.  A reply that is valid JSON but has not the shape of a deck (a JSON
    list, say) is reported as a parse failure although it parsed:
    [flashcards.json] has been written with the parsed value by then and
    stays, and the text file beside it ends up holding the raw reply. *)
Theorem generate_flashcards_keeps_json_of_misshapen_reply
    (text path response : string) (data : PyVal) (w : World) :
  messages_create (served w) (Prompt (flashcards_prompt text)) = Ok response →
  parse_response response = Ok data →
  deck_shape data = false →
  let run := generate_flashcards text path w in
  let txt := PyPath.with_suffix path ".txt" in
  (∃ e, (readable_cards data).2 = Some e
        ∧ run.1 = Raise (Exception "Exception"
                           ("Failed to parse flashcards JSON: " +:+ exn_str e)))
  ∧ files run.2 !! txt = Some response
  ∧ (txt ≠ path → files run.2 !! path = Some (json_dumps data)).
Proof.
  intros Hreply Hparse Hshape run txt. unfold run.
  rewrite (generate_flashcards_parsed text path response data w Hreply Hparse).
  destruct (readable_cards data).2 as [e|] eqn:He.
  - cbn [fst snd files]. split; [eauto|]. fold txt. split.
    + now rewrite lookup_insert_eq.
    + intros Hne. rewrite !lookup_insert_ne by exact Hne. now rewrite lookup_insert_eq.
  - apply readable_cards_shape in He. congruence.
Qed.

End Flashcards.

Section MediaTypes.
Context {libs : Libs} {service : Anthropic} {floats : FloatModel}.

(** X19.  What an image is sent as.  For a path that passes the extension
    filter, [encode_image], when it returns, labels the data [image/jpeg]
    for [.jpg], [.jpeg], [.png] and [.webp] alike (these are re-encoded as
    JPEG), and [image/gif] or [image/bmp] for the two formats sent raw. *)
Theorem encode_image_media_types (p : string) (w : World) (data media_type : string) :
  Transcriber.is_image Config.ALLOWED_EXTENSIONS p = true →
  (Transcriber.encode_image p w).1 = Ok (data, media_type) →
  let ext := PyStr.lower (PyPath.suffix p) in
  ext ∈ [".jpg"; ".jpeg"; ".png"; ".webp"] ∧ media_type = "image/jpeg"
  ∨ ext = ".gif" ∧ media_type = "image/gif"
  ∨ ext = ".bmp" ∧ media_type = "image/bmp".
Proof.
  intros Himg Hrun ext. unfold Transcriber.is_image in Himg.
  apply bool_decide_eq_true in Himg.
  fold ext in Himg. unfold Transcriber.encode_image in Hrun. fold ext in Hrun.
  unfold Config.ALLOWED_EXTENSIONS in Himg.
  destruct (bool_decide (ext ∈ Transcriber.compressed_extensions)) eqn:Ec.
  - apply bool_decide_eq_true in Ec. left. split; [exact Ec|].
    unfold bind, ret in Hrun.
    destruct (Transcriber.compress_image p 5 85 w) as [[bytes|e] w1]; [|discriminate].
    now injection Hrun as _ <-.
  - apply bool_decide_eq_false in Ec. right.
    unfold bind, ret, read_file in Hrun.
    destruct (files w !! p) as [bytes|]; [|discriminate]. injection Hrun as _ <-.
    unfold Transcriber.compressed_extensions in Ec.
    repeat (apply elem_of_cons in Himg as [Himg|Himg]; [rewrite Himg in Ec |- *|]).
    + exfalso. apply Ec. set_solver.
    + exfalso. apply Ec. set_solver.
    + exfalso. apply Ec. set_solver.
    + left. split; reflexivity.
    + exfalso. apply Ec. set_solver.
    + right. split; reflexivity.
    + now apply elem_of_nil in Himg.
Qed.

End MediaTypes.

Section Startup.
Context {libs : Libs} {service : Anthropic} {floats : FloatModel}.


End Startup.

(** ** The listing, and the results endpoint during a run *)

Section SortedListing.
Context {libs : Libs} {service : Anthropic} {floats : FloatModel}.
Import WorldSpec DocumentSpec.



End SortedListing.

Section Window.
Context {libs : Libs} {service : Anthropic} {floats : FloatModel} {models : Pydantic}.
Variable settings : Config.Settings.
Import Routes LifecycleSpec RunSpec.

(** X22.  The results endpoint during the last assignments of a run.  A run
    that completes stores [completed] before it stores the results; on the
    record as it stands in between, [get_job_results] passes its state check
    and then fails on the results that are still [None], with a [TypeError]
    rather than an [HTTPException]. *)
Theorem get_job_results_between_assignments
    (s : Server) (job_id image_dir : string) (j0 : Job) :
  jobs s !! job_id = Some j0 →
  Config.ANTHROPIC_API_KEY settings ≠ "" →
  image_dir ∈ dirs (world s) →
  results j0 = None →
  let s' := (process_transcription_job settings job_id image_dir s).2 in
  ∃ observed,
    observed ∈ history s'
    ∧ ∀ w ts h,
        get_job_results job_id (mkServer observed w ts h)
        = (Raise (TypeError "'NoneType' object is not iterable"),
           mkServer observed w ts h).
Proof.
  intros Hjob Hkey Hdir Hres s'.
  destruct (pipeline_run settings job_id image_dir (world s) Hkey Hdir)
    as (rs & w' & Hp & _).
  exists (<[job_id := set_status COMPLETED
                        (set_message "Processing images..." (set_status PROCESSING j0))]>
            (jobs s)).
  split.
  - unfold s'. rewrite (process_transcription_job_run settings _ _ _ _ Hjob), Hp.
    unfold stored. cbn [history fst snd run_snapshots]. rewrite elem_of_app. right.
    rewrite !fmap_cons. do 2 right. left.
  - intros w ts h. unfold get_job_results. cbn [jobs]. rewrite lookup_insert_eq.
    cbn. now rewrite Hres.
Qed.

End Window.

(** ** The status endpoint *)

Section Status.
Context {floats : FloatModel}.
Import Routes.

Lemma rnd_between (x : Q) (a b : Z) :
  Z.abs a <= 2 ^ 53 → Z.abs b <= 2 ^ 53 →
  (inject_Z a <= x)%Q → (x <= inject_Z b)%Q →
  (inject_Z a <= rnd x)%Q ∧ (rnd x <= inject_Z b)%Q.
Proof.
  intros Ha Hb H1 H2. split.
  - rewrite <- (rnd_integer a Ha). now apply rnd_mono.
  - rewrite <- (rnd_integer b Hb). now apply rnd_mono.
Qed.

Lemma rnd_eq (x y : Q) : (x == y)%Q → (rnd x == rnd y)%Q.
Proof.
  intros Hxy. apply Qle_antisym; apply rnd_mono; rewrite Hxy; apply Qle_refl.
Qed.

Lemma quotient_unit (p t : Z) :
  0 < t → 0 <= p <= t →
  (inject_Z 0 <= inject_Z p / inject_Z t)%Q ∧ (inject_Z p / inject_Z t <= inject_Z 1)%Q.
Proof.
  intros Ht [Hp0 Hpt].
  assert (Htq : (0 < inject_Z t)%Q) by (change 0%Q with (inject_Z 0); now rewrite <- Zlt_Qlt).
  split.
  - apply Qle_shift_div_l; [exact Htq|]. rewrite Qmult_0_l.
    change 0%Q with (inject_Z 0). now rewrite <- Zle_Qle.
  - apply Qle_shift_div_r; [exact Htq|]. rewrite Qmult_1_l. now rewrite <- Zle_Qle.
Qed.

(** The progress a poll reports. *)
Lemma progress_range (p t : Z) :
  0 < t → 0 <= p <= t →
  let progress := PyNum.float_mul (rnd (inject_Z p / inject_Z t)) (PyNum.float_of_int 100) in
  (0 <= progress)%Q ∧ (progress <= 100)%Q ∧ (p = t → (progress == 100)%Q).
Proof.
  intros Ht Hp. cbv zeta. unfold PyNum.float_mul, PyNum.float_of_int.
  destruct (quotient_unit p t Ht Hp) as [Hlo Hhi].
  destruct (rnd_between _ 0 1 ltac:(simpl; lia) ltac:(simpl; lia) Hlo Hhi) as [Hr0 Hr1].
  assert (H100 : (rnd (inject_Z 100) == inject_Z 100)%Q) by (apply rnd_integer; simpl; lia).
  set (done := rnd (inject_Z p / inject_Z t)) in *.
  change (inject_Z 0) with 0%Q in Hr0. change (inject_Z 1) with 1%Q in Hr1.
  change (inject_Z 100) with 100%Q in H100.
  assert (Hprod : (inject_Z 0 <= done * rnd 100)%Q ∧ (done * rnd 100 <= inject_Z 100)%Q).
  { change (inject_Z 0) with 0%Q. change (inject_Z 100) with 100%Q.
    rewrite H100. split; nra. }
  destruct Hprod as [Hp0 Hp100].
  destruct (rnd_between _ 0 100 ltac:(simpl; lia) ltac:(simpl; lia) Hp0 Hp100) as [H0 H1].
  split; [exact H0|]. split; [exact H1|].
  intros ->. 
  assert (Hone : (done == 1)%Q).
  { unfold done. rewrite <- (rnd_integer 1) by (simpl; lia). apply rnd_eq.
    change (inject_Z 1) with 1%Q. field.
    intros Hz. assert (0 < inject_Z t)%Q by (change 0%Q with (inject_Z 0); now rewrite <- Zlt_Qlt).
    lra. }
  apply Qeq_trans with (rnd (inject_Z 100)); [|exact H100].
  apply rnd_eq. rewrite Hone, H100. change (inject_Z 100) with 100%Q. ring.
Qed.

(** X23.  The status endpoint answers for every registered job and leaves
    the server as it is.  It never divides by zero: with a total of 0 (or
    less) the progress is [0.0].  The progress is a percentage: between 0
    and 100 whenever the processed count lies between 0 and the total, and
    exactly [100.0] when the two are equal, rounding included. *)
Theorem get_job_status_reports_progress (s : Server) (job_id : string) (job : Job) :
  jobs s !! job_id = Some job →
  ∃ progress,
    get_job_status job_id s
    = (Ok (job_id, status job, progress, total_images job, processed_images job,
           Some (message job)), s)
    ∧ (total_images job <= 0 → progress = 0%Q)
    ∧ (0 <= processed_images job <= total_images job →
       (0 <= progress)%Q ∧ (progress <= 100)%Q)
    ∧ (0 < total_images job → processed_images job = total_images job →
       (progress == 100)%Q).
Proof.
  intros Hjob. unfold get_job_status. rewrite Hjob.
  destruct (Z.ltb_spec 0 (total_images job)) as [Ht|Ht].
  - eexists. split.
    { unfold bind, lift, ret, PyNum.true_div.
      destruct (Z.eqb_spec (total_images job) 0) as [Hz|_]; [lia|]. reflexivity. }
    split; [lia|]. split.
    + intros Hp. destruct (progress_range _ _ Ht Hp) as (H0 & H1 & _). now split.
    + intros _ Heq.
      destruct (progress_range (processed_images job) (total_images job) Ht) as (_ & _ & H);
        [lia|]. now apply H.
  - exists 0%Q. split; [reflexivity|]. split; [reflexivity|]. split.
    + intros Hp. assert (total_images job = 0) by lia. split; discriminate.
    + lia.
Qed.

End Status.

(** ** The properties above on the scenarios *)

Import WorldSpec RunSpec UploadSpec DispatchSpec DeckSpec.







Lemma uploaded_server_ready :
  Routes.jobs uploaded_server !! "job1" = Some (LifecycleSpec.fresh_job 3)
  ∧ Config.ANTHROPIC_API_KEY demo_settings ≠ ""
  ∧ "/srv/backend/uploads/job1" ∈ dirs (Routes.world uploaded_server).
Proof.
  split; [vm_compute; reflexivity|]. split; [discriminate|]. by_decision.
Qed.

Lemma run_completes_when_directory_exists_witness :
  (Routes.jobs uploaded_server !! "job1" = Some (LifecycleSpec.fresh_job 3)
   ∧ Config.ANTHROPIC_API_KEY demo_settings ≠ ""
   ∧ "/srv/backend/uploads/job1" ∈ dirs (Routes.world uploaded_server))
  ∧ ∃ rs text s',
      Routes.process_transcription_job (service := three_replies) demo_settings
        "job1" "/srv/backend/uploads/job1" uploaded_server = (Ok tt, s')
      ∧ Routes.jobs s' !! "job1"
        = Some (Routes.mkJob COMPLETED 3 (Z.of_nat (length rs)) (Some (to_dict <$> rs))
                  (Some text) "Transcription completed successfully")
      ∧ Models.filename <$> rs = ["a.gif"; "b.png"; "c.JPG"].
Proof.
  split; [exact uploaded_server_ready|].
  destruct uploaded_server_ready as (H1 & H2 & H3).
  destruct (run_completes_when_directory_exists (service := three_replies) demo_settings
              uploaded_server "job1" "/srv/backend/uploads/job1" _ H1 H2 H3)
    as (rs & text & s' & Hrun & Hjob & Hnames & _).
  exists rs, text, s'. split; [exact Hrun|]. split; [exact Hjob|].
  rewrite Hnames. vm_compute. reflexivity.
Defined.



Lemma get_job_status_reports_progress_witness :
  Routes.jobs finished_server !! "job1" = Some finished_job
  ∧ ∃ progress,
      Routes.get_job_status "job1" finished_server
      = (Ok ("job1", COMPLETED, progress, 2, 2,
             Some "Transcription completed successfully"), finished_server)
      ∧ (progress == 100)%Q.
Proof.
  assert (H : Routes.jobs finished_server !! "job1" = Some finished_job) by reflexivity.
  split; [exact H|].
  destruct (get_job_status_reports_progress finished_server "job1" finished_job H)
    as (progress & Hrun & _ & _ & H100).
  exists progress. split; [exact Hrun|]. apply H100; [reflexivity|reflexivity].
Defined.

Lemma get_job_results_after_run_witness :
  (Routes.jobs uploaded_server !! "job1" = Some (LifecycleSpec.fresh_job 3)
   ∧ Config.ANTHROPIC_API_KEY demo_settings ≠ ""
   ∧ "/srv/backend/uploads/job1" ∈ dirs (Routes.world uploaded_server))
  ∧ let s' := (Routes.process_transcription_job (service := three_replies) demo_settings
                 "job1" "/srv/backend/uploads/job1" uploaded_server).2 in
    ∃ rs text,
      Routes.get_job_results "job1" s' = (Ok ("job1", COMPLETED, rs, Some text), s')
      ∧ Models.filename <$> rs = ["a.gif"; "b.png"; "c.JPG"].
Proof.
  split; [exact uploaded_server_ready|].
  destruct uploaded_server_ready as (H1 & H2 & H3). intros s'.
  destruct (get_job_results_after_run (service := three_replies) demo_settings
              uploaded_server "job1" "/srv/backend/uploads/job1" _ H1 H2 H3)
    as (rs & text & Hrun & _ & Hnames).
  exists rs, text. split; [exact Hrun|]. rewrite Hnames. vm_compute. reflexivity.
Defined.

Lemma get_job_results_between_assignments_witness :
  (Routes.jobs uploaded_server !! "job1" = Some (LifecycleSpec.fresh_job 3)
   ∧ Config.ANTHROPIC_API_KEY demo_settings ≠ ""
   ∧ "/srv/backend/uploads/job1" ∈ dirs (Routes.world uploaded_server)
   ∧ Routes.results (LifecycleSpec.fresh_job 3) = None)
  ∧ let s' := (Routes.process_transcription_job (service := three_replies) demo_settings
                 "job1" "/srv/backend/uploads/job1" uploaded_server).2 in
    ∃ observed,
      observed ∈ Routes.history s'
      ∧ (Routes.get_job_results "job1"
           (Routes.mkServer observed (Routes.world s') [] (Routes.history s'))).1
        = Raise (TypeError "'NoneType' object is not iterable").
Proof.
  destruct uploaded_server_ready as (H1 & H2 & H3).
  split; [auto|]. intros s'.
  destruct (get_job_results_between_assignments (service := three_replies) demo_settings
              uploaded_server "job1" "/srv/backend/uploads/job1" _ H1 H2 H3 eq_refl)
    as (observed & Hin & Hfail).
  exists observed. split; [exact Hin|]. now rewrite Hfail.
Defined.

Lemma uploaded_server_has_images :
  listed_images demo_settings "job1" "/srv/backend/uploads/job1"
    (Routes.world uploaded_server) ≠ [].
Proof. vm_compute. discriminate. Qed.

Lemma transcription_is_downloadable_after_run_witness :
  (Routes.jobs uploaded_server !! "job1" = Some (LifecycleSpec.fresh_job 3)
   ∧ Config.ANTHROPIC_API_KEY demo_settings ≠ ""
   ∧ "/srv/backend/uploads/job1" ∈ dirs (Routes.world uploaded_server)
   ∧ listed_images demo_settings "job1" "/srv/backend/uploads/job1"
       (Routes.world uploaded_server) ≠ [])
  ∧ let s' := (Routes.process_transcription_job (service := three_replies) demo_settings
                 "job1" "/srv/backend/uploads/job1" uploaded_server).2 in
    ∃ text,
      Routes.download_file demo_settings "job1" "transcription" s'
      = (Ok ("/srv/backend/outputs/job1/transcription.txt", "transcription.txt",
             "application/octet-stream"), s')
      ∧ files (Routes.world s') !! "/srv/backend/outputs/job1/transcription.txt" = Some text.
Proof.
  destruct uploaded_server_ready as (H1 & H2 & H3).
  split; [split; [exact H1|split; [exact H2|split; [exact H3|exact uploaded_server_has_images]]]|].
  intros s'.
  destruct (transcription_is_downloadable_after_run (service := three_replies) demo_settings
              uploaded_server "job1" "/srv/backend/uploads/job1" _ H1 H2 H3
              uploaded_server_has_images) as (text & Hrun & Hfile & _).
  exists text. split; [exact Hrun|exact Hfile].
Defined.

Lemma transcription_is_missing_without_images_witness :
  (Routes.jobs notes_server !! "job1" = Some pending_job
   ∧ Config.ANTHROPIC_API_KEY demo_settings ≠ ""
   ∧ "/srv/backend/uploads/job1" ∈ dirs (Routes.world notes_server)
   ∧ listed_images demo_settings "job1" "/srv/backend/uploads/job1"
       (Routes.world notes_server) = []
   ∧ Routes.path_exists "/srv/backend/outputs/job1/transcription.txt"
       (Routes.world notes_server) = false)
  ∧ let s' := (Routes.process_transcription_job (service := silent_service) demo_settings
                 "job1" "/srv/backend/uploads/job1" notes_server).2 in
    (Routes.status <$> Routes.jobs s' !! "job1") = Some COMPLETED
    ∧ Routes.download_file demo_settings "job1" "transcription" s'
      = (Raise (HTTPException 404 "File not found"), s').
Proof.
  assert (H1 : Routes.jobs notes_server !! "job1" = Some pending_job) by reflexivity.
  assert (H2 : Config.ANTHROPIC_API_KEY demo_settings ≠ "") by discriminate.
  assert (H3 : "/srv/backend/uploads/job1" ∈ dirs (Routes.world notes_server))
    by by_decision.
  assert (H4 : listed_images demo_settings "job1" "/srv/backend/uploads/job1"
                 (Routes.world notes_server) = []) by (vm_compute; reflexivity).
  assert (H5 : Routes.path_exists "/srv/backend/outputs/job1/transcription.txt"
                 (Routes.world notes_server) = false) by (vm_compute; reflexivity).
  split; [auto 6|].
  exact (transcription_is_missing_without_images (service := silent_service) demo_settings
           notes_server "job1" "/srv/backend/uploads/job1" pending_job H1 H2 H3 H4 H5).
Defined.

Lemma generate_content_returns_requested_witness :
  let run := ContentGen.generate_content (service := summary_then_chatty)
               "Rosetta Stone, 196 BC" [INFOGRAPHICS; PODCAST] content_dir content_world in
  run = (Ok {[ "infographics" := "/srv/backend/outputs/job1/generated_content/infographic.md";
               "podcast" := "/srv/backend/outputs/job1/generated_content/podcast_script.txt" ]},
         run.2)
  ∧ served run.2 = 2%nat.
Proof.
  intros run.
  assert (H : run = (Ok {[ "infographics" := "/srv/backend/outputs/job1/generated_content/infographic.md";
               "podcast" := "/srv/backend/outputs/job1/generated_content/podcast_script.txt" ]},
         run.2)) by (vm_compute; reflexivity).
  split; [exact H|].
  destruct (generate_content_returns_requested (service := summary_then_chatty)
              "Rosetta Stone, 196 BC" content_dir [INFOGRAPHICS; PODCAST] _ content_world
              run.2 H) as (_ & _ & Hserved).
  rewrite Hserved. reflexivity.
Defined.

Lemma generated_files_are_downloadable_witness :
  let run := Routes.generate_content (service := summary_then_chatty) demo_settings
               "job1" [INFOGRAPHICS; PODCAST] finished_server in
  run = (Ok ("job1", [INFOGRAPHICS; PODCAST],
             {[ "infographics" := "/srv/backend/outputs/job1/generated_content/infographic.md";
                "podcast" := "/srv/backend/outputs/job1/generated_content/podcast_script.txt" ]},
             "Content generated successfully"), run.2)
  ∧ Routes.download_file demo_settings "job1" "podcast" run.2
    = (Ok ("/srv/backend/outputs/job1/generated_content/podcast_script.txt",
           "podcast_script.txt", "application/octet-stream"), run.2).
Proof.
  intros run.
  assert (H : run = (Ok ("job1", [INFOGRAPHICS; PODCAST],
             {[ "infographics" := "/srv/backend/outputs/job1/generated_content/infographic.md";
                "podcast" := "/srv/backend/outputs/job1/generated_content/podcast_script.txt" ]},
             "Content generated successfully"), run.2)) by (vm_compute; reflexivity).
  split; [exact H|].
  destruct (generated_files_are_downloadable (service := summary_then_chatty)
              demo_settings finished_server run.2 "job1" [INFOGRAPHICS; PODCAST]
              [INFOGRAPHICS; PODCAST] _ "Content generated successfully" H PODCAST)
    as (path & Hpath & Hdl); [repeat constructor|].
  change (content_key PODCAST) with "podcast" in Hpath, Hdl.
  change (content_file PODCAST) with "podcast_script.txt" in Hdl. rewrite Hdl.
  assert (Hp : path = "/srv/backend/outputs/job1/generated_content/podcast_script.txt").
  { vm_compute in Hpath. now injection Hpath. }
  now rewrite Hp.
Defined.

Lemma generate_flashcards_returns_iff_deck_witness :
  messages_create (Anthropic := deck_service) 0
    (Prompt (ContentGen.flashcards_prompt "Rosetta Stone, 196 BC")) = Ok plain_payload
  ∧ (ContentGen.generate_flashcards (service := deck_service) "Rosetta Stone, 196 BC"
       "/srv/backend/outputs/job1/generated_content/flashcards.json" content_world).1
    = Ok "/srv/backend/outputs/job1/generated_content/flashcards.json".
Proof.
  assert (H : messages_create (Anthropic := deck_service) (served content_world)
                (Prompt (ContentGen.flashcards_prompt "Rosetta Stone, 196 BC"))
              = Ok plain_payload) by reflexivity.
  split; [exact H|].
  destruct (generate_flashcards_returns_iff_deck (service := deck_service)
              "Rosetta Stone, 196 BC"
              "/srv/backend/outputs/job1/generated_content/flashcards.json"
              plain_payload content_world H) as [[_ Hback] _].
  apply Hback. exists (VDict [("flashcards", VList [])]).
  split; vm_compute; reflexivity.
Defined.

Lemma generate_flashcards_keeps_json_of_misshapen_reply_witness :
  (messages_create (Anthropic := list_service) 0
     (Prompt (ContentGen.flashcards_prompt "Rosetta Stone, 196 BC")) = Ok "[]"
   ∧ ContentGen.parse_response "[]" = Ok (VList [])
   ∧ deck_shape (VList []) = false)
  ∧ let run := ContentGen.generate_flashcards (service := list_service)
                 "Rosetta Stone, 196 BC"
                 "/srv/backend/outputs/job1/generated_content/flashcards.json"
                 content_world in
    run.1 = Raise (Exception "Exception"
              "Failed to parse flashcards JSON: 'list' object has no attribute 'get'")
    ∧ files run.2 !! "/srv/backend/outputs/job1/generated_content/flashcards.txt"
      = Some "[]"
    ∧ files run.2 !! "/srv/backend/outputs/job1/generated_content/flashcards.json"
      = Some "[]".
Proof.
  assert (H1 : messages_create (Anthropic := list_service) (served content_world)
                 (Prompt (ContentGen.flashcards_prompt "Rosetta Stone, 196 BC")) = Ok "[]")
    by reflexivity.
  assert (H2 : ContentGen.parse_response "[]" = Ok (VList [])) by (vm_compute; reflexivity).
  assert (H3 : deck_shape (VList []) = false) by reflexivity.
  split; [auto|]. intros run.
  destruct (generate_flashcards_keeps_json_of_misshapen_reply (service := list_service)
              "Rosetta Stone, 196 BC"
              "/srv/backend/outputs/job1/generated_content/flashcards.json"
              "[]" (VList []) content_world H1 H2 H3) as ((e & He & Hrun) & Htxt & Hjson).
  fold run in Hrun, Htxt, Hjson. split; [|split].
  - rewrite Hrun. vm_compute in He. injection He as <-. reflexivity.
  - exact Htxt.
  - rewrite Hjson; [reflexivity|]. vm_compute. discriminate.
Defined.

Lemma transcribe_batch_leaves_checkpoints_witness :
  2 ≠ 0
  ∧ ∃ results w',
      Transcriber.transcribe_batch (service := flaky_service)
        cli_transcriber six_paths 2 six_world = (Ok results, w')
      ∧ files w' !! "out/backup_results_4.json"
        = Some (json_dumps (VList (VDict <$> take 4 results)))
      ∧ files w' !! "in/4.gif" = Some "GIF89a".
Proof.
  split; [discriminate|].
  destruct (transcribe_batch_leaves_checkpoints (service := flaky_service)
              cli_transcriber six_paths 2 six_world)
    as (results & w' & Hrun & _ & Hsaved & Hkept); [discriminate|].
  exists results, w'. split; [exact Hrun|]. split.
  - apply (Hsaved 4%nat); [vm_compute; lia|reflexivity].
  - rewrite Hkept; [reflexivity|]. intros n _ _. vm_compute. discriminate.
Defined.

Lemma transcribe_batch_asks_once_per_image_witness :
  let after (n : nat) :=
    served (Transcriber.transcribe_batch (service := flaky_service)
              cli_transcriber (take n gap_paths) 10 six_world).2 in
  10 ≠ 0 ∧ gap_paths !! 1%nat = Some "in/7.gif"
  ∧ after 1%nat = 1%nat ∧ after 2%nat = 1%nat ∧ after 3%nat = 2%nat.
Proof.
  intros after.
  assert (H1 : gap_paths !! 1%nat = Some "in/7.gif") by reflexivity.
  split; [discriminate|]. split; [exact H1|].
  pose proof (transcribe_batch_asks_once_per_image (service := flaky_service)
                cli_transcriber gap_paths 10 six_world ltac:(discriminate)
                1%nat "in/7.gif" H1) as Hk.
  cbv zeta in Hk.
  assert (Hone : after 1%nat = 1%nat) by (vm_compute; reflexivity).
  split; [exact Hone|]. split.
  - unfold after. rewrite Hk. vm_compute. reflexivity.
  - vm_compute. reflexivity.
Defined.


Lemma encode_image_media_types_witness :
  (Transcriber.is_image Config.ALLOWED_EXTENSIONS "in/page.png" = true
   ∧ (Transcriber.encode_image "in/page.png" page_world).1
     = Ok (b64encode "JFIF0123456789abcdef", "image/jpeg"))
  ∧ PyStr.lower (PyPath.suffix "in/page.png") ∈ [".jpg"; ".jpeg"; ".png"; ".webp"].
Proof.
  assert (H1 : Transcriber.is_image Config.ALLOWED_EXTENSIONS "in/page.png" = true)
    by (vm_compute; reflexivity).
  assert (H2 : (Transcriber.encode_image "in/page.png" page_world).1
               = Ok (b64encode "JFIF0123456789abcdef", "image/jpeg"))
    by (vm_compute; reflexivity).
  split; [auto|].
  destruct (encode_image_media_types "in/page.png" page_world _ _ H1 H2)
    as [[Hext _]|[[_ Hmt]|[_ Hmt]]]; [exact Hext|discriminate|discriminate].
Defined.

